(** * LXD snapshot and lifecycle core: a shallow embedding

    The development follows two source files of the daemon:
    - [lxd/container_snapshot.go]: [nextSnapshot], the [snapshot] work unit
      of [containerSnapshotsPost], and [snapshotPost];
    - the container file ([containersRestart], [containersShutdown],
      [containerDeleteSnapshots], [tarStoreFile], [ExportToTar]).

    Go [int] is a 64-bit two's complement integer, written as [Z] with its
    wrap-around spelled out.  Strings are byte strings; SQLite's text
    functions count the UTF-8 characters in them.  Calls that leave
    the daemon (database, file system, container runtime, tar stream) take
    their outcome from an explicit environment, so that every function is a
    total, executable state transformer. *)

From Stdlib Require Import ZArith Ascii String List Bool Lia.
From stdpp Require Import base option gmap strings list.

Local Open Scope Z_scope.

(** ** Go runtime and library pieces the code relies on *)

Module Go.

(** A Go [error] value: the message it carries. *)
Definition error : Type := string.

(** [int] arithmetic wraps modulo 2^64. *)
Definition wrap_int (z : Z) : Z := (z + 2 ^ 63) mod 2 ^ 64 - 2 ^ 63.

Definition nl : string := String "010" EmptyString.

(** [s[n:]] for [n <= len(s)]. *)
Fixpoint slice_from (n : nat) (s : string) : string :=
  match n, s with
  | O, _ => s
  | S n', String _ r => slice_from n' r
  | S _, EmptyString => EmptyString
  end.

(** [strings.HasPrefix(s, prefix)]. *)
Definition HasPrefix (s prefix : string) : bool := String.prefix prefix s.

(** *** [fmt.Sscanf(s, "%d", &num)]

    Leading blanks are skipped (a newline is an error for [Sscanf]), one
    optional sign is accepted, then at least one decimal digit is required;
    the token is converted as a 64-bit integer and whatever follows the
    digits is left unread. *)

Definition is_space (a : ascii) : bool :=
  let n := nat_of_ascii a in
  ((9 <=? n)%nat && (n <=? 13)%nat) || (n =? 32)%nat.

Fixpoint skip_space (s : string) : option string :=
  match s with
  | String a r =>
      if Ascii.eqb a "010" then None
      else if is_space a then skip_space r
      else Some s
  | EmptyString => Some s
  end.

Definition digit_val (a : ascii) : option Z :=
  let n := nat_of_ascii a in
  if ((48 <=? n)%nat && (n <=? 57)%nat) then Some (Z.of_nat n - 48) else None.

(** Reads the longest run of digits: its value and how many were read. *)
Fixpoint scan_digits (s : string) (acc : Z) (count : nat) : Z * nat :=
  match s with
  | String a r =>
      match digit_val a with
      | Some d => scan_digits r (10 * acc + d) (S count)
      | None => (acc, count)
      end
  | EmptyString => (acc, count)
  end.

Definition accept_sign (s : string) : bool * string :=
  match s with
  | String "-" r => (true, r)
  | String "+" r => (false, r)
  | _ => (false, s)
  end.

(** [Some num] when [count = 1] and [err = nil]; [None] otherwise. *)
Definition Sscanf_d (s : string) : option Z :=
  match skip_space s with
  | None => None
  | Some s1 =>
      let '(neg, s2) := accept_sign s1 in
      let '(v, count) := scan_digits s2 0 O in
      match count with
      | O => None
      | S _ =>
          let num := if neg then - v else v in
          if (- 2 ^ 63 <=? num) && (num <? 2 ^ 63) then Some num else None
      end
  end.

(** [fmt.Sprintf("%d", i)] for the non-negative values used here. *)
Definition digit_char (d : Z) : ascii := ascii_of_nat (48 + Z.to_nat d).

Fixpoint itoa_fuel (fuel : nat) (z : Z) (acc : string) : string :=
  match fuel with
  | O => acc
  | S f =>
      let acc' := String (digit_char (z mod 10)) acc in
      if z <? 10 then acc' else itoa_fuel f (z / 10) acc'
  end.

Definition itoa (z : Z) : string :=
  if z <? 0 then String "-" (itoa_fuel 20 (- z) EmptyString)
  else itoa_fuel 20 z EmptyString.

End Go.

(** ** The containers table *)

Module Db.

Inductive containerType := cTypeRegular | cTypeSnapshot.

Definition containerType_eqb (a b : containerType) : bool :=
  match a, b with
  | cTypeRegular, cTypeRegular | cTypeSnapshot, cTypeSnapshot => true
  | _, _ => false
  end.

(** One row of [containers]: the columns the code reads or writes. *)
Record row := mkRow {
  row_id : Z;
  row_name : string;
  row_type : containerType;
  row_power_state : Z
}.

Definition row_eqb (a b : row) : bool :=
  (row_id a =? row_id b) && String.eqb (row_name a) (row_name b)
  && containerType_eqb (row_type a) (row_type b)
  && (row_power_state a =? row_power_state b).

(** The table: its rows in the order in which a scan meets them, which is
    the order a query without [ORDER BY] is taken to return them in. *)
Definition table : Type := list row.

(** SQLite's [SUBSTR(name,1,n)] over text: the first [n] characters of
    [name] (all of it when it is shorter).  SQLite counts characters, not
    bytes: a byte of value 0xC0 or more opens a character that also takes
    the continuation bytes (0x80 to 0xBF) after it, any other byte is a
    character of its own, and the scan stops at a NUL byte.  [in_char] tells
    that the byte before opened or continued a multi-byte character. *)
Fixpoint sql_substr (n : nat) (in_char : bool) (s : string) : string :=
  match s with
  | EmptyString => EmptyString
  | String a r =>
      let b := nat_of_ascii a in
      if (b =? 0)%nat then EmptyString
      else if in_char && (128 <=? b)%nat && (b <? 192)%nat then
        String a (sql_substr n true r)
      else
        match n with
        | O => EmptyString
        | S n' => String a (sql_substr n' (192 <=? b)%nat r)
        end
  end.

(** The number of characters SQLite counts in a text, [LENGTH(s)]. *)
Fixpoint sql_length (in_char : bool) (s : string) : nat :=
  match s with
  | EmptyString => O
  | String a r =>
      let b := nat_of_ascii a in
      if (b =? 0)%nat then O
      else if in_char && (128 <=? b)%nat && (b <? 192)%nat then sql_length true r
      else S (sql_length (192 <=? b)%nat r)
  end.

(** [WHERE type=? AND SUBSTR(name,1,?)=?].  The callers pass [len(pat)], a
    number of bytes, as the number of characters to take. *)
Definition where_type_prefix (t : containerType) (length : nat) (pat : string)
    (r : row) : bool :=
  containerType_eqb (row_type r) t
  && String.eqb (sql_substr length false (row_name r)) pat.

(** Names made of ASCII bytes other than NUL: their characters are their
    bytes. *)
Fixpoint is_ascii (s : string) : bool :=
  match s with
  | EmptyString => true
  | String a r =>
      let b := nat_of_ascii a in
      negb (b =? 0)%nat && (b <? 128)%nat && is_ascii r
  end.

(** [MAX(name)] over text: the greatest string in byte order, [NULL] (here
    [None]) over no row. *)
Definition sql_max (names : list string) : option string :=
  fold_left
    (fun acc n =>
       match acc with
       | None => Some n
       | Some m => if String.ltb m n then Some n else Some m
       end)
    names None.

Definition names_of (t : table) : list string := List.map row_name t.

End Db.

(** ** Pieces of the daemon declared outside the two files

    The world the handlers act on, and the helpers of other files that the
    code below calls.  Each helper takes the outcome of the external call it
    wraps ([None]: the call succeeded). *)

Module Daemon.
Import Go Db.

(** What the daemon did to the outside, in the order it did it. *)
Inductive event :=
| EvClearPowerStates                       (* UPDATE containers SET power_state=0 *)
| EvSetPowerState (name : string)          (* ... SET power_state=1 WHERE name=? *)
| EvStart (name : string) (ok : bool)      (* container.Start() *)
| EvWgAdd                                  (* wg.Add(1) *)
| EvGo (name : string)                     (* go func() { ... }() *)
| EvWgWait                                 (* wg.Wait() is entered *)
| EvShutdown (name : string)               (* container.Shutdown(30s) *)
| EvStop (name : string)                   (* container.Stop() *)
| EvWgDone                                 (* wg.Done() *)
| EvBtrfsDeleteSubvol (path : string)      (* btrfsDeleteSubvol(cdir) *)
| EvRemoveAll (path : string)              (* os.RemoveAll(cdir) *)
| EvDbDelete (id : Z).                     (* DELETE FROM containers WHERE id=? *)

Record world := mkWorld {
  w_db : table;                (* the containers table *)
  w_dirs : list string;        (* directories present on disk *)
  w_running : list string;     (* names of the running containers *)
  w_storage : list string;     (* names that own a storage volume *)
  w_log : list event           (* what has been done so far, oldest first *)
}.

Definition set_db (w : world) (t : table) : world :=
  mkWorld t (w_dirs w) (w_running w) (w_storage w) (w_log w).
Definition set_dirs (w : world) (d : list string) : world :=
  mkWorld (w_db w) d (w_running w) (w_storage w) (w_log w).
Definition set_running (w : world) (r : list string) : world :=
  mkWorld (w_db w) (w_dirs w) r (w_storage w) (w_log w).
Definition set_storage (w : world) (s : list string) : world :=
  mkWorld (w_db w) (w_dirs w) (w_running w) s (w_log w).
Definition emit (w : world) (e : event) : world :=
  mkWorld (w_db w) (w_dirs w) (w_running w) (w_storage w) (w_log w ++ [e]).

Definition str_in (s : string) (l : list string) : bool :=
  existsb (String.eqb s) l.

Definition remove_str (s : string) (l : list string) : list string :=
  List.filter (fun x => negb (String.eqb s x)) l.

(** [c.IsRunning()]. *)
Definition IsRunning (name : string) (w : world) : bool :=
  str_in name (w_running w).

Definition fresh_id (t : table) : Z :=
  1 + fold_right Z.max 0 (List.map row_id t).

(** Modelled from the spec: [newLxdContainer] is declared in another file;
    loading can fail, and a name with no record fails with NotFound. *)
Definition newLxdContainer (outcome : option error) (name : string) (w : world)
    : error + string :=
  match outcome with
  | Some err => inl err
  | None =>
      if str_in name (names_of (w_db w)) then inr name
      else inl ("NotFound: " +:+ name)
  end.

(** Modelled from the spec: [createcontainerLXD] is declared in another
    file.  It persists one new record of the given type under a globally
    unique name; when it fails nothing was written. *)
Definition createcontainerLXD (outcome : option error) (name : string)
    (t : containerType) (w : world) : option error * world :=
  match outcome with
  | Some err => (Some err, w)
  | None =>
      if str_in name (names_of (w_db w)) then
        (Some ("Container exists: " +:+ name), w)
      else
        (None, set_db w (w_db w ++ [mkRow (fresh_id (w_db w)) name t 0]))
  end.

(** Modelled from the spec: [container.Delete] is declared in another file.
    It removes the record, its storage volume and its on-disk location
    [location]; it returns an error, and a failed delete is taken to leave
    the world as it was. *)
Definition Delete (outcome : option error) (name location : string) (w : world)
    : option error * world :=
  match outcome with
  | Some err => (Some err, w)
  | None =>
      (None,
       set_dirs
         (set_storage
            (set_db w
               (List.filter (fun r => negb (String.eqb name (row_name r))) (w_db w)))
            (remove_str name (w_storage w)))
         (remove_str location (w_dirs w)))
  end.

(** [os.MkdirAll(dir, 0700)]. *)
Definition MkdirAll (outcome : option error) (dir : string) (w : world)
    : option error * world :=
  match outcome with
  | Some err => (Some err, w)
  | None =>
      (None,
       set_dirs w (if str_in dir (w_dirs w) then w_dirs w else w_dirs w ++ [dir]))
  end.

(** [lxcContainer.Checkpoint(opts)] with [Stop: true]: the source is
    stopped once its state has been dumped. *)
Definition Checkpoint (outcome : option error) (name : string) (w : world)
    : option error * world :=
  match outcome with
  | Some err => (Some err, w)
  | None => (None, set_running w (remove_str name (w_running w)))
  end.

(** Modelled from the spec: [d.Storage.ContainerSnapshotCreate(sc, c)] is a
    method of the storage backend, declared in another file.  It copies the
    parent's root filesystem into the storage location [location] of the new
    record: the snapshot owns a volume and its location is on disk
    afterwards.  A failed call is taken to leave the world as it was. *)
Definition ContainerSnapshotCreate (outcome : option error) (sc location : string)
    (w : world) : option error * world :=
  match outcome with
  | Some err => (Some err, w)
  | None =>
      (None,
       set_dirs
         (set_storage w (w_storage w ++ [sc]))
         (if str_in location (w_dirs w) then w_dirs w else w_dirs w ++ [location]))
  end.

(** Request bodies: [shared.Jmap] is a JSON object. *)
Inductive jvalue :=
| JString (s : string)
| JBool (b : bool)
| JNumber (z : Z)
| JNull.

(** [raw.GetString(key)]: the key must be present and hold a string. *)
Definition GetString (m : gmap string jvalue) (key : string) : error + string :=
  match m !! key with
  | Some (JString s) => inr s
  | Some _ => inl ("`" +:+ key +:+ "` was not a string")
  | None => inl ("Response was missing `" +:+ key +:+ "`")
  end.

(** [raw.GetBool(key)]. *)
Definition GetBool (m : gmap string jvalue) (key : string) : error + bool :=
  match m !! key with
  | Some (JBool b) => inr b
  | Some _ => inl ("`" +:+ key +:+ "` was not a bool")
  | None => inl ("Response was missing `" +:+ key +:+ "`")
  end.

(** The unit of work handed to [shared.OperationWrap]: the closure, with
    the variables it captured. *)
Inductive operation :=
| OpSnapshot (c fullName : string) (stateful : bool)
| OpRename (sc newName : string)
| OpDelete (sc : string).

Inductive Response :=
| SmartError (err : error)
| BadRequest (err : error)
| AsyncResponse (op : operation).

End Daemon.

(** ** lxd/container_snapshot.go *)

Module Snapshot.
Import Go Db Daemon.

Section Handlers.

(** [shared.SnapshotDelimiter], a constant of the [shared] package;
    [sc.StateDirGet()], a method of another file; and the location on disk
    of the container [sc], which the storage backend and [sc.Delete()] work
    on. *)
Variable SnapshotDelimiter : string.
Variable StateDirGet : string -> string.
Variable PathGet : string -> string.

(** [dbQueryScan] for the query of [nextSnapshot],
    [SELECT MAX(name) FROM containers WHERE type=? AND SUBSTR(name,1,?)=?].
    The aggregate yields one row; over no matching record its column is
    [NULL], which cannot be scanned into a Go string and comes back as an
    error ([nextSnapshot] returns 0 then, as it would for an empty string). *)
Definition dbQueryScan_max_name (outcome : option error) (db : table)
    (t : containerType) (length : nat) (pat : string) : error + list string :=
  match outcome with
  | Some err => inl err
  | None =>
      match sql_max (names_of (List.filter (where_type_prefix t length pat) db)) with
      | Some n => inr [n]
      | None => inl "sql: Scan error on column index 0"
      end
  end.

(** The [for _, r := range results] loop of [nextSnapshot]. *)
Fixpoint nextSnapshot_loop (length : nat) (results : list string) (max : Z) : Z :=
  match results with
  | [] => max
  | numstr :: rest =>
      if (String.length numstr <=? length)%nat then
        nextSnapshot_loop length rest max
      else
        match Sscanf_d (slice_from length numstr) with
        | None => nextSnapshot_loop length rest max
        | Some num =>
            if num >=? max then nextSnapshot_loop length rest (wrap_int (num + 1))
            else nextSnapshot_loop length rest max
        end
  end.

Definition nextSnapshot (outcome : option error) (db : table) (name : string) : Z :=
  let base := name +:+ SnapshotDelimiter +:+ "snap" in
  let length := String.length base in
  match dbQueryScan_max_name outcome db cTypeSnapshot length base with
  | inl _ => 0
  | inr results => nextSnapshot_loop length results 0
  end.

(** Outcomes of the external calls of the [snapshot] closure, in the order
    the closure makes them. *)
Record snapshot_env := mkSnapshotEnv {
  create_err : option error;       (* createcontainerLXD *)
  mkdir_err : option error;        (* os.MkdirAll *)
  lxc_get_err : option error;      (* c.LXContainerGet *)
  checkpoint_err : option error;   (* lxcContainer.Checkpoint *)
  storage_err : option error;      (* d.Storage.ContainerSnapshotCreate *)
  delete_err : option error        (* sc.Delete, the rollback *)
}.

(** [sc.Delete()] used as a statement: its result is dropped. *)
Definition rollback (env : snapshot_env) (sc : string) (w : world) : world :=
  snd (Delete (delete_err env) sc (PathGet sc) w).

(** The [if stateful { ... }] block of the closure. *)
Definition snapshot_stateful (env : snapshot_env) (c sc : string) (w : world)
    : option error * world :=
  let stateDir := StateDirGet sc in
  match MkdirAll (mkdir_err env) stateDir w with
  | (Some err, w1) => (Some err, rollback env sc w1)
  | (None, w1) =>
      if negb (IsRunning c w1) then
        (Some ("Container not running" +:+ nl), rollback env sc w1)
      else
        match lxc_get_err env with
        | Some err => (Some err, rollback env sc w1)
        | None =>
            match Checkpoint (checkpoint_err env) c w1 with
            | (Some err, w2) => (Some err, rollback env sc w2)
            | (None, w2) => (None, w2)
            end
        end
  end.

(** The closure [snapshot := func() error { ... }] of
    [containerSnapshotsPost]. *)
Definition snapshot (env : snapshot_env) (c fullName : string) (stateful : bool)
    (w : world) : option error * world :=
  match createcontainerLXD (create_err env) fullName cTypeSnapshot w with
  | (Some err, w1) => (Some err, w1)
  | (None, w1) =>
      let sc := fullName in
      match (if stateful then snapshot_stateful env c sc w1 else (None, w1)) with
      | (Some err, w2) => (Some err, w2)
      | (None, w2) =>
          match ContainerSnapshotCreate (storage_err env) sc (PathGet sc) w2 with
          | (Some err, w3) => (Some err, rollback env sc w3)
          | (None, w3) => (None, w3)
          end
      end
  end.

(** [containerSnapshotsPost]; [body] is the decoded request body ([None]
    when it does not decode), [lerr] and [qerr] the outcomes of loading the
    parent and of the namer's query. *)
Definition containerSnapshotsPost (lerr qerr : option error) (w : world)
    (name : string) (body : option (gmap string jvalue)) : Response :=
  match newLxdContainer lerr name w with
  | inl err => SmartError err
  | inr c =>
      match body with
      | None => BadRequest "invalid JSON"
      | Some raw =>
          let snapshotName :=
            match GetString raw "name" with
            | inr s =>
                if String.eqb s "" then "snap" +:+ itoa (nextSnapshot qerr (w_db w) name)
                else s
            | inl _ => "snap" +:+ itoa (nextSnapshot qerr (w_db w) name)
            end in
          match GetBool raw "stateful" with
          | inl err => BadRequest err
          | inr stateful =>
              let fullName := name +:+ SnapshotDelimiter +:+ snapshotName in
              AsyncResponse (OpSnapshot c fullName stateful)
          end
      end
  end.

(** [snapshotPost]: the rename handler. *)
Definition snapshotPost (body : option (gmap string jvalue)) (sc : string)
    (containerName : string) : Response :=
  match body with
  | None => BadRequest "invalid JSON"
  | Some raw =>
      match GetString raw "name" with
      | inl err => BadRequest err
      | inr newName =>
          AsyncResponse (OpRename sc (containerName +:+ SnapshotDelimiter +:+ newName))
      end
  end.

(** [snapshotDelete]. *)
Definition snapshotDelete (sc : string) : Response :=
  AsyncResponse (OpDelete sc).

End Handlers.

(** What the specification asks of the namer, in its own words: one more
    than the greatest [K] over the records named [<parent><delimiter>snapK],
    and 0 when there is none. *)
Fixpoint all_digits (s : string) : bool :=
  match s with
  | EmptyString => true
  | String a r =>
      match digit_val a with
      | Some _ => all_digits r
      | None => false
      end
  end.

Definition spec_snapshot_number (delim parent name : string) : option Z :=
  let base := parent +:+ delim +:+ "snap" in
  let rest := slice_from (String.length base) name in
  if String.prefix base name && negb (String.eqb rest "") && all_digits rest
  then Some (fst (scan_digits rest 0 O)) else None.

Definition spec_nextSnapshot (delim : string) (db : table) (parent : string) : Z :=
  fold_left
    (fun acc r =>
       match row_type r, spec_snapshot_number delim parent (row_name r) with
       | cTypeSnapshot, Some k => Z.max acc (k + 1)
       | _, _ => acc
       end)
    db 0.

End Snapshot.

(** ** The container file: power management and cascade delete *)

Module Containers.
Import Go Db Daemon.

(** *** [containersRestart] *)

Record restart_env := mkRestartEnv {
  rs_query_err : option error;             (* dbQueryScan *)
  rs_update_err : option error;            (* dbExec, UPDATE ... power_state=0 *)
  rs_load_err : string -> option error;    (* newLxdContainer, per name *)
  rs_start_err : string -> option error    (* container.Start(), per name *)
}.

(** [SELECT name FROM containers WHERE type=? AND power_state=1]. *)
Definition select_power_on (t : table) : list string :=
  names_of
    (List.filter
       (fun r => containerType_eqb (row_type r) cTypeRegular && (row_power_state r =? 1))
       t).

(** [UPDATE containers SET power_state=0]. *)
Definition clear_power_states (t : table) : table :=
  List.map (fun r => mkRow (row_id r) (row_name r) (row_type r) 0) t.

(** [container.Start()] used as a statement: its result is dropped. *)
Definition Start (outcome : option error) (name : string) (w : world) : world :=
  match outcome with
  | Some _ => emit w (EvStart name false)
  | None =>
      emit
        (set_running w
           (if str_in name (w_running w) then w_running w else w_running w ++ [name]))
        (EvStart name true)
  end.

Fixpoint containersRestart_loop (env : restart_env) (result : list string)
    (w : world) : option error * world :=
  match result with
  | [] => (None, w)
  | r :: rest =>
      match newLxdContainer (rs_load_err env r) r w with
      | inl err => (Some err, w)
      | inr container =>
          containersRestart_loop env rest (Start (rs_start_err env container) container w)
      end
  end.

Definition containersRestart (env : restart_env) (w : world) : option error * world :=
  match rs_query_err env with
  | Some err => (Some err, w)
  | None =>
      let result := select_power_on (w_db w) in
      match rs_update_err env with
      | Some err => (Some err, w)
      | None =>
          containersRestart_loop env result
            (emit (set_db w (clear_power_states (w_db w))) EvClearPowerStates)
      end
  end.

(** *** [containersShutdown]

    A goroutine started by [go] is in flight until it has called
    [wg.Done()]; [wg.Wait()] returns once every goroutine in flight has
    done so.  [pending] holds the goroutines in flight. *)

Record shutdown_env := mkShutdownEnv {
  sd_list_err : option error;              (* d.ListRegularContainers *)
  sd_load_err : string -> option error;    (* newLxdContainer *)
  sd_exec_err : string -> option error;    (* dbExec, UPDATE ... power_state=1 *)
  sd_stop_ok : string -> bool              (* does Shutdown or Stop bring it down *)
}.

(** [d.ListRegularContainers()]. *)
Definition ListRegularContainers (t : table) : list string :=
  names_of (List.filter (fun r => containerType_eqb (row_type r) cTypeRegular) t).

(** [UPDATE containers SET power_state=1 WHERE name=?]. *)
Definition set_power_state (name : string) (t : table) : table :=
  List.map
    (fun r =>
       if String.eqb (row_name r) name
       then mkRow (row_id r) (row_name r) (row_type r) 1 else r)
    t.

(** The goroutine body: [Shutdown(30s)], [Stop()], [wg.Done()]. *)
Definition shutdown_task (env : shutdown_env) (name : string) (w : world) : world :=
  let w1 := emit (emit w (EvShutdown name)) (EvStop name) in
  let w2 :=
    if sd_stop_ok env name then set_running w1 (remove_str name (w_running w1))
    else w1 in
  emit w2 EvWgDone.

(** [wg.Wait()]: blocks until the goroutines in flight have finished. *)
Definition wg_Wait (env : shutdown_env) (pending : list string) (w : world) : world :=
  fold_left (fun w' n => shutdown_task env n w') pending (emit w EvWgWait).

Fixpoint containersShutdown_loop (env : shutdown_env) (results : list string)
    (pending : list string) (w : world) : option error * list string * world :=
  match results with
  | [] => (None, pending, w)
  | r :: rest =>
      match newLxdContainer (sd_load_err env r) r w with
      | inl err => (Some err, pending, w)
      | inr container =>
          if IsRunning container w then
            match sd_exec_err env container with
            | Some err => (Some err, pending, w)
            | None =>
                let w1 :=
                  emit (set_db w (set_power_state container (w_db w)))
                    (EvSetPowerState container) in
                let w2 := emit (emit w1 EvWgAdd) (EvGo container) in
                let pending' := pending ++ [container] in
                (* wg.Wait() at the end of the loop body *)
                containersShutdown_loop env rest [] (wg_Wait env pending' w2)
            end
          else
            containersShutdown_loop env rest [] (wg_Wait env pending w)
      end
  end.

Definition containersShutdown (env : shutdown_env) (w : world)
    : option error * list string * world :=
  match sd_list_err env with
  | Some err => (Some err, [], w)
  | None => containersShutdown_loop env (ListRegularContainers (w_db w)) [] w
  end.

(** The greatest number of goroutines in flight at once along a log:
    [(now, most)]. *)
Definition inflight_step (st : nat * nat) (e : event) : nat * nat :=
  match e with
  | EvGo _ => (S (fst st), Nat.max (snd st) (S (fst st)))
  | EvWgDone => (Nat.pred (fst st), snd st)
  | _ => st
  end.

Definition max_inflight (log : list event) : nat :=
  snd (fold_left inflight_step log (O, O)).

(** *** [containerDeleteSnapshots] *)

Section Cascade.

Variable SnapshotDelimiter : string.
(** [shared.VarPath(dir, name)]. *)
Variable VarPath : string -> string -> string.

Record cascade_env := mkCascadeEnv {
  cd_query_err : option error;             (* dbQueryScan *)
  cd_backingFs : string;                   (* filesystemDetect: the kind ... *)
  cd_detect_err : option (error * bool);   (* ... its error, and os.IsNotExist of it *)
  cd_btrfs_ok : string -> bool;            (* btrfsDeleteSubvol, per path *)
  cd_removeall_ok : string -> bool;        (* os.RemoveAll, per path *)
  cd_exec_err : Z -> option error          (* dbExec DELETE, per id *)
}.

(** [SELECT name, id FROM containers WHERE type=? AND SUBSTR(name,1,?)=?]. *)
Definition select_snapshots (t : table) (length : nat) (pat : string)
    : list (string * Z) :=
  List.map (fun r => (row_name r, row_id r))
    (List.filter (where_type_prefix cTypeSnapshot length pat) t).

(** [btrfsDeleteSubvol(cdir)] and [os.RemoveAll(cdir)] used as statements:
    whatever they return is dropped. *)
Definition btrfsDeleteSubvol (env : cascade_env) (cdir : string) (w : world) : world :=
  let w1 := emit w (EvBtrfsDeleteSubvol cdir) in
  if cd_btrfs_ok env cdir then set_dirs w1 (remove_str cdir (w_dirs w1)) else w1.

Definition RemoveAll (env : cascade_env) (cdir : string) (w : world) : world :=
  let w1 := emit w (EvRemoveAll cdir) in
  if cd_removeall_ok env cdir then set_dirs w1 (remove_str cdir (w_dirs w1)) else w1.

(** The first loop: collect the ids and remove the directories. *)
Fixpoint cascade_fs_loop (env : cascade_env) (backingFs : string)
    (results : list (string * Z)) (ids : list Z) (w : world) : list Z * world :=
  match results with
  | [] => (ids, w)
  | (sname, id) :: rest =>
      let ids' := ids ++ [id] in
      let cdir := VarPath "snapshots" sname in
      let w1 := if String.eqb backingFs "btrfs" then btrfsDeleteSubvol env cdir w else w in
      cascade_fs_loop env backingFs rest ids' (RemoveAll env cdir w1)
  end.

(** The second loop: [DELETE FROM containers WHERE id=?] for each id. *)
Fixpoint cascade_db_loop (env : cascade_env) (ids : list Z) (w : world)
    : option error * world :=
  match ids with
  | [] => (None, w)
  | id :: rest =>
      let w1 := emit w (EvDbDelete id) in
      match cd_exec_err env id with
      | Some err => (Some err, w1)
      | None =>
          cascade_db_loop env rest
            (set_db w1 (List.filter (fun r => negb (row_id r =? id)) (w_db w1)))
      end
  end.

Definition containerDeleteSnapshots (env : cascade_env) (w : world) (cname : string)
    : option error * world :=
  let prefix := cname +:+ SnapshotDelimiter in
  let length := String.length prefix in
  match cd_query_err env with
  | Some err => (Some err, w)
  | None =>
      let results := select_snapshots (w_db w) length prefix in
      match cd_detect_err env with
      | Some (err, false) => (Some err, w)
      | _ =>
          let '(ids, w1) := cascade_fs_loop env (cd_backingFs env) results [] w in
          cascade_db_loop env ids w1
      end
  end.

End Cascade.

End Containers.

(** ** The container file: the archive exporter *)

Module Archive.
Import Go.

(** [os.FileMode] bits. *)
Definition ModeDir : Z := Z.shiftl 1 31.
Definition ModeSymlink : Z := Z.shiftl 1 27.
Definition ModeDevice : Z := Z.shiftl 1 26.
Definition ModeNamedPipe : Z := Z.shiftl 1 25.
Definition ModeSocket : Z := Z.shiftl 1 24.
Definition ModeCharDevice : Z := Z.shiftl 1 21.
Definition ModeIrregular : Z := Z.shiftl 1 19.
Definition ModeType : Z :=
  Z.lor ModeDir
    (Z.lor ModeSymlink
       (Z.lor ModeNamedPipe
          (Z.lor ModeSocket (Z.lor ModeDevice (Z.lor ModeCharDevice ModeIrregular))))).

(** [fi.IsDir()], [fi.Mode().IsRegular()] and the test
    [fi.Mode()&os.ModeSymlink == os.ModeSymlink]. *)
Definition IsDir (m : Z) : bool := negb (Z.land m ModeDir =? 0).
Definition IsRegular (m : Z) : bool := Z.land m ModeType =? 0.
Definition is_symlink (m : Z) : bool := Z.land m ModeSymlink =? ModeSymlink.

(** [os.FileInfo]: what the code reads of it. *)
Record FileInfo := mkFileInfo {
  fi_mode : Z;
  fi_size : Z
}.

(** The values [shared.GetFileStat] returns beside its error. *)
Record FileStat := mkFileStat {
  st_uid : Z;
  st_gid : Z;
  st_major : Z;
  st_minor : Z;
  st_ino : Z;
  st_nlink : Z
}.

(** What the file system answers for one path. *)
Record file := mkFile {
  f_info : FileInfo;               (* the FileInfo handed to tarStoreFile *)
  f_readlink : error + string;     (* os.Readlink *)
  f_stat : error + FileStat;       (* shared.GetFileStat *)
  f_write_err : option error;      (* the stream, when the header is written *)
  f_open_err : option error;       (* os.Open *)
  f_copy_err : option error;       (* io.Copy(tw, f) *)
  f_lstat_err : option error       (* Walk's own Lstat: failed, the FileInfo is nil *)
}.

(** [archive/tar]. *)
Inductive Typeflag :=
| TypeReg | TypeLink | TypeSymlink | TypeChar | TypeBlock | TypeDir | TypeFifo.

Definition Typeflag_eqb (a b : Typeflag) : bool :=
  match a, b with
  | TypeReg, TypeReg | TypeLink, TypeLink | TypeSymlink, TypeSymlink
  | TypeChar, TypeChar | TypeBlock, TypeBlock | TypeDir, TypeDir
  | TypeFifo, TypeFifo => true
  | _, _ => false
  end.

Record Header := mkHeader {
  Name : string;
  Size : Z;
  Uid : Z;
  Gid : Z;
  Devmajor : Z;
  Devminor : Z;
  Typeflag_of : Typeflag;
  Linkname : string
}.

(** [tar.FileInfoHeader(fi, link)]: the type flag follows the mode, only a
    regular file gets a size, a socket is refused.  The name is the file's
    base name, which the caller overwrites; it is left empty here. *)
Definition FileInfoHeader (fi : FileInfo) (link : string) : error + Header :=
  let fm := fi_mode fi in
  let h t sz ln := mkHeader "" sz 0 0 0 0 t ln in
  if IsRegular fm then inr (h TypeReg (fi_size fi) "")
  else if IsDir fm then inr (h TypeDir 0 "")
  else if negb (Z.land fm ModeSymlink =? 0) then inr (h TypeSymlink 0 link)
  else if negb (Z.land fm ModeDevice =? 0) then
    if negb (Z.land fm ModeCharDevice =? 0) then inr (h TypeChar 0 "")
    else inr (h TypeBlock 0 "")
  else if negb (Z.land fm ModeNamedPipe =? 0) then inr (h TypeFifo 0 "")
  else if negb (Z.land fm ModeSocket =? 0) then inl "archive/tar: sockets not supported"
  else inl "archive/tar: unknown file mode".

(** [*tar.Writer]: the headers written so far, the bytes still owed to the
    current entry, the sticky error and whether it was closed. *)
Record Writer := mkWriter {
  tw_hdrs : list Header;
  tw_nb : Z;
  tw_err : option error;
  tw_closed : bool
}.

Definition NewWriter : Writer := mkWriter [] 0 None false.

Definition tw_fail (tw : Writer) (e : error) : Writer :=
  mkWriter (tw_hdrs tw) (tw_nb tw) (Some e) (tw_closed tw).

(** [tw.WriteHeader(hdr)]: flushes the previous entry first, which fails
    when its content was not written in full. *)
Definition WriteHeader (outcome : option error) (hdr : Header) (tw : Writer)
    : option error * Writer :=
  match tw_err tw with
  | Some e => (Some e, tw)
  | None =>
      if tw_closed tw then (Some "archive/tar: write after close", tw)
      else if tw_nb tw >? 0 then
        (Some "archive/tar: missed writing bytes",
         tw_fail tw "archive/tar: missed writing bytes")
      else
        match outcome with
        | Some e => (Some e, tw_fail tw e)
        | None =>
            (None,
             mkWriter (tw_hdrs tw ++ [hdr])
               (if Typeflag_eqb (Typeflag_of hdr) TypeReg then Size hdr else 0)
               None false)
        end
  end.

(** [io.Copy(tw, f)]: on success the entry's content is complete. *)
Definition Copy (outcome : option error) (tw : Writer) : option error * Writer :=
  match outcome with
  | Some e => (Some e, tw)
  | None => (None, mkWriter (tw_hdrs tw) 0 (tw_err tw) (tw_closed tw))
  end.

(** [tw.Close()]; [outcome] is the result of writing the trailer. *)
Definition Close (outcome : option error) (tw : Writer) : option error * Writer :=
  match tw_err tw with
  | Some e => (Some e, tw)
  | None =>
      if tw_closed tw then (None, tw)
      else if tw_nb tw >? 0 then
        (Some "archive/tar: missed writing bytes",
         tw_fail tw "archive/tar: missed writing bytes")
      else
        match outcome with
        | Some e => (Some e, mkWriter (tw_hdrs tw) 0 (Some e) true)
        | None => (None, mkWriter (tw_hdrs tw) 0 None true)
        end
  end.

(** [*lxdContainer], as far as the exporter looks at it. *)
Record lxdContainer := mkContainer {
  c_privileged : bool;                  (* c.IsPrivileged() *)
  c_ShiftFromNs : Z -> Z -> Z * Z;      (* c.idmapset.ShiftFromNs *)
  c_running : bool;                     (* c.IsRunning() *)
  c_path : string                       (* c.PathGet("") *)
}.

(** How a call ends: [nil], an error, or a run-time panic. *)
Inductive result :=
| Nil
| Err (e : error)
| Panic (msg : string).

(** [tarStoreFile]; the map and the writer are updated in place by the
    code, so both come back with the result. *)
Definition tarStoreFile (c : lxdContainer) (linkmap : gmap Z string) (offset : nat)
    (tw : Writer) (path : string) (f : file)
    : result * gmap Z string * Writer :=
  let fi := f_info f in
  match (if is_symlink (fi_mode fi) then f_readlink f else inr "") with
  | inl err => (Err err, linkmap, tw)
  | inr link =>
      match FileInfoHeader fi link with
      | inl err => (Err err, linkmap, tw)
      | inr hdr =>
          if (String.length path <? offset)%nat then
            (Panic "slice bounds out of range", linkmap, tw)
          else
            let name := slice_from offset path in
            let size :=
              if IsDir (fi_mode fi) || is_symlink (fi_mode fi) then 0 else fi_size fi in
            match f_stat f with
            | inl err =>
                (Err ("error getting file info: " +:+ err +:+ nl), linkmap, tw)
            | inr st =>
                let shift := negb (c_privileged c) && HasPrefix name "/rootfs" in
                let '(uid, gid) :=
                  if shift then c_ShiftFromNs c (st_uid st) (st_gid st)
                  else (st_uid st, st_gid st) in
                if shift && ((uid =? -1) || (gid =? -1)) then (Nil, linkmap, tw)
                else
                  let '(devmajor, devminor) :=
                    if negb (st_major st =? -1) then (st_major st, st_minor st)
                    else (Devmajor hdr, Devminor hdr) in
                  let hdr1 :=
                    mkHeader name size uid gid devmajor devminor
                      (Typeflag_of hdr) (Linkname hdr) in
                  let '(hdr2, linkmap') :=
                    if IsRegular (fi_mode fi) && (st_nlink st >? 1) then
                      match linkmap !! st_ino st with
                      | Some firstpath =>
                          (mkHeader name 0 uid gid devmajor devminor TypeLink firstpath,
                           linkmap)
                      | None => (hdr1, <[st_ino st := name]> linkmap)
                      end
                    else (hdr1, linkmap) in
                  match WriteHeader (f_write_err f) hdr2 tw with
                  | (Some err, tw1) =>
                      (Err ("error writing header: " +:+ err +:+ nl), linkmap', tw1)
                  | (None, tw1) =>
                      if Typeflag_eqb (Typeflag_of hdr2) TypeReg then
                        match f_open_err f with
                        | Some err =>
                            (Err ("tarStoreFile: error opening file: " +:+ err +:+ nl),
                             linkmap', tw1)
                        | None =>
                            match Copy (f_copy_err f) tw1 with
                            | (Some err, tw2) =>
                                (Err ("error copying file " +:+ err +:+ nl), linkmap', tw2)
                            | (None, tw2) => (Nil, linkmap', tw2)
                            end
                        end
                      else (Nil, linkmap', tw1)
                  end
            end
      end
  end.

(** The calls [filepath.Walk(root, writeToTar)] makes to its callback:
    [items] has one entry per call, in the order Walk makes them, each with
    what the file system answers.  Walk stops at the first error of its
    callback and returns it.  When Walk's own Lstat of a path fails it
    still calls the callback, with a nil FileInfo and the error;
    [writeToTar] ignores the error and [tarStoreFile] starts with
    [fi.Mode()], which panics on nil. *)
Fixpoint Walk (c : lxdContainer) (offset : nat) (items : list (string * file))
    (linkmap : gmap Z string) (tw : Writer) : result * gmap Z string * Writer :=
  match items with
  | [] => (Nil, linkmap, tw)
  | (path, f) :: rest =>
      match f_lstat_err f with
      | Some _ => (Panic "invalid memory address or nil pointer dereference", linkmap, tw)
      | None =>
          match tarStoreFile c linkmap offset tw path f with
          | (Nil, linkmap', tw') => Walk c offset rest linkmap' tw'
          | other => other
          end
      end
  end.

(** [filepath.Walk] from its root.  Walk always calls the callback for the
    root itself, so no walk is without a call: an empty [items] stands for a
    root that is not there, which the callback meets as a nil FileInfo. *)
Definition WalkRoot (c : lxdContainer) (offset : nat) (items : list (string * file))
    (linkmap : gmap Z string) (tw : Writer) : result * gmap Z string * Writer :=
  match items with
  | [] => (Panic "invalid memory address or nil pointer dereference", linkmap, tw)
  | _ => Walk c offset items linkmap tw
  end.

(** The container's directory as the exporter meets it. *)
Record container_fs := mkContainerFs {
  fs_metadata : option (error + file);           (* metadata.yaml: present? Lstat *)
  fs_rootfs : list (string * file);              (* the calls of the rootfs walk *)
  fs_templates : option (list (string * file));  (* those of the templates walk, if present *)
  fs_close_err : option error                    (* the stream, at the trailer *)
}.

(** [filepath.Join(dir, name)] for a clean, non-root [dir]. *)
Definition Join (dir name : string) : string := dir +:+ "/" +:+ name.

(** [ExportToTar]; the result comes with the writer, which holds what
    reached the stream. *)
Definition ExportToTar (c : lxdContainer) (snap : string) (fs : container_fs)
    : result * Writer :=
  if negb (String.eqb snap "") && c_running c then
    (Err "Cannot export a running container as image", NewWriter)
  else
    let tw := NewWriter in
    let linkmap : gmap Z string := ∅ in
    let cDir := c_path c in
    let offset := S (String.length cDir) in
    let after_metadata : result * gmap Z string * Writer :=
      match fs_metadata fs with
      | None => (Nil, linkmap, tw)
      | Some (inl err) => (Err err, linkmap, snd (Close (fs_close_err fs) tw))
      | Some (inr f) =>
          match tarStoreFile c linkmap offset tw (Join cDir "metadata.yaml") f with
          | (Nil, linkmap', tw') => (Nil, linkmap', tw')
          | (Err err, linkmap', tw') =>
              (Err err, linkmap', snd (Close (fs_close_err fs) tw'))
          | (Panic m, linkmap', tw') => (Panic m, linkmap', tw')
          end
      end in
    match after_metadata with
    | (Nil, linkmap1, tw1) =>
        (* filepath.Walk(fnam, writeToTar): an error it returns is dropped *)
        match WalkRoot c offset (fs_rootfs fs) linkmap1 tw1 with
        | (Panic m, _, tw2) => (Panic m, tw2)
        | (_, linkmap2, tw2) =>
            match
              (match fs_templates fs with
               | Some items => WalkRoot c offset items linkmap2 tw2
               | None => (Nil, linkmap2, tw2)
               end)
            with
            | (Panic m, _, tw3) => (Panic m, tw3)
            | (_, _, tw3) =>
                match Close (fs_close_err fs) tw3 with
                | (Some err, tw4) => (Err err, tw4)
                | (None, tw4) => (Nil, tw4)
                end
            end
        end
    | (other, _, tw1) => (other, tw1)
    end.

End Archive.

(** ** Vocabulary of the statements, and concrete worlds *)

Module Facts.
Import Go Db Daemon Containers Archive.

(** The records of [after] that [before] does not hold. *)
Definition new_rows (before after : table) : list row :=
  List.filter (fun r => negb (existsb (row_eqb r) before)) after.

(** An external call that went through. *)
Definition succeeded (outcome : option error) : bool :=
  match outcome with
  | None => true
  | Some _ => false
  end.

(** Every step of the snapshot work unit goes through: the record can be
    created, under a name that is still free; for a stateful request the
    state directory can be made, the parent is running, its handle can be
    had and the checkpoint works; and the storage backend takes the
    snapshot. *)
Definition steps_succeed (env : Snapshot.snapshot_env) (c fullName : string)
    (stateful : bool) (w : world) : bool :=
  succeeded (Snapshot.create_err env)
  && negb (str_in fullName (names_of (w_db w)))
  && (negb stateful
      || (succeeded (Snapshot.mkdir_err env) && IsRunning c w
          && succeeded (Snapshot.lxc_get_err env)
          && succeeded (Snapshot.checkpoint_err env)))
  && succeeded (Snapshot.storage_err env).

(** What [w'] logged beyond [w]. *)
Definition trace_of (w w' : world) : list event :=
  skipn (List.length (w_log w)) (w_log w').

Definition is_start (e : event) : bool :=
  match e with EvStart _ _ => true | _ => false end.

(** Goroutines in flight at the end of a log, and the most at once. *)
Definition inflight (log : list event) : nat * nat :=
  fold_left inflight_step log (O, O).

(** The file-system calls of the cascade for one snapshot. *)
Definition fs_events (VarPath : string -> string -> string) (backingFs : string)
    (r : string * Z) : list event :=
  let cdir := VarPath "snapshots" (fst r) in
  (if String.eqb backingFs "btrfs" then [EvBtrfsDeleteSubvol cdir] else [])
  ++ [EvRemoveAll cdir].

(** Rows whose id is not in [ids]. *)
Definition without_ids (ids : list Z) (t : table) : table :=
  List.filter (fun r => negb (existsb (Z.eqb (row_id r)) ids)) t.

Definition VarPath (dir name : string) : string :=
  "/var/lib/lxd/" +:+ dir +:+ "/" +:+ name.

(** Where a snapshot lives: the directory the cascade removes. *)
Definition PathGet (name : string) : string := VarPath "snapshots" name.

Definition StateDirGet (name : string) : string :=
  VarPath "snapshots" name +:+ "/state".

(** A stopped container [web] with no snapshot. *)
Definition web_stopped : world :=
  mkWorld [mkRow 1 "web" cTypeRegular 0] [] [] ["web"] [].

(** [web] with the snapshots [snap9] and [snap10]. *)
Definition db_snap9_snap10 : table :=
  [mkRow 1 "web" cTypeRegular 0;
   mkRow 2 "web/snap9" cTypeSnapshot 0;
   mkRow 3 "web/snap10" cTypeSnapshot 0].

(** [web] with [snap3] and a snapshot named [snapx]. *)
Definition db_snap3_snapx : table :=
  [mkRow 1 "web" cTypeRegular 0;
   mkRow 2 "web/snap3" cTypeSnapshot 0;
   mkRow 3 "web/snapx" cTypeSnapshot 0].

(** Two stopped containers flagged for restart; [db] fails to start. *)
Definition flagged_pair : world :=
  mkWorld [mkRow 1 "web" cTypeRegular 1; mkRow 2 "db" cTypeRegular 1] [] [] ["web"; "db"] [].

Definition db_start_fails : restart_env :=
  mkRestartEnv None None (fun _ => None)
    (fun n => if String.eqb n "db" then Some "start failed" else None).

(** A restart in which [db] cannot be loaded. *)
Definition db_load_fails : restart_env :=
  mkRestartEnv None None
    (fun n => if String.eqb n "db" then Some "cannot load" else None)
    (fun _ => None).

(** What [container.Start()] leaves in the log for [n]. *)
Definition start_event (env : restart_env) (n : string) : event :=
  EvStart n (succeeded (rs_start_err env n)).

(** The selected names the restart loop gets to load: those before the
    first one that does not load. *)
Fixpoint loaded_prefix (env : restart_env) (names : list string) : list string :=
  match names with
  | [] => []
  | n :: rest =>
      match rs_load_err env n with
      | Some _ => []
      | None => n :: loaded_prefix env rest
      end
  end.

(** The load error of the first selected name that does not load. *)
Fixpoint first_load_error (env : restart_env) (names : list string) : option error :=
  match names with
  | [] => None
  | n :: rest =>
      match rs_load_err env n with
      | Some err => Some err
      | None => first_load_error env rest
      end
  end.

(** Two running containers, and a shutdown in which every call succeeds. *)
Definition running_pair : world :=
  mkWorld [mkRow 1 "a" cTypeRegular 0; mkRow 2 "b" cTypeRegular 0] [] ["a"; "b"]
    ["a"; "b"] [].

Definition all_fine : shutdown_env :=
  mkShutdownEnv None (fun _ => None) (fun _ => None) (fun _ => true).

(** [web] with one snapshot on a btrfs backing file system. *)
Definition web_with_snap0 : world :=
  mkWorld [mkRow 1 "web" cTypeRegular 0; mkRow 2 "web/snap0" cTypeSnapshot 0]
    [VarPath "snapshots" "web/snap0"] [] ["web"; "web/snap0"] [].

Definition on_btrfs : cascade_env :=
  mkCascadeEnv None "btrfs" None (fun _ => true) (fun _ => true) (fun _ => None).

(** The same cascade on a plain directory backend where no removal works. *)
Definition removals_fail : cascade_env :=
  mkCascadeEnv None "dir" None (fun _ => false) (fun _ => false) (fun _ => None).


(** An unprivileged container whose map sends the ids from 100000 on to
    0, 1, ..., and resolves no other id. *)
Definition shift_100000 (uid gid : Z) : Z * Z :=
  ((if uid >=? 100000 then uid - 100000 else -1),
   (if gid >=? 100000 then gid - 100000 else -1)).

Definition web : lxdContainer :=
  mkContainer false shift_100000 false "/var/lib/lxd/containers/web".

Definition regular_file (size ino nlink owner : Z) : file :=
  mkFile (mkFileInfo 420 size) (inl "invalid argument")
    (inr (mkFileStat owner owner (-1) (-1) ino nlink)) None None None None.

Definition directory : file :=
  mkFile (mkFileInfo (Z.lor ModeDir 493) 4096) (inl "invalid argument")
    (inr (mkFileStat 100000 100000 (-1) (-1) 2 2)) None None None None.


Definition socket : file :=
  mkFile (mkFileInfo (Z.lor ModeSocket 493) 0) (inl "invalid argument")
    (inr (mkFileStat 100000 100000 (-1) (-1) 11 1)) None None None None.

(** A file whose [GetFileStat] fails. *)
Definition unreadable : file :=
  mkFile (mkFileInfo 420 5) (inl "invalid argument") (inl "permission denied")
    None None None None.

Definition in_web (rel : string) : string := Join (c_path web) rel.

(** [rootfs] holds a mapped file and one owned by an id outside the map. *)
Definition fs_owners : container_fs :=
  mkContainerFs None
    [(in_web "rootfs", directory);
     (in_web "rootfs/a", regular_file 5 7 1 100000);
     (in_web "rootfs/host", regular_file 5 8 1 5)]
    None None.

(** [rootfs/a] cannot be inspected; [rootfs/b] comes after it. *)
Definition fs_stat_fails : container_fs :=
  mkContainerFs None
    [(in_web "rootfs", directory);
     (in_web "rootfs/a", unreadable);
     (in_web "rootfs/b", regular_file 5 7 1 100000)]
    None None.

(** The same unreadable file as [metadata.yaml]. *)
Definition fs_metadata_fails : container_fs :=
  mkContainerFs (Some (inr unreadable)) [(in_web "rootfs", directory)] None None.

(** A socket in [templates], followed by a template file. *)
Definition fs_socket_in_templates : container_fs :=
  mkContainerFs None
    [(in_web "rootfs", directory)]
    (Some [(in_web "templates", directory);
           (in_web "templates/ctl", socket);
           (in_web "templates/hosts.tpl", regular_file 5 12 1 0)])
    None.


End Facts.

(** ** lxd/container_snapshot.go: the handlers that read *)

Module Listing.
Import Go Db Daemon Snapshot.

(** [strconv.Atoi(s)]: an optional sign, then digits to the end of the
    string; [None] for anything else, and for a value outside [int]. *)
Definition Atoi (s : string) : option Z :=
  let '(neg, s1) := accept_sign s in
  if String.eqb s1 "" then None
  else if all_digits s1 then
    let v := fst (scan_digits s1 0 O) in
    let num := if neg then - v else v in
    if (- 2 ^ 63 <=? num) && (num <? 2 ^ 63) then Some num else None
  else None.

(** What a synchronous response carries. *)
Inductive body :=
| BodyStrings (urls : list string)             (* []string *)
| BodyMaps (maps : list (string * bool))       (* []shared.Jmap{name, stateful} *)
| BodyMap (name : string) (stateful : bool).   (* shared.Jmap{name, stateful} *)

(** The responses of the handlers of this file. *)
Inductive reply :=
| Other (r : Response)               (* SmartError, BadRequest, AsyncResponse *)
| SyncResponse (success : bool) (b : body)
| NotFound.

Section Handlers.

Variable SnapshotDelimiter : string.
(** [shared.APIVersion], and [sc.StateDirGet()]. *)
Variable APIVersion : string.
Variable StateDirGet : string -> string.

(** [shared.PathExists(path)]. *)
Definition PathExists (path : string) (w : world) : bool := str_in path (w_dirs w).

Record list_env := mkListEnv {
  ls_load_err : string -> option error;   (* newLxdContainer, per name *)
  ls_query_err : option error             (* dbQueryScan *)
}.

(** [SELECT name FROM containers WHERE type=? AND SUBSTR(name,1,?)=?]. *)
Definition select_snapshot_names (t : table) (length : nat) (pat : string)
    : list string :=
  names_of (List.filter (where_type_prefix cTypeSnapshot length pat) t).

(** [fmt.Sprintf("/%s/containers/%s/snapshots/%s", shared.APIVersion, cname, name)]. *)
Definition snapshot_url (cname name : string) : string :=
  "/" +:+ APIVersion +:+ "/containers/" +:+ cname +:+ "/snapshots/" +:+ name.

(** The [for _, r := range results] loop of [containerSnapshotsGet]. *)
Fixpoint containerSnapshotsGet_loop (env : list_env) (w : world) (recursion : Z)
    (cname : string) (results : list string)
    (resultString : list string) (resultMap : list (string * bool))
    : list string * list (string * bool) :=
  match results with
  | [] => (resultString, resultMap)
  | name :: rest =>
      match newLxdContainer (ls_load_err env name) name w with
      | inl _ =>
          (* shared.Log.Error("Failed to load snapshot"); continue *)
          containerSnapshotsGet_loop env w recursion cname rest resultString resultMap
      | inr sc =>
          if recursion =? 0 then
            containerSnapshotsGet_loop env w recursion cname rest
              (resultString ++ [snapshot_url cname name]) resultMap
          else
            containerSnapshotsGet_loop env w recursion cname rest resultString
              (resultMap ++ [(name, PathExists (StateDirGet sc) w)])
      end
  end.

(** [containerSnapshotsGet]; [recursionStr] is [r.FormValue("recursion")]. *)
Definition containerSnapshotsGet (env : list_env) (w : world)
    (recursionStr cname : string) : reply :=
  let recursion :=
    match Atoi recursionStr with
    | Some n => n
    | None => 0
    end in
  match newLxdContainer (ls_load_err env cname) cname w with
  | inl err => Other (SmartError err)
  | inr _ =>
      let regexp := cname +:+ SnapshotDelimiter in
      let length := String.length regexp in
      match ls_query_err env with
      | Some err => Other (SmartError err)
      | None =>
          let results := select_snapshot_names (w_db w) length regexp in
          let '(resultString, resultMap) :=
            containerSnapshotsGet_loop env w recursion cname results [] [] in
          if recursion =? 0 then SyncResponse true (BodyStrings resultString)
          else SyncResponse true (BodyMaps resultMap)
      end
  end.

(** [snapshotGet]. *)
Definition snapshotGet (w : world) (sc name : string) : reply :=
  SyncResponse true (BodyMap name (PathExists (StateDirGet sc) w)).

(** [snapshotHandler]; [method] is [r.Method], [body] the decoded request
    body. *)
Definition snapshotHandler (lerr : option error) (w : world) (method : string)
    (containerName snapshotName : string) (body : option (gmap string jvalue))
    : reply :=
  match
    newLxdContainer lerr (containerName +:+ SnapshotDelimiter +:+ snapshotName) w
  with
  | inl err => Other (SmartError err)
  | inr sc =>
      if String.eqb method "GET" then snapshotGet w sc snapshotName
      else if String.eqb method "POST" then
        Other (snapshotPost SnapshotDelimiter body sc containerName)
      else if String.eqb method "DELETE" then Other (snapshotDelete sc)
      else NotFound
  end.

End Handlers.

End Listing.

(** ** The container file: the shared mount point *)

Module Mounts.
Import Go.

(** The part of the host the two functions act on: the directories, each
    with the owner it was created for, and the container's LXC
    configuration items. *)
Record host := mkHost {
  h_dirs : list (string * (Z * Z));
  h_config : list (string * string)
}.

Definition dir_exists (path : string) (h : host) : bool :=
  existsb (fun d => String.eqb path (fst d)) (h_dirs h).

(** [shared.MkdirAllOwner(path, perm, uid, gid)]. *)
Definition MkdirAllOwner (outcome : option error) (path : string) (uid gid : Z)
    (h : host) : option error * host :=
  match outcome with
  | Some err => (Some err, h)
  | None =>
      (None,
       if dir_exists path h then h
       else mkHost (h_dirs h ++ [(path, (uid, gid))]) (h_config h))
  end.

(** [c.c.SetConfigItem(key, value)]. *)
Definition SetConfigItem (outcome : option error) (key value : string) (h : host)
    : option error * host :=
  match outcome with
  | Some err => (Some err, h)
  | None => (None, mkHost (h_dirs h) (h_config h ++ [(key, value)]))
  end.

Record mount_env := mkMountEnv {
  mt_privileged : bool;                 (* c.IsPrivileged() *)
  mt_ShiftIntoNs : Z -> Z -> Z * Z;     (* c.idmapset.ShiftIntoNs *)
  mt_mkdir_err : option error;          (* shared.MkdirAllOwner *)
  mt_config_err : option error          (* c.c.SetConfigItem *)
}.

(** The owner [mkdirAllContainerRoot] asks for. *)
Definition container_root (env : mount_env) : Z * Z :=
  let '(uid, gid) :=
    if negb (mt_privileged env) then
      let '(uid, gid) := mt_ShiftIntoNs env 0 0 in
      ((if uid =? -1 then 0 else uid), (if gid =? -1 then 0 else gid))
    else (0, 0) in
  (uid, gid).

(** [mkdirAllContainerRoot]. *)
Definition mkdirAllContainerRoot (env : mount_env) (path : string) (h : host)
    : option error * host :=
  let '(uid, gid) := container_root env in
  MkdirAllOwner (mt_mkdir_err env) path uid gid h.

(** [mountShared]; [source] is [shared.VarPath("shmounts", c.NameGet())]. *)
Definition mountShared (env : mount_env) (source : string) (h : host)
    : option error * host :=
  let entry := source +:+ " .lxdmounts none bind,create=dir 0 0" in
  match
    (if negb (dir_exists source h) then mkdirAllContainerRoot env source h
     else (None, h))
  with
  | (Some err, h1) => (Some err, h1)
  | (None, h1) => SetConfigItem (mt_config_err env) "lxc.mount.entry" entry h1
  end.

End Mounts.

(** ** More vocabulary and concrete worlds *)

Module Samples.
Import Go Db Daemon Containers Archive Facts.

(** [web] running, with no snapshot. *)
Definition web_running : world :=
  mkWorld [mkRow 1 "web" cTypeRegular 0] [] ["web"] ["web"] [].

(** A request body with [stateful] only, and one that names the snapshot. *)
Definition body_stateless : gmap string jvalue := {["stateful" := JBool false]}.

Definition body_named : gmap string jvalue :=
  <["name" := JString "before-upgrade"]> {["stateful" := JBool true]}.

Definition no_failure : Snapshot.snapshot_env :=
  Snapshot.mkSnapshotEnv None None None None None None.

(** [web] with a stateful snapshot, a second snapshot that does not load,
    and a neighbour [web2] with a snapshot of its own. *)
Definition web_and_neighbour : world :=
  mkWorld
    [mkRow 1 "web" cTypeRegular 0;
     mkRow 2 "web/snap0" cTypeSnapshot 0;
     mkRow 3 "web/snap1" cTypeSnapshot 0;
     mkRow 4 "web2" cTypeRegular 0;
     mkRow 5 "web2/snap0" cTypeSnapshot 0]
    [StateDirGet "web/snap0"] [] [] [].

Definition snap1_broken : Listing.list_env :=
  Listing.mkListEnv
    (fun n => if String.eqb n "web/snap1" then Some "cannot load" else None) None.

(** One pass of the loop body for a running container [r]: its flag is
    written, and it has been asked to stop when the wait returns. *)
Definition shut_one (env : shutdown_env) (r : string) (w : world) : world :=
  wg_Wait env [r]
    (emit (emit (emit (set_db w (set_power_state r (w_db w))) (EvSetPowerState r))
             EvWgAdd) (EvGo r)).

(** Every hardlink entry of an archive has size 0 and points to the name
    of a regular entry that stands before it. *)
Definition links_resolved (hdrs : list Header) : Prop :=
  forall i h, hdrs !! i = Some h -> Typeflag_of h = TypeLink ->
    Size h = 0
    /\ exists j h0, (j < i)%nat /\ hdrs !! j = Some h0
                   /\ Typeflag_of h0 = TypeReg /\ Name h0 = Linkname h.

(** A writer that accepts no further header. *)
Definition writer_dead (tw : Writer) : Prop :=
  tw_err tw <> None \/ tw_closed tw = true.

(** Every path in the link map is the name of a regular entry of the
    archive, unless the writer is dead. *)
Definition index_archived (lm : gmap Z string) (tw : Writer) : Prop :=
  writer_dead tw
  \/ forall ino n, lm !! ino = Some n ->
       exists j h0, tw_hdrs tw !! j = Some h0
                    /\ Typeflag_of h0 = TypeReg /\ Name h0 = n.

(** The name an entry gets in the archive. *)
Definition archived_name (offset : nat) (item : string * file) : string :=
  slice_from offset (fst item).

(** The paths [ExportToTar] visits, in its order: [metadata.yaml] when it
    is there and can be inspected, the [rootfs] walk, the [templates] walk. *)
Definition visited (c : lxdContainer) (fs : container_fs) : list (string * file) :=
  match fs_metadata fs with
  | Some (inr f) => [(Join (c_path c) "metadata.yaml", f)]
  | _ => []
  end
  ++ fs_rootfs fs
  ++ match fs_templates fs with
     | Some items => items
     | None => []
     end.

(** A path that is not there: Walk's Lstat fails and the callback gets a
    nil FileInfo. *)
Definition missing : file :=
  mkFile (mkFileInfo 0 0) (inl "no such file or directory")
    (inl "no such file or directory") None None None
    (Some "no such file or directory").

(** A container directory without [rootfs]. *)
Definition fs_no_rootfs : container_fs :=
  mkContainerFs None [(in_web "rootfs", missing)] None None.

(** A parent whose name holds a two-byte character (an e with an acute
    accent between [w] and [b]), with two snapshots. *)
Definition accented : string :=
  String "w" (String (ascii_of_nat 195) (String (ascii_of_nat 169) "b")).

Definition db_accented : table :=
  [mkRow 1 accented cTypeRegular 0;
   mkRow 2 (accented +:+ "/snap0") cTypeSnapshot 0;
   mkRow 3 (accented +:+ "/snap1") cTypeSnapshot 0].

(** A Snapshot record whose name starts with the bytes of [pat]. *)
Definition snapshot_under (pat : string) (r : row) : bool :=
  containerType_eqb (row_type r) cTypeSnapshot && String.prefix pat (row_name r).

(** Does the snapshot [n] load, in a listing. *)
Definition loads (env : Listing.list_env) (n : string) : bool :=
  match Listing.ls_load_err env n with
  | None => true
  | Some _ => false
  end.

End Samples.

(** * Properties *)

Import Go Db Daemon Facts.

(** ** The snapshot namer *)

Section NamerFacts.
Import Snapshot.

(** The query hands the loop at most one row, whatever the table holds. *)
Lemma dbQueryScan_max_name_one_row outcome db t n pat results :
  dbQueryScan_max_name outcome db t n pat = inr results ->
  List.length results = 1%nat.
Proof.
  unfold dbQueryScan_max_name.
  destruct outcome as [err|]; [discriminate|].
  destruct (sql_max _) as [m|]; [|discriminate].
  intros H. injection H as <-. reflexivity.
Qed.

(** Over a single row the loop returns one more than the number read from
    that row, or 0 when none can be read. *)
Lemma nextSnapshot_loop_single n numstr :
  nextSnapshot_loop n [numstr] 0 =
    if (String.length numstr <=? n)%nat then 0
    else match Sscanf_d (slice_from n numstr) with
         | Some num => if num >=? 0 then wrap_int (num + 1) else 0
         | None => 0
         end.
Proof.
  simpl. destruct (String.length numstr <=? n)%nat; [reflexivity|].
  destruct (Sscanf_d _) as [num|]; [|reflexivity].
  destruct (num >=? 0); reflexivity.
Qed.

(** A persistence failure yields the fallback 0. *)
Lemma nextSnapshot_query_failure delim err db name :
  nextSnapshot delim (Some err) db name = 0.
Proof. reflexivity. Qed.

(** With no record at all the namer returns 0. *)
Lemma nextSnapshot_empty_table delim outcome name :
  nextSnapshot delim outcome [] name = 0.
Proof. destruct outcome; reflexivity. Qed.

(** C1, evaluated on the code: with the snapshots [web/snap9] and
    [web/snap10] on record, [MAX(name)] is ["web/snap9"] (byte order), so
    [nextSnapshot] returns 10, the suffix of a snapshot that exists, where
    the greatest suffix plus one is 11; and with [web/snap3] beside a
    snapshot named [web/snapx] it returns 0 where the claim has 4. *)
Theorem nextSnapshot_reads_greatest_name_only :
  nextSnapshot "/" None db_snap9_snap10 "web" = 10
  /\ spec_nextSnapshot "/" db_snap9_snap10 "web" = 11
  /\ In ("web/snap" +:+ itoa 10) (names_of db_snap9_snap10)
  /\ nextSnapshot "/" None db_snap3_snapx "web" = 0
  /\ spec_nextSnapshot "/" db_snap3_snapx "web" = 4.
Proof.
  repeat split; try reflexivity.
  vm_compute. right. right. left. reflexivity.
Qed.

End NamerFacts.

(** ** Snapshot creation *)

Section CreationFacts.
Import Snapshot.

Lemma row_eqb_refl r : row_eqb r r = true.
Proof.
  unfold row_eqb. rewrite !Z.eqb_refl, String.eqb_refl.
  destruct (row_type r); reflexivity.
Qed.

Lemma row_eqb_name a b : row_eqb a b = true -> row_name a = row_name b.
Proof.
  unfold row_eqb. intros H.
  apply andb_prop in H as [H _]. apply andb_prop in H as [H _].
  apply andb_prop in H as [_ H]. now apply String.eqb_eq.
Qed.

Lemma new_rows_same t : new_rows t t = [].
Proof.
  unfold new_rows.
  assert (G : forall l, (forall r, In r l -> In r t) ->
    List.filter (fun r => negb (existsb (row_eqb r) t)) l = []).
  { induction l as [|r l IH]; intros Hin; [reflexivity|]. simpl.
    assert (E : existsb (row_eqb r) t = true).
    { apply existsb_exists. exists r. split; [apply Hin; now left|apply row_eqb_refl]. }
    rewrite E. simpl. apply IH. intros r' Hr'. apply Hin. now right. }
  apply G. auto.
Qed.

Lemma str_in_false_not_named name t r :
  str_in name (names_of t) = false -> In r t -> String.eqb name (row_name r) = false.
Proof.
  intros H Hin. destruct (String.eqb name (row_name r)) eqn:E; [|reflexivity].
  assert (X : str_in name (names_of t) = true).
  { apply existsb_exists. exists (row_name r). split; [|exact E].
    unfold names_of. now apply in_map. }
  congruence.
Qed.

Lemma filter_fresh_name name t :
  str_in name (names_of t) = false ->
  List.filter (fun r => negb (String.eqb name (row_name r))) t = t.
Proof.
  intros H.
  assert (G : forall l, (forall r, In r l -> In r t) ->
    List.filter (fun r => negb (String.eqb name (row_name r))) l = l).
  { induction l as [|r l IH]; intros Hin; [reflexivity|]. simpl.
    rewrite (str_in_false_not_named name t r H) by (apply Hin; now left).
    simpl. f_equal. apply IH. intros r' Hr'. apply Hin. now right. }
  apply G. auto.
Qed.

Lemma new_rows_insert name t r :
  str_in name (names_of t) = false -> row_name r = name ->
  new_rows t (t ++ [r]) = [r].
Proof.
  intros H Hn. unfold new_rows. rewrite List.filter_app.
  fold (new_rows t t). rewrite new_rows_same. simpl.
  destruct (existsb (row_eqb r) t) eqn:E; [|reflexivity].
  apply existsb_exists in E as (r' & Hin & Heq).
  apply row_eqb_name in Heq.
  pose proof (str_in_false_not_named name t r' H Hin) as G.
  rewrite <- Heq, Hn, String.eqb_refl in G. discriminate.
Qed.

(** When the rollback delete succeeds it restores the table of a world
    whose only change to the table was the insert of [name]. *)
Lemma rollback_restores_table PathGet env name t w :
  delete_err env = None ->
  str_in name (names_of t) = false ->
  w_db w = t ++ [mkRow (fresh_id t) name cTypeSnapshot 0] ->
  w_db (rollback PathGet env name w) = t.
Proof.
  intros Hd Hfresh Hw. unfold rollback, Delete. rewrite Hd. simpl.
  rewrite Hw, List.filter_app, (filter_fresh_name name t Hfresh). simpl.
  rewrite String.eqb_refl. simpl. apply app_nil_r.
Qed.

(** The stateful block either passes, leaving the table alone, or fails
    having called the rollback on a world with the same table. *)
Lemma snapshot_stateful_cases StateDirGet PathGet env c sc w :
  let r := snapshot_stateful StateDirGet PathGet env c sc w in
  (fst r = None /\ w_db (snd r) = w_db w /\ IsRunning c w = true)
  \/ (exists err w1, r = (Some err, rollback PathGet env sc w1) /\ w_db w1 = w_db w).
Proof.
  unfold snapshot_stateful, MkdirAll.
  destruct (mkdir_err env) as [e|]; simpl.
  { right. exists e, w. auto. }
  change (IsRunning c (set_dirs w _)) with (IsRunning c w).
  destruct (IsRunning c w) eqn:Hrun; simpl.
  2:{ right. eexists _, _. split; [reflexivity|reflexivity]. }
  destruct (lxc_get_err env) as [e|].
  { right. eexists _, _. split; [reflexivity|reflexivity]. }
  unfold Checkpoint. destruct (checkpoint_err env) as [e|]; simpl.
  { right. eexists _, _. split; [reflexivity|reflexivity]. }
  left. auto.
Qed.

(** C2, as the code has it: provided the rollback [sc.Delete()] succeeds
    (the closure drops its result), the new record is visible afterwards
    exactly when every step of the work unit went through, which is exactly
    when the work unit returns [nil]; a failed run leaves the table as it
    was; and a stateful request on a parent that is not running always
    fails, with "Container not running" once the record and the state
    directory were created. *)
Theorem snapshot_record_visible_iff StateDirGet PathGet env c fullName stateful w :
  delete_err env = None ->
  let r := snapshot StateDirGet PathGet env c fullName stateful w in
  (steps_succeed env c fullName stateful w = true <->
     new_rows (w_db w) (w_db (snd r))
       = [mkRow (fresh_id (w_db w)) fullName cTypeSnapshot 0])
  /\ (steps_succeed env c fullName stateful w = true <-> fst r = None)
  /\ (fst r = None <->
     new_rows (w_db w) (w_db (snd r))
       = [mkRow (fresh_id (w_db w)) fullName cTypeSnapshot 0])
  /\ (fst r <> None -> w_db (snd r) = w_db w /\ new_rows (w_db w) (w_db (snd r)) = [])
  /\ (stateful = true -> IsRunning c w = false ->
        fst r <> None
        /\ (create_err env = None -> str_in fullName (names_of (w_db w)) = false ->
            mkdir_err env = None ->
            fst r = Some ("Container not running" +:+ nl))).
Proof.
  intros Hd r.
  assert (Steps : steps_succeed env c fullName stateful w = true <-> fst r = None).
  { subst r. unfold steps_succeed, succeeded, snapshot, createcontainerLXD.
    destruct (create_err env) as [e|]; simpl; [split; discriminate|].
    destruct (str_in fullName (names_of (w_db w))); simpl; [split; discriminate|].
    assert (Storage : forall w2,
      succeeded (storage_err env) = true <->
      fst (match ContainerSnapshotCreate (storage_err env) fullName (PathGet fullName) w2 with
           | (Some err, w3) => (Some err, rollback PathGet env fullName w3)
           | (None, w3) => (None, w3)
           end) = None).
    { intros w2. unfold ContainerSnapshotCreate, succeeded.
      destruct (storage_err env); simpl; split; auto; discriminate. }
    unfold succeeded in Storage.
    destruct stateful; simpl; [|apply Storage].
    unfold snapshot_stateful, MkdirAll.
    destruct (mkdir_err env) as [e|]; simpl; [split; discriminate|].
    change (IsRunning c (set_dirs (set_db w _) _)) with (IsRunning c w).
    destruct (IsRunning c w); simpl; [|split; discriminate].
    destruct (lxc_get_err env) as [e|]; simpl; [split; discriminate|].
    unfold Checkpoint. destruct (checkpoint_err env) as [e|]; simpl;
      [split; discriminate|].
    apply Storage. }
  assert (Main :
    (fst r = None /\ w_db (snd r) = w_db w ++ [mkRow (fresh_id (w_db w)) fullName cTypeSnapshot 0]
     /\ str_in fullName (names_of (w_db w)) = false
     /\ (stateful = true -> IsRunning c w = true))
    \/ (fst r <> None /\ w_db (snd r) = w_db w)).
  { subst r. unfold snapshot, createcontainerLXD.
    destruct (create_err env) as [e|]; simpl; [right; split; [discriminate|reflexivity]|].
    destruct (str_in fullName (names_of (w_db w))) eqn:Hfresh; simpl;
      [right; split; [discriminate|reflexivity]|].
    set (w1 := set_db w _).
    assert (Hw1 : w_db w1 = w_db w ++ [mkRow (fresh_id (w_db w)) fullName cTypeSnapshot 0])
      by reflexivity.
    assert (Storage : forall w2, w_db w2 = w_db w1 ->
      let r2 := match ContainerSnapshotCreate (storage_err env) fullName (PathGet fullName) w2 with
                | (Some err, w3) => (Some err, rollback PathGet env fullName w3)
                | (None, w3) => (None, w3)
                end in
      (fst r2 = None /\ w_db (snd r2) = w_db w1)
      \/ (fst r2 <> None /\ w_db (snd r2) = w_db w)).
    { intros w2 Hw2. unfold ContainerSnapshotCreate.
      destruct (storage_err env) as [e|]; simpl.
      - right. split; [discriminate|].
        apply rollback_restores_table; auto; congruence.
      - left. auto. }
    destruct stateful.
    - pose proof (snapshot_stateful_cases StateDirGet PathGet env c fullName w1) as Hs.
      simpl in Hs. destruct Hs as [(Hn & Hdb & Hrun)|(err & w1' & Heq & Hdb)].
      + destruct (snapshot_stateful StateDirGet PathGet env c fullName w1) as [[e|] w2];
          simpl in *; [discriminate|].
        destruct (Storage w2 Hdb) as [(A & B)|(A & B)].
        * left. repeat split; auto; try congruence.
        * right. auto.
      + rewrite Heq. right. split; [discriminate|]. simpl.
        apply rollback_restores_table; auto; congruence.
    - destruct (Storage w1 eq_refl) as [(A & B)|(A & B)].
      + left. repeat split; auto; try congruence; try discriminate.
      + right. auto. }
  assert (Visible : fst r = None <->
     new_rows (w_db w) (w_db (snd r))
       = [mkRow (fresh_id (w_db w)) fullName cTypeSnapshot 0]).
  { destruct Main as [(A & B & C & _)|(A & B)].
    + rewrite B. split; [intros _; now apply (new_rows_insert fullName)|auto].
    + rewrite B, new_rows_same. split; [contradiction|discriminate]. }
  split; [|split; [|split; [|split]]].
  - rewrite Steps. exact Visible.
  - exact Steps.
  - exact Visible.
  - intros Hne. destruct Main as [(A & _)|(A & B)]; [contradiction|].
    rewrite B. split; [reflexivity|apply new_rows_same].
  - intros -> Hstopped. split.
    + destruct Main as [(_ & _ & _ & Hrun)|(A & _)]; [|exact A].
      rewrite Hrun in Hstopped by reflexivity. discriminate.
    + intros Hc Hfresh Hm. subst r.
      unfold snapshot, createcontainerLXD. rewrite Hc, Hfresh. simpl.
      unfold snapshot_stateful, MkdirAll. rewrite Hm. simpl.
      change (IsRunning c (set_dirs (set_db w _) _)) with (IsRunning c w).
      rewrite Hstopped. reflexivity.
Qed.

(** The scenario of the specification, and a run in which every step goes
    through: a stateful snapshot of the stopped [web] fails with "Container
    not running" and leaves no new record, the same request on the running
    [web] returns [nil] and leaves the record [web/snap0]. *)
Lemma snapshot_record_visible_iff_witness :
  let env := mkSnapshotEnv None None None None None None in
  let failed := snapshot StateDirGet PathGet env "web" "web/snap0" true web_stopped in
  let done :=
    snapshot StateDirGet PathGet env "web" "web/snap0" true Samples.web_running in
  (fst failed = Some ("Container not running" +:+ nl)
   /\ new_rows (w_db web_stopped) (w_db (snd failed)) = [])
  /\ (fst done = None
      /\ new_rows (w_db Samples.web_running) (w_db (snd done))
         = [mkRow 2 "web/snap0" cTypeSnapshot 0]).
Proof.
  intros env failed done. split.
  - pose proof (snapshot_record_visible_iff StateDirGet PathGet env "web" "web/snap0" true
                  web_stopped eq_refl) as (_ & _ & _ & Hfail & Hstop).
    destruct (Hstop eq_refl eq_refl) as (Hne & Hmsg).
    split.
    + apply Hmsg; reflexivity.
    + apply Hfail. exact Hne.
  - pose proof (snapshot_record_visible_iff StateDirGet PathGet env "web" "web/snap0" true
                  Samples.web_running eq_refl) as (Hvis & Hnil & _).
    split.
    + apply Hnil. reflexivity.
    + apply Hvis. reflexivity.
Defined.

(** C2 as stated fails when the rollback itself fails: the storage
    snapshot fails, [sc.Delete()] fails too and its error is dropped, so the
    work unit reports the storage error while the new record stays. *)
Lemma snapshot_failed_rollback_keeps_record :
  let env := mkSnapshotEnv None None None None (Some "storage") (Some "delete") in
  let r := snapshot StateDirGet PathGet env "web" "web/snap0" false web_stopped in
  fst r = Some "storage"
  /\ new_rows (w_db web_stopped) (w_db (snd r)) = [mkRow 2 "web/snap0" cTypeSnapshot 0].
Proof. split; reflexivity. Qed.

End CreationFacts.

(** ** Snapshot rename *)

Section RenameFacts.
Import Snapshot.

(** A body that does not decode, or whose [name] is missing or is not a
    string, is a bad request: no rename is started. *)
Lemma snapshotPost_bad_request delim body sc cname :
  body = None \/ (exists raw, body = Some raw /\ forall s, raw !! "name" <> Some (JString s)) ->
  exists err, snapshotPost delim body sc cname = BadRequest err.
Proof.
  intros [->|(raw & -> & Hraw)]; [eexists; reflexivity|].
  unfold snapshotPost, GetString.
  destruct (raw !! "name") as [[s| | |]|] eqn:E; try (eexists; reflexivity).
  exfalso. exact (Hraw s eq_refl).
Qed.

(** C10: whatever string the request carries under [name], the rename
    operation is started on [<containerName><delimiter><name>]; the leaf is
    not inspected, so the empty leaf and a leaf holding the delimiter go
    through as they are. *)
Theorem snapshotPost_composes_name_unchecked delim (raw : gmap string jvalue)
    sc cname newName :
  snapshotPost delim (Some (<["name" := JString newName]> raw)) sc cname
    = AsyncResponse (OpRename sc (cname +:+ delim +:+ newName))
  /\ snapshotPost delim (Some (<["name" := JString ""]> raw)) sc cname
    = AsyncResponse (OpRename sc (cname +:+ delim +:+ ""))
  /\ snapshotPost delim (Some (<["name" := JString (newName +:+ delim +:+ newName)]> raw))
       sc cname
    = AsyncResponse (OpRename sc (cname +:+ delim +:+ (newName +:+ delim +:+ newName))).
Proof.
  unfold snapshotPost, GetString.
  rewrite !lookup_insert_eq. auto.
Qed.

End RenameFacts.

(** ** Restart on boot *)

Section RestartFacts.
Import Containers.

Lemma names_of_clear_power_states t :
  names_of (clear_power_states t) = names_of t.
Proof.
  unfold names_of, clear_power_states. rewrite List.map_map. reflexivity.
Qed.

Lemma str_in_app_l s l k : str_in s l = true -> str_in s (l ++ k) = true.
Proof.
  unfold str_in. rewrite existsb_app. intros ->. reflexivity.
Qed.

Lemma Start_running_mono outcome name w n :
  str_in n (w_running w) = true ->
  str_in n (w_running (Start outcome name w)) = true.
Proof.
  unfold Start. destruct outcome; simpl; [auto|].
  destruct (str_in name (w_running w)); [auto|apply str_in_app_l].
Qed.

Lemma Start_started name w :
  str_in name (w_running (Start None name w)) = true.
Proof.
  unfold Start. simpl. destruct (str_in name (w_running w)) eqn:E; [exact E|].
  unfold str_in. rewrite existsb_app. simpl. rewrite String.eqb_refl.
  now rewrite orb_true_r.
Qed.

(** The start loop: what it logs are start events, every container it
    started (and every one that ran before) runs at the end, the table is
    not touched, and its error is the load error of a selected name. *)
Lemma containersRestart_loop_spec env result :
  forall w, (forall n, In n result -> str_in n (names_of (w_db w)) = true) ->
  let r := containersRestart_loop env result w in
  w_db (snd r) = w_db w
  /\ (exists starts,
        w_log (snd r) = w_log w ++ starts
        /\ forallb is_start starts = true
        /\ forall n, In (EvStart n true) starts -> str_in n (w_running (snd r)) = true)
  /\ (forall n, str_in n (w_running w) = true -> str_in n (w_running (snd r)) = true)
  /\ (forall e, fst r = Some e -> exists n, In n result /\ rs_load_err env n = Some e)
  /\ ((forall n, In n result -> rs_load_err env n = None) -> fst r = None).
Proof.
  induction result as [|n rest IH]; intros w Hnames; simpl.
  - repeat split; auto; try discriminate.
    exists []. rewrite app_nil_r. repeat split; auto; intros ? [].
  - unfold newLxdContainer.
    destruct (rs_load_err env n) as [e|] eqn:Hload; simpl.
    + repeat split; auto.
      * exists []. rewrite app_nil_r. repeat split; auto; intros ? [].
      * intros e' [= <-]. exists n. auto.
      * intros Hall. rewrite (Hall n) in Hload by now left. discriminate.
    + rewrite (Hnames n) by now left.
      set (w1 := Start (rs_start_err env n) n w).
      assert (Hdb1 : w_db w1 = w_db w)
        by (unfold w1, Start; destruct (rs_start_err env n); reflexivity).
      assert (Hlog1 : exists ok, w_log w1 = w_log w ++ [EvStart n ok]
                /\ (ok = true -> str_in n (w_running w1) = true)).
      { unfold w1. destruct (rs_start_err env n) as [se|].
        - exists false. split; [reflexivity|discriminate].
        - exists true. split; [reflexivity|]. intros _. apply Start_started. }
      destruct Hlog1 as (ok & Hlog1 & Hok1).
      destruct (IH w1) as (Hdb & (starts & Hlog & Hall & Hrun) & Hmono & Herr & Hok).
      { intros m Hm. rewrite Hdb1. apply Hnames. now right. }
      split; [congruence|]. split; [|split; [|split]].
      * exists (EvStart n ok :: starts).
        split; [|split].
        -- rewrite Hlog, Hlog1. now rewrite <- app_assoc.
        -- exact Hall.
        -- intros m [Hm|Hm]; [|now apply Hrun].
           injection Hm as <- ->. apply Hmono. now apply Hok1.
      * intros m Hm. apply Hmono. now apply Start_running_mono.
      * intros e He. destruct (Herr e He) as (m & Hm & Hl). exists m. auto.
      * intros Hall'. apply Hok. intros m Hm. apply Hall'. now right.
Qed.

(** When the query or the update fails nothing is started and the error
    is returned. *)
Lemma containersRestart_early_failure env w err :
  rs_query_err env = Some err
  \/ (rs_query_err env = None /\ rs_update_err env = Some err) ->
  containersRestart env w = (Some err, w).
Proof.
  unfold containersRestart. intros [->|(-> & ->)]; reflexivity.
Qed.

(** The start loop, exactly: it returns the load error of the first
    selected name that does not load, it has called [Start] on the names
    before that one, in order, and on no other, and those whose start
    worked are running at the end. *)
Lemma containersRestart_loop_exact env result :
  forall w, (forall n, In n result -> str_in n (names_of (w_db w)) = true) ->
  let r := containersRestart_loop env result w in
  fst r = first_load_error env result
  /\ w_log (snd r) = w_log w ++ List.map (start_event env) (loaded_prefix env result)
  /\ (forall n, In n (loaded_prefix env result) -> rs_start_err env n = None ->
        str_in n (w_running (snd r)) = true).
Proof.
  induction result as [|n rest IH]; intros w Hnames; simpl.
  - rewrite app_nil_r. split; [reflexivity|]. split; [reflexivity|]. intros ? [].
  - unfold newLxdContainer.
    destruct (rs_load_err env n) as [e|] eqn:Hload; simpl.
    + rewrite app_nil_r. split; [reflexivity|]. split; [reflexivity|]. intros ? [].
    + rewrite (Hnames n) by now left.
      set (w1 := Start (rs_start_err env n) n w).
      assert (Hdb1 : w_db w1 = w_db w)
        by (unfold w1, Start; destruct (rs_start_err env n); reflexivity).
      assert (Hnames1 : forall m, In m rest -> str_in m (names_of (w_db w1)) = true).
      { intros m Hm. rewrite Hdb1. apply Hnames. now right. }
      assert (Hlog1 : w_log w1 = w_log w ++ [start_event env n]).
      { unfold w1, Start, start_event, succeeded.
        destruct (rs_start_err env n); reflexivity. }
      destruct (IH w1 Hnames1) as (Hres & Hlog & Hrun).
      destruct (containersRestart_loop_spec env rest w1 Hnames1)
        as (_ & _ & Hmono & _).
      split; [exact Hres|]. split.
      * rewrite Hlog, Hlog1. now rewrite <- app_assoc.
      * intros m [<-|Hm] Hok; [|now apply Hrun].
        apply Hmono. unfold w1. rewrite Hok. apply Start_started.
Qed.

Lemma first_load_error_found env names n :
  In n names -> rs_load_err env n <> None -> first_load_error env names <> None.
Proof.
  induction names as [|m rest IH]; intros Hin Hn; [destruct Hin|]. simpl.
  destruct (rs_load_err env m) as [e|] eqn:Hm; [discriminate|].
  destruct Hin as [->|Hin]; [contradiction|]. now apply IH.
Qed.

(** C6, as the code has it: once the query and the update succeeded, the
    flags are cleared (every row has [power_state] 0) and that update
    precedes every start; the containers selected by the query are loaded
    and started in the order of the query, up to the first one that cannot
    be loaded, whose error is returned; so the result is an error exactly
    when a selected container cannot be loaded, and it is [nil] when all of
    them load, whatever [Start] returned; the containers started, and
    those that ran before, are running when the call returns. *)
Theorem containersRestart_clears_then_starts env w :
  rs_query_err env = None ->
  rs_update_err env = None ->
  let r := containersRestart env w in
  let selected := select_power_on (w_db w) in
  w_db (snd r) = clear_power_states (w_db w)
  /\ (exists starts,
        w_log (snd r) = w_log w ++ EvClearPowerStates :: starts
        /\ forallb is_start starts = true
        /\ forall n, In (EvStart n true) starts -> str_in n (w_running (snd r)) = true)
  /\ (forall n, str_in n (w_running w) = true -> str_in n (w_running (snd r)) = true)
  /\ (forall e, fst r = Some e ->
        exists n, In n (select_power_on (w_db w)) /\ rs_load_err env n = Some e)
  /\ ((forall n, In n (select_power_on (w_db w)) -> rs_load_err env n = None) ->
        fst r = None)
  /\ fst r = first_load_error env selected
  /\ (forall n, In n selected -> rs_load_err env n <> None -> fst r <> None)
  /\ w_log (snd r)
     = w_log w ++ EvClearPowerStates
         :: List.map (start_event env) (loaded_prefix env selected)
  /\ (forall n, In n (loaded_prefix env selected) -> rs_start_err env n = None ->
        str_in n (w_running (snd r)) = true).
Proof.
  intros Hq Hu r selected. subst r selected. unfold containersRestart. rewrite Hq, Hu.
  set (w1 := emit (set_db w (clear_power_states (w_db w))) EvClearPowerStates).
  assert (Hnames : forall n, In n (select_power_on (w_db w)) ->
            str_in n (names_of (w_db w1)) = true).
  { intros n Hn. simpl. rewrite names_of_clear_power_states.
    unfold select_power_on, names_of in Hn. apply in_map_iff in Hn as (r & <- & Hr).
    apply filter_In in Hr as [Hr _].
    apply existsb_exists. exists (row_name r). split; [|apply String.eqb_refl].
    unfold names_of. now apply in_map. }
  destruct (containersRestart_loop_spec env (select_power_on (w_db w)) w1 Hnames)
    as (Hdb & (starts & Hlog & Hall & Hrun) & Hmono & Herr & Hok).
  destruct (containersRestart_loop_exact env (select_power_on (w_db w)) w1 Hnames)
    as (Hres & Hlogx & Hrunx).
  split; [exact Hdb|]. split.
  { exists starts. split; [|split]; auto.
    rewrite Hlog. simpl. now rewrite <- app_assoc. }
  split; [exact Hmono|]. split; [exact Herr|]. split; [exact Hok|].
  split; [exact Hres|]. split.
  { intros n Hn Hload. rewrite Hres. now apply (first_load_error_found env _ n). }
  split; [|exact Hrunx].
  rewrite Hlogx. simpl. now rewrite <- app_assoc.
Qed.

End RestartFacts.

Section RestartExamples.
Import Containers.

(** [db], the second container selected, cannot be loaded: [web] has been
    started, [db] has not been tried, and the load error is returned.  And
    when both load the call returns [nil]. *)
Lemma containersRestart_clears_then_starts_witness :
  let r := containersRestart db_load_fails flagged_pair in
  (w_db (snd r) = clear_power_states (w_db flagged_pair)
   /\ fst r = Some "cannot load"
   /\ w_log (snd r) = [EvClearPowerStates; EvStart "web" true]
   /\ str_in "web" (w_running (snd r)) = true)
  /\ fst (containersRestart db_start_fails flagged_pair) = None.
Proof.
  intros r. split.
  - pose proof (containersRestart_clears_then_starts db_load_fails flagged_pair
                  eq_refl eq_refl) as (Hdb & _ & _ & _ & _ & Hres & _ & Hlog & Hrun).
    split; [exact Hdb|]. split; [exact Hres|]. split; [exact Hlog|].
    apply Hrun; [simpl; now left|reflexivity].
  - pose proof (containersRestart_clears_then_starts db_start_fails flagged_pair
                  eq_refl eq_refl) as (_ & _ & _ & _ & Hok & _).
    apply Hok. reflexivity.
Defined.

(** C6 as stated fails on a start failure: [db] does not start, the call
    still returns [nil], and [web], started before, stays running. *)
Lemma containersRestart_drops_start_failure :
  let r := containersRestart db_start_fails flagged_pair in
  fst r = None
  /\ w_log (snd r) = [EvClearPowerStates; EvStart "web" true; EvStart "db" false]
  /\ w_running (snd r) = ["web"].
Proof. repeat split; reflexivity. Qed.

End RestartExamples.

(** ** Bulk shutdown *)

Section ShutdownFacts.
Import Containers.

Lemma inflight_emit w e :
  inflight (w_log (emit w e)) = inflight_step (inflight (w_log w)) e.
Proof. unfold inflight. simpl. apply fold_left_app. Qed.

Lemma shutdown_task_inflight env name w n m :
  inflight (w_log w) = (S n, m) ->
  inflight (w_log (shutdown_task env name w)) = (n, m).
Proof.
  intros H. unfold shutdown_task. rewrite inflight_emit.
  assert (E : inflight (w_log (emit (emit w (EvShutdown name)) (EvStop name))) = (S n, m))
    by (rewrite !inflight_emit, H; reflexivity).
  destruct (sd_stop_ok env name); simpl; (etransitivity; [|exact (f_equal (fun st => inflight_step st EvWgDone) E)]); reflexivity.
Qed.

Lemma run_pending_inflight env pending :
  forall w m, inflight (w_log w) = (List.length pending, m) ->
  inflight (w_log (fold_left (fun w' n => shutdown_task env n w') pending w)) = (O, m).
Proof.
  induction pending as [|p rest IH]; intros w m H; simpl; [exact H|].
  apply IH. now apply shutdown_task_inflight.
Qed.

Lemma wg_Wait_inflight env pending w m :
  inflight (w_log w) = (List.length pending, m) ->
  inflight (w_log (wg_Wait env pending w)) = (O, m).
Proof.
  intros H. unfold wg_Wait. apply run_pending_inflight.
  rewrite inflight_emit, H. reflexivity.
Qed.

(** Every pass through the loop body ends with nothing in flight, so no
    goroutine is ever started while another one is running. *)
Lemma containersShutdown_loop_inflight env results :
  forall w m, inflight (w_log w) = (O, m) -> (m <= 1)%nat ->
  let r := containersShutdown_loop env results [] w in
  exists m', inflight (w_log (snd r)) = (O, m') /\ (m' <= 1)%nat
             /\ snd (fst r) = [].
Proof.
  induction results as [|r rest IH]; intros w m H Hm; simpl.
  - exists m. auto.
  - destruct (newLxdContainer (sd_load_err env r) r w) as [err|container]; simpl.
    { exists m. auto. }
    destruct (IsRunning container w).
    + destruct (sd_exec_err env container) as [err|]; simpl.
      { exists m. auto. }
      apply (IH _ (Nat.max m 1)); [|lia].
      apply wg_Wait_inflight. rewrite !inflight_emit. simpl.
      change (w_log (set_db w _)) with (w_log w). rewrite H. reflexivity.
    + apply (IH _ m); [|exact Hm]. now apply wg_Wait_inflight.
Qed.

(** The bound, for every table and every outcome of the calls: along the
    log of [containersShutdown] at most one shutdown goroutine is in flight
    at any time, and none is left when it returns. *)
Lemma containersShutdown_one_at_a_time env db dirs running storage :
  let r := containersShutdown env (mkWorld db dirs running storage []) in
  (max_inflight (w_log (snd r)) <= 1)%nat /\ snd (fst r) = [].
Proof.
  unfold containersShutdown. destruct (sd_list_err env); simpl.
  { split; [unfold max_inflight; simpl; lia|reflexivity]. }
  destruct (containersShutdown_loop_inflight env
              (ListRegularContainers db) (mkWorld db dirs running storage []) O)
    as (m' & H & Hm & Hp); [reflexivity|lia|].
  split; [|exact Hp]. unfold max_inflight. unfold inflight in H. now rewrite H.
Qed.

(** C5, evaluated on the code: with [a] and [b] both running, [wg.Wait()]
    is entered right after [a]'s goroutine is started, and [a] has been shut
    down and stopped before [b]'s flag is written and [b]'s goroutine is
    started; the log holds two waits, not one after the loop. *)
Theorem containersShutdown_waits_inside_loop :
  let r := containersShutdown all_fine running_pair in
  fst r = (None, [])
  /\ w_log (snd r)
     = [EvSetPowerState "a"; EvWgAdd; EvGo "a"; EvWgWait;
        EvShutdown "a"; EvStop "a"; EvWgDone;
        EvSetPowerState "b"; EvWgAdd; EvGo "b"; EvWgWait;
        EvShutdown "b"; EvStop "b"; EvWgDone]
  /\ max_inflight (w_log (snd r)) = 1%nat.
Proof. repeat split; reflexivity. Qed.

End ShutdownFacts.

(** ** Cascade delete *)

Section CascadeFacts.
Import Containers.

Variable delim : string.
Variable varPath : string -> string -> string.

Lemma btrfsDeleteSubvol_effect env cdir w :
  w_db (btrfsDeleteSubvol env cdir w) = w_db w
  /\ w_log (btrfsDeleteSubvol env cdir w) = w_log w ++ [EvBtrfsDeleteSubvol cdir].
Proof. unfold btrfsDeleteSubvol. destruct (cd_btrfs_ok env cdir); auto. Qed.

Lemma RemoveAll_effect env cdir w :
  w_db (RemoveAll env cdir w) = w_db w
  /\ w_log (RemoveAll env cdir w) = w_log w ++ [EvRemoveAll cdir].
Proof. unfold RemoveAll. destruct (cd_removeall_ok env cdir); auto. Qed.

(** The first loop collects every id, leaves the table alone and logs, per
    snapshot, the subvolume delete (on btrfs only) and then the recursive
    delete. *)
Lemma cascade_fs_loop_spec env backingFs results :
  forall ids w,
  let r := cascade_fs_loop varPath env backingFs results ids w in
  fst r = ids ++ List.map snd results
  /\ w_db (snd r) = w_db w
  /\ w_log (snd r) = w_log w ++ flat_map (fs_events varPath backingFs) results.
Proof.
  induction results as [|[sname id] rest IH]; intros ids w; simpl.
  - now rewrite !app_nil_r.
  - destruct (IH (ids ++ [id])
               (RemoveAll env (varPath "snapshots" sname)
                  (if String.eqb backingFs "btrfs"
                   then btrfsDeleteSubvol env (varPath "snapshots" sname) w else w)))
      as (Hids & Hdb & Hlog).
    rewrite Hids, Hdb, Hlog.
    destruct (RemoveAll_effect env (varPath "snapshots" sname)
                (if String.eqb backingFs "btrfs"
                 then btrfsDeleteSubvol env (varPath "snapshots" sname) w else w))
      as (Hdb1 & Hlog1).
    rewrite Hdb1, Hlog1. unfold fs_events at 2. simpl.
    destruct (String.eqb backingFs "btrfs").
    + destruct (btrfsDeleteSubvol_effect env (varPath "snapshots" sname) w) as (-> & ->).
      rewrite <- !app_assoc. auto.
    + rewrite <- !app_assoc. auto.
Qed.

Lemma without_ids_cons id rest t :
  without_ids rest (List.filter (fun r => negb (row_id r =? id)) t)
    = without_ids (id :: rest) t.
Proof.
  unfold without_ids. induction t as [|r t IH]; [reflexivity|]. simpl.
  destruct (row_id r =? id); simpl; [exact IH|].
  destruct (existsb (Z.eqb (row_id r)) rest); simpl; [exact IH|now rewrite IH].
Qed.

(** The second loop: the deletes it attempts are a prefix of the ids, in
    order; its error is the error of one of these statements. *)
Lemma cascade_db_loop_spec env ids :
  forall w,
  let r := cascade_db_loop env ids w in
  (exists attempted,
      attempted `prefix_of` ids
      /\ w_log (snd r) = w_log w ++ List.map EvDbDelete attempted)
  /\ (forall e, fst r = Some e -> exists id, In id ids /\ cd_exec_err env id = Some e)
  /\ ((forall id, In id ids -> cd_exec_err env id = None) ->
        fst r = None /\ w_db (snd r) = without_ids ids (w_db w)).
Proof.
  induction ids as [|id rest IH]; intros w.
  - simpl. split; [exists []; split; [apply prefix_nil|now rewrite app_nil_r]|].
    split; [discriminate|]. intros _. split; [reflexivity|].
    unfold without_ids. simpl. induction (w_db w) as [|r t IHt]; [reflexivity|].
    simpl. now rewrite <- IHt.
  - destruct (cd_exec_err env id) as [err|] eqn:He.
    + cbn [cascade_db_loop]. rewrite He. cbn [fst snd].
      split; [exists [id]; split; [apply prefix_cons, prefix_nil|reflexivity]|].
      split.
      * intros e [= <-]. exists id. split; [now left|exact He].
      * intros Hall. rewrite (Hall id) in He by now left. discriminate.
    + cbn [cascade_db_loop]. rewrite He.
      set (w2 := set_db (emit w (EvDbDelete id))
                   (List.filter (fun r => negb (row_id r =? id))
                      (w_db (emit w (EvDbDelete id))))).
      destruct (IH w2) as ((attempted & Hpre & Hlog) & Herr & Hok).
      split; [|split].
      * exists (id :: attempted). split; [now apply prefix_cons|].
        rewrite Hlog. unfold w2. simpl. now rewrite <- app_assoc.
      * intros e H. destruct (Herr e H) as (i & Hi & Hx). exists i.
        split; [now right|exact Hx].
      * intros Hall. destruct Hok as (Hn & Hdb); [intros i Hi; apply Hall; now right|].
        split; [exact Hn|]. rewrite Hdb. unfold w2. simpl. apply without_ids_cons.
Qed.

(** What the second loop returns and does to the table depends on the
    table and on the outcomes of its own statements only. *)
Lemma cascade_db_loop_frame env1 env2 ids :
  (forall id, cd_exec_err env1 id = cd_exec_err env2 id) ->
  forall w1 w2, w_db w1 = w_db w2 ->
  fst (cascade_db_loop env1 ids w1) = fst (cascade_db_loop env2 ids w2)
  /\ w_db (snd (cascade_db_loop env1 ids w1)) = w_db (snd (cascade_db_loop env2 ids w2)).
Proof.
  intros Hx. induction ids as [|id rest IH]; intros w1 w2 Hdb; simpl; [auto|].
  rewrite <- Hx. destruct (cd_exec_err env1 id); simpl; [auto|].
  apply IH. simpl. now rewrite Hdb.
Qed.

(** When the query fails, or the detection fails with an error other than
    "does not exist", nothing is removed and the error is returned. *)
Lemma containerDeleteSnapshots_early_failure env w cname err :
  cd_query_err env = Some err
  \/ (cd_query_err env = None /\ cd_detect_err env = Some (err, false)) ->
  containerDeleteSnapshots delim varPath env w cname = (Some err, w).
Proof.
  unfold containerDeleteSnapshots. intros [->|(-> & ->)]; reflexivity.
Qed.

(** C7, as the code has it: when the query and the detection pass, every
    snapshot's directory gets the recursive delete, preceded by the
    subvolume delete exactly when the backing file system is btrfs (the two
    are not alternatives), and every one of these calls comes before the
    first [DELETE] statement. *)
Theorem containerDeleteSnapshots_fs_before_db env w cname :
  cd_query_err env = None ->
  (forall err, cd_detect_err env <> Some (err, false)) ->
  let results :=
    select_snapshots (w_db w) (String.length (cname +:+ delim)) (cname +:+ delim) in
  let r := containerDeleteSnapshots delim varPath env w cname in
  exists attempted,
    attempted `prefix_of` List.map snd results
    /\ w_log (snd r)
       = w_log w ++ flat_map (fs_events varPath (cd_backingFs env)) results
                 ++ List.map EvDbDelete attempted.
Proof.
  intros Hq Hd results r. subst r. unfold containerDeleteSnapshots. rewrite Hq.
  fold results.
  assert (G : forall x : option error * world,
    x = (let '(ids, w1) := cascade_fs_loop varPath env (cd_backingFs env) results [] w in
         cascade_db_loop env ids w1) ->
    exists attempted,
      attempted `prefix_of` List.map snd results
      /\ w_log (snd x)
         = w_log w ++ flat_map (fs_events varPath (cd_backingFs env)) results
                   ++ List.map EvDbDelete attempted).
  { intros x ->.
    pose proof (cascade_fs_loop_spec env (cd_backingFs env) results [] w) as Hfs.
    destruct (cascade_fs_loop varPath env (cd_backingFs env) results [] w) as [ids w1].
    simpl in Hfs. destruct Hfs as (-> & _ & Hlog).
    destruct (cascade_db_loop_spec env (List.map snd results) w1)
      as ((attempted & Hpre & Hlog2) & _).
    exists attempted. split; [exact Hpre|].
    rewrite Hlog2, Hlog. now rewrite <- app_assoc. }
  destruct (cd_detect_err env) as [[err [|]]|]; try (apply G; reflexivity).
  exfalso. exact (Hd err eq_refl).
Qed.

(** C9: with the query and the detection passed, the result of the cascade
    and the table it leaves are the same whatever the subvolume deletes and
    the recursive deletes returned; an error it returns is the error of one
    of its [DELETE] statements; and when these all succeed it returns [nil]
    with every collected row deleted. *)
Theorem containerDeleteSnapshots_ignores_fs_outcomes env w cname :
  cd_query_err env = None ->
  (forall err, cd_detect_err env <> Some (err, false)) ->
  let ids :=
    List.map snd
      (select_snapshots (w_db w) (String.length (cname +:+ delim)) (cname +:+ delim)) in
  let r := containerDeleteSnapshots delim varPath env w cname in
  (forall bt rm,
     let r' :=
       containerDeleteSnapshots delim varPath
         (mkCascadeEnv (cd_query_err env) (cd_backingFs env) (cd_detect_err env)
            bt rm (cd_exec_err env)) w cname in
     fst r' = fst r /\ w_db (snd r') = w_db (snd r))
  /\ (forall e, fst r = Some e -> exists id, In id ids /\ cd_exec_err env id = Some e)
  /\ ((forall id, In id ids -> cd_exec_err env id = None) ->
        fst r = None /\ w_db (snd r) = without_ids ids (w_db w)).
Proof.
  intros Hq Hd ids r.
  set (results :=
    select_snapshots (w_db w) (String.length (cname +:+ delim)) (cname +:+ delim)) in *.
  assert (Run : forall env',
    cd_query_err env' = None -> cd_detect_err env' = cd_detect_err env ->
    exists w1,
      containerDeleteSnapshots delim varPath env' w cname = cascade_db_loop env' ids w1
      /\ w_db w1 = w_db w).
  { intros env' Hq' Hd'. unfold containerDeleteSnapshots. rewrite Hq'. fold results.
    pose proof (cascade_fs_loop_spec env' (cd_backingFs env') results [] w) as Hfs.
    destruct (cascade_fs_loop varPath env' (cd_backingFs env') results [] w) as [ids' w1].
    simpl in Hfs. destruct Hfs as (-> & Hdb & _).
    exists w1. split; [|exact Hdb]. rewrite Hd'.
    destruct (cd_detect_err env) as [[err [|]]|]; try reflexivity.
    exfalso. exact (Hd err eq_refl). }
  destruct (Run env Hq eq_refl) as (w1 & Heq & Hdb1).
  split; [|split].
  - intros bt rm r'.
    destruct (Run (mkCascadeEnv (cd_query_err env) (cd_backingFs env)
                     (cd_detect_err env) bt rm (cd_exec_err env)) Hq eq_refl)
      as (w2 & Heq2 & Hdb2).
    subst r r'. rewrite Heq, Heq2.
    apply cascade_db_loop_frame; [reflexivity|congruence].
  - subst r. rewrite Heq.
    apply (proj1 (proj2 (cascade_db_loop_spec env ids w1))).
  - intros Hall. subst r. rewrite Heq.
    destruct (proj2 (proj2 (cascade_db_loop_spec env ids w1)) Hall) as (A & B).
    split; [exact A|]. now rewrite B, Hdb1.
Qed.

End CascadeFacts.

Section CascadeExamples.
Import Containers.

Lemma containerDeleteSnapshots_fs_before_db_witness :
  exists attempted,
    attempted `prefix_of` [2]
    /\ w_log (snd (containerDeleteSnapshots "/" VarPath removals_fail web_with_snap0 "web"))
       = [] ++ [EvRemoveAll (VarPath "snapshots" "web/snap0")]
            ++ List.map EvDbDelete attempted.
Proof.
  exact (containerDeleteSnapshots_fs_before_db "/" VarPath removals_fail web_with_snap0
           "web" eq_refl ltac:(discriminate)).
Defined.

(** C7 as stated fails on btrfs: the snapshot's directory gets the
    subvolume delete and then the recursive delete as well, both before the
    row is deleted. *)
Lemma containerDeleteSnapshots_btrfs_runs_both :
  let r := containerDeleteSnapshots "/" VarPath on_btrfs web_with_snap0 "web" in
  fst r = None
  /\ w_log (snd r)
     = [EvBtrfsDeleteSubvol (VarPath "snapshots" "web/snap0");
        EvRemoveAll (VarPath "snapshots" "web/snap0");
        EvDbDelete 2].
Proof. split; reflexivity. Qed.

(** No removal works, the directory is still there, and the cascade
    returns [nil] with the snapshot's row gone. *)
Lemma containerDeleteSnapshots_ignores_fs_outcomes_witness :
  let r := containerDeleteSnapshots "/" VarPath removals_fail web_with_snap0 "web" in
  fst r = None
  /\ w_db (snd r) = without_ids [2] (w_db web_with_snap0)
  /\ w_dirs (snd r) = [VarPath "snapshots" "web/snap0"].
Proof.
  pose proof (containerDeleteSnapshots_ignores_fs_outcomes "/" VarPath removals_fail
                web_with_snap0 "web" eq_refl ltac:(discriminate)) as (_ & _ & Hok).
  destruct (Hok ltac:(reflexivity)) as (A & B).
  split; [exact A|]. split; [exact B|reflexivity].
Defined.

End CascadeExamples.

(** ** The archive exporter *)

Section ExportFacts.
Import Archive.

Lemma slice_from_past_rootfs cDir rest :
  slice_from (S (String.length cDir)) (cDir +:+ "/rootfs" +:+ rest) = "rootfs" +:+ rest.
Proof. induction cDir as [|a cDir IH]; [reflexivity|exact IH]. Qed.

Lemma rootfs_name_has_no_slash rest : HasPrefix ("rootfs" +:+ rest) "/rootfs" = false.
Proof. reflexivity. Qed.

(** For every path below [<cDir>/rootfs], with the offset [ExportToTar]
    computes, the archived name starts with [rootfs], never with [/rootfs]:
    the exporter handles the entry of an unprivileged container exactly as
    that of a privileged one, without consulting the ownership map. *)
Lemma tarStoreFile_rootfs_as_privileged c linkmap tw cDir rest f :
  tarStoreFile c linkmap (S (String.length cDir)) tw (cDir +:+ "/rootfs" +:+ rest) f
  = tarStoreFile (mkContainer true (c_ShiftFromNs c) (c_running c) (c_path c))
      linkmap (S (String.length cDir)) tw (cDir +:+ "/rootfs" +:+ rest) f.
Proof.
  cbv beta zeta delta [tarStoreFile].
  rewrite slice_from_past_rootfs, rootfs_name_has_no_slash, !andb_false_r.
  reflexivity.
Qed.

(** C3, evaluated on the code: the unprivileged [web] maps 100000 to 0 and
    resolves no id below 100000; its export keeps the raw owner 100000 of
    [rootfs/a], and archives [rootfs/host], owned by the unresolved id 5,
    instead of leaving it out. *)
Theorem ExportToTar_rootfs_owner_not_remapped :
  let r := ExportToTar web "" fs_owners in
  c_privileged web = false
  /\ c_ShiftFromNs web 100000 100000 = (0, 0)
  /\ c_ShiftFromNs web 5 5 = (-1, -1)
  /\ fst r = Nil
  /\ List.map (fun h => (Name h, Uid h, Gid h)) (tw_hdrs (snd r))
     = [("rootfs", 100000, 100000); ("rootfs/a", 100000, 100000); ("rootfs/host", 5, 5)].
Proof. repeat split; vm_compute; reflexivity. Qed.

(** The metadata path does return the error of a failed entry. *)
Lemma ExportToTar_metadata_failure_returned :
  fst (ExportToTar web "" fs_metadata_fails)
    = Err ("error getting file info: permission denied" +:+ nl).
Proof. vm_compute. reflexivity. Qed.

(** C4, evaluated on the code: [GetFileStat] fails on [rootfs/a]; the walk
    stops there, its error is dropped, and the export returns [nil] with an
    archive that lacks [rootfs/a] and [rootfs/b]; likewise a socket in
    [templates] ends that walk and the export still returns [nil]. *)
Theorem ExportToTar_walk_error_dropped :
  fst (Walk web (S (String.length (c_path web))) (fs_rootfs fs_stat_fails) ∅ NewWriter)
    = (Err ("error getting file info: permission denied" +:+ nl), ∅)
  /\ fst (ExportToTar web "" fs_stat_fails) = Nil
  /\ List.map Name (tw_hdrs (snd (ExportToTar web "" fs_stat_fails))) = ["rootfs"]
  /\ fst (ExportToTar web "" fs_socket_in_templates) = Nil
  /\ List.map Name (tw_hdrs (snd (ExportToTar web "" fs_socket_in_templates)))
     = ["rootfs"; "templates"].
Proof. repeat split; vm_compute; reflexivity. Qed.

End ExportFacts.

(** ** Hardlinks in the archive *)

Section HardlinkFacts.
Import Archive.

Lemma land_ModeType_0 m b :
  Z.land m ModeType = 0 ->
  (b = ModeDir \/ b = ModeSymlink) ->
  Z.land m b = 0.
Proof.
  unfold ModeType. intros H Hb.
  rewrite !Z.land_lor_distr_r in H.
  repeat (apply Z.lor_eq_0_iff in H; destruct H as [? H]).
  destruct Hb as [-> | ->]; assumption.
Qed.

(** A regular file is neither a directory nor a symlink. *)
Lemma IsRegular_plain m :
  IsRegular m = true -> IsDir m = false /\ is_symlink m = false.
Proof.
  unfold IsRegular, IsDir, is_symlink. intros H. apply Z.eqb_eq in H.
  rewrite (land_ModeType_0 m ModeDir H), (land_ModeType_0 m ModeSymlink H) by auto.
  split; reflexivity.
Qed.

Lemma FileInfoHeader_regular fi link :
  IsRegular (fi_mode fi) = true ->
  FileInfoHeader fi link = inr (mkHeader "" (fi_size fi) 0 0 0 0 TypeReg "").
Proof. unfold FileInfoHeader. intros ->. reflexivity. Qed.

Lemma WriteHeader_headers outcome hdr tw e tw1 :
  WriteHeader outcome hdr tw = (e, tw1) ->
  (e = None /\ tw_hdrs tw1 = tw_hdrs tw ++ [hdr])
  \/ (e <> None /\ tw_hdrs tw1 = tw_hdrs tw).
Proof.
  unfold WriteHeader.
  destruct (tw_err tw); [intros [= <- <-]; right; split; [discriminate|reflexivity]|].
  destruct (tw_closed tw); [intros [= <- <-]; right; split; [discriminate|reflexivity]|].
  destruct (tw_nb tw >? 0); [intros [= <- <-]; right; split; [discriminate|reflexivity]|].
  destruct outcome; intros [= <- <-]; [right|left]; split;
    try discriminate; reflexivity.
Qed.

Lemma Copy_headers outcome tw e tw1 :
  Copy outcome tw = (e, tw1) -> tw_hdrs tw1 = tw_hdrs tw.
Proof. unfold Copy. destruct outcome; intros [= <- <-]; reflexivity. Qed.

Lemma not_grown {A} (l : list A) (h : A) : l <> l ++ [h].
Proof.
  intros H. apply (f_equal (@List.length A)) in H.
  rewrite List.length_app in H. simpl in H. lia.
Qed.

Lemma last_header {A} (l : list A) (a b : A) : l ++ [a] = l ++ [b] -> a = b.
Proof. intros H. apply app_inv_head in H. now injection H. Qed.

(** What the tail of [tarStoreFile] (from [WriteHeader] on) does with the
    header it is given: when the archive grew, it grew by that header. *)
Lemma store_tail_header (f : file) hdr2 (lm' : gmap Z string) tw r lm'' tw' h :
  match WriteHeader (f_write_err f) hdr2 tw with
  | (Some err, tw1) => (Err ("error writing header: " +:+ err +:+ nl), lm', tw1)
  | (None, tw1) =>
      if Typeflag_eqb (Typeflag_of hdr2) TypeReg then
        match f_open_err f with
        | Some err => (Err ("tarStoreFile: error opening file: " +:+ err +:+ nl), lm', tw1)
        | None =>
            match Copy (f_copy_err f) tw1 with
            | (Some err, tw2) => (Err ("error copying file " +:+ err +:+ nl), lm', tw2)
            | (None, tw2) => (Nil, lm', tw2)
            end
        end
      else (Nil, lm', tw1)
  end = (r, lm'', tw') ->
  tw_hdrs tw' = tw_hdrs tw ++ [h] ->
  h = hdr2 /\ lm'' = lm'.
Proof.
  destruct (WriteHeader (f_write_err f) hdr2 tw) as [e tw1] eqn:Hw.
  apply WriteHeader_headers in Hw as [(-> & Hh)|(Hne & Hh)].
  - destruct (Typeflag_eqb (Typeflag_of hdr2) TypeReg).
    + destruct (f_open_err f).
      * intros [= <- <- <-] H. rewrite Hh in H. split; [symmetry; eapply last_header; eauto|auto].
      * destruct (Copy (f_copy_err f) tw1) as [[e|] tw2] eqn:Hc;
          apply Copy_headers in Hc; intros [= <- <- <-] H; rewrite Hc, Hh in H;
          (split; [symmetry; eapply last_header; eauto|auto]).
    + intros [= <- <- <-] H. rewrite Hh in H. split; [symmetry; eapply last_header; eauto|auto].
  - destruct e as [e|]; [|contradiction].
    intros [= <- <- <-] H. rewrite Hh in H. exfalso. exact (not_grown _ _ H).
Qed.

(** One call of [tarStoreFile] that put a header into the archive: the
    header's name is the path past the offset; a directory or a symlink has
    size 0; a regular file with several links is a hardlink entry to the
    indexed path, of size 0, when its inode is in the map, and otherwise a
    regular entry whose name is entered in the map. *)
Lemma tarStoreFile_header c lm offset tw path f r lm' tw' h st :
  tarStoreFile c lm offset tw path f = (r, lm', tw') ->
  tw_hdrs tw' = tw_hdrs tw ++ [h] ->
  f_stat f = inr st ->
  Name h = slice_from offset path
  /\ (IsDir (fi_mode (f_info f)) || is_symlink (fi_mode (f_info f)) = true -> Size h = 0)
  /\ (IsRegular (fi_mode (f_info f)) = true -> st_nlink st > 1 ->
      match lm !! st_ino st with
      | Some firstpath =>
          Typeflag_of h = TypeLink /\ Linkname h = firstpath /\ Size h = 0 /\ lm' = lm
      | None =>
          Typeflag_of h = TypeReg /\ Size h = fi_size (f_info f)
          /\ lm' = <[st_ino st := Name h]> lm
      end).
Proof.
  intros Hrun Hgrow Hst. unfold tarStoreFile in Hrun. rewrite Hst in Hrun.
  destruct (if is_symlink (fi_mode (f_info f)) then f_readlink f else inr "")
    as [e|link]; [injection Hrun as <- <- <-; exfalso; exact (not_grown _ _ Hgrow)|].
  destruct (FileInfoHeader (f_info f) link) as [e|hdr] eqn:Hhdr;
    [injection Hrun as <- <- <-; exfalso; exact (not_grown _ _ Hgrow)|].
  destruct (String.length path <? offset)%nat;
    [injection Hrun as <- <- <-; exfalso; exact (not_grown _ _ Hgrow)|].
  destruct (if negb (c_privileged c) && HasPrefix (slice_from offset path) "/rootfs"
            then c_ShiftFromNs c (st_uid st) (st_gid st)
            else (st_uid st, st_gid st)) as [uid gid].
  destruct (negb (c_privileged c) && HasPrefix (slice_from offset path) "/rootfs"
            && ((uid =? -1) || (gid =? -1)));
    [injection Hrun as <- <- <-; exfalso; exact (not_grown _ _ Hgrow)|].
  destruct (if negb (st_major st =? -1) then (st_major st, st_minor st)
            else (Devmajor hdr, Devminor hdr)) as [devmajor devminor].
  destruct (IsRegular (fi_mode (f_info f))) eqn:Hreg.
  - destruct (IsRegular_plain _ Hreg) as (Hdir & Hsym).
    rewrite Hdir, Hsym in *. simpl in Hrun.
    rewrite (FileInfoHeader_regular _ link Hreg) in Hhdr. injection Hhdr as <-.
    simpl in Hrun.
    destruct (st_nlink st >? 1) eqn:Hn.
    + destruct (lm !! st_ino st) as [firstpath|] eqn:Hl;
        destruct (store_tail_header _ _ _ _ _ _ _ _ Hrun Hgrow) as (-> & ->); simpl;
        (split; [reflexivity|]); (split; [discriminate|]); intros _ _; auto.
    + destruct (store_tail_header _ _ _ _ _ _ _ _ Hrun Hgrow) as (-> & ->); simpl.
      split; [reflexivity|]. split; [discriminate|].
      intros _ Hgt. rewrite Z.gtb_ltb in Hn. apply Z.ltb_ge in Hn. lia.
  - simpl in Hrun.
    destruct (store_tail_header _ _ _ _ _ _ _ _ Hrun Hgrow) as (-> & ->); simpl.
    split; [reflexivity|]. split; [|discriminate].
    intros ->. reflexivity.
Qed.







End HardlinkFacts.

Section HardlinkExamples.
Import Archive.


End HardlinkExamples.

(** * Further properties of the two files *)

(** ** Strings *)

Section StringFacts.

Local Arguments String.append !_ _ / : simpl nomatch.

Lemma str_app_assoc (a b c : string) : (a +:+ b) +:+ c = a +:+ (b +:+ c).
Proof. induction a as [|x a IH]; simpl; [reflexivity|now rewrite IH]. Qed.

Lemma str_length_app (a b : string) :
  String.length (a +:+ b) = (String.length a + String.length b)%nat.
Proof. induction a as [|x a IH]; simpl; [reflexivity|now rewrite IH]. Qed.

Lemma slice_from_app (a b : string) : slice_from (String.length a) (a +:+ b) = b.
Proof. induction a as [|x a IH]; simpl; [reflexivity|exact IH]. Qed.

Lemma substring_app (a b : string) : String.substring 0 (String.length a) (a +:+ b) = a.
Proof. induction a as [|x a IH]; simpl; [now destruct b|now rewrite IH]. Qed.

(** A name whose first [len(pat)] bytes are [pat] starts with [pat]. *)
Lemma substring_eq_split (pat name : string) :
  String.eqb (String.substring 0 (String.length pat) name) pat = true ->
  name = pat +:+ slice_from (String.length pat) name.
Proof.
  intros H. apply String.eqb_eq in H. revert name H.
  induction pat as [|x pat IH]; intros name H; simpl; [reflexivity|].
  destruct name as [|y name]; simpl in H; [discriminate|].
  injection H as -> H. f_equal. now apply IH.
Qed.

(** [SUBSTR] cuts its result off the front of the name. *)
Lemma sql_substr_split (n : nat) (b : bool) (s : string) :
  s = sql_substr n b s +:+ slice_from (String.length (sql_substr n b s)) s.
Proof.
  revert n b. induction s as [|a s IH]; intros n b; [reflexivity|].
  cbn [sql_substr].
  destruct (nat_of_ascii a =? 0)%nat; [reflexivity|].
  destruct (b && (128 <=? nat_of_ascii a)%nat && (nat_of_ascii a <? 192)%nat).
  - simpl. f_equal. apply IH.
  - destruct n as [|n]; [reflexivity|]. simpl. f_equal. apply IH.
Qed.

(** A name that passes the test [SUBSTR(name,1,len(pat)) = pat] starts with
    the bytes of [pat]. *)
Lemma sql_substr_eq_split (pat name : string) :
  String.eqb (sql_substr (String.length pat) false name) pat = true ->
  name = pat +:+ slice_from (String.length pat) name.
Proof.
  intros H. apply String.eqb_eq in H.
  pose proof (sql_substr_split (String.length pat) false name) as Hs.
  now rewrite H in Hs.
Qed.

(** Over an ASCII pattern the characters [SUBSTR] counts are the bytes
    [len] counts. *)
Lemma sql_substr_ascii_app (a b : string) :
  is_ascii a = true -> sql_substr (String.length a) false (a +:+ b) = a.
Proof.
  induction a as [|x a IH]; intros Ha.
  - simpl. destruct b as [|y b]; [reflexivity|]. cbn [sql_substr].
    destruct (nat_of_ascii y =? 0)%nat; reflexivity.
  - cbn [is_ascii] in Ha.
    apply andb_prop in Ha as (Hx & Ha). apply andb_prop in Hx as (H0 & H128).
    apply negb_true_iff in H0. apply Nat.ltb_lt in H128.
    cbn [String.length String.append sql_substr]. rewrite H0. cbn [andb].
    replace (192 <=? nat_of_ascii x)%nat with false
      by (symmetry; apply Nat.leb_gt; lia).
    f_equal. now apply IH.
Qed.

Lemma is_ascii_app (a b : string) : is_ascii (a +:+ b) = is_ascii a && is_ascii b.
Proof.
  induction a as [|x a IH]; [reflexivity|].
  cbn [String.append is_ascii]. rewrite IH. now rewrite andb_assoc.
Qed.

Lemma sql_substr_ascii_prefix (pat name : string) :
  is_ascii pat = true ->
  String.eqb (sql_substr (String.length pat) false name) pat
  = String.prefix pat name.
Proof.
  intros Ha.
  destruct (String.prefix pat name) eqn:Hp.
  - apply String.prefix_correct in Hp.
    assert (Hn : name = pat +:+ slice_from (String.length pat) name).
    { apply substring_eq_split. now apply String.eqb_eq. }
    rewrite Hn. rewrite sql_substr_ascii_app by exact Ha. apply String.eqb_refl.
  - destruct (String.eqb (sql_substr (String.length pat) false name) pat) eqn:He;
      [|reflexivity].
    apply sql_substr_eq_split in He.
    assert (Hq : String.prefix pat name = true).
    { apply String.prefix_correct. rewrite He. apply substring_app. }
    congruence.
Qed.

(** Over an ASCII pattern the query's test is the test for a Snapshot
    record whose name starts with the pattern. *)
Lemma where_type_prefix_ascii (pat : string) (r : row) :
  is_ascii pat = true ->
  where_type_prefix cTypeSnapshot (String.length pat) pat r
  = Samples.snapshot_under pat r.
Proof.
  intros Ha. unfold where_type_prefix, Samples.snapshot_under.
  now rewrite sql_substr_ascii_prefix.
Qed.

End StringFacts.

(** ** Numbers in snapshot names *)

Section NumberFacts.
Import Snapshot.

Lemma digit_cases d : 0 <= d <= 9 ->
  d = 0 \/ d = 1 \/ d = 2 \/ d = 3 \/ d = 4 \/ d = 5 \/ d = 6 \/ d = 7 \/ d = 8 \/ d = 9.
Proof. lia. Qed.

Lemma digit_val_digit_char d : 0 <= d <= 9 -> digit_val (digit_char d) = Some d.
Proof.
  intros H. destruct (digit_cases d H) as [->|[->|[->|[->|[->|[->|[->|[->|[->| ->]]]]]]]]];
    reflexivity.
Qed.

Lemma digit_char_plain d : 0 <= d <= 9 ->
  forall rest,
  skip_space (String (digit_char d) rest) = Some (String (digit_char d) rest)
  /\ accept_sign (String (digit_char d) rest) = (false, String (digit_char d) rest).
Proof.
  intros H rest.
  destruct (digit_cases d H) as [->|[->|[->|[->|[->|[->|[->|[->|[->| ->]]]]]]]]];
    split; reflexivity.
Qed.

(** [Sprintf("%d")] always writes a digit first (for a value that is not
    negative). *)
Lemma itoa_fuel_head f z rest :
  0 <= z ->
  exists d s, 0 <= d <= 9 /\ itoa_fuel (S f) z rest = String (digit_char d) s.
Proof.
  revert z rest. induction f as [|f IH]; intros z rest Hz.
  - exists (z mod 10), rest. split; [pose proof (Z.mod_pos_bound z 10); lia|].
    simpl. destruct (z <? 10); reflexivity.
  - change (itoa_fuel (S (S f)) z rest)
      with (if z <? 10 then String (digit_char (z mod 10)) rest
            else itoa_fuel (S f) (z / 10) (String (digit_char (z mod 10)) rest)).
    destruct (z <? 10).
    + exists (z mod 10), rest. split; [pose proof (Z.mod_pos_bound z 10); lia|reflexivity].
    + apply IH. apply Z.div_pos; lia.
Qed.

(** Reading back the digits that were written gives the number. *)
Lemma scan_digits_itoa_fuel f :
  forall z rest a c, 0 <= z < 10 ^ Z.of_nat f ->
  exists k : nat,
    scan_digits (itoa_fuel f z rest) a c
      = scan_digits rest (a * 10 ^ Z.of_nat k + z) (c + k)%nat
    /\ (f <> O -> k <> O).
Proof.
  induction f as [|f IH]; intros z rest a c Hz.
  - exists O. split; [|congruence].
    change (10 ^ Z.of_nat 0) with 1 in *.
    assert (z = 0) as -> by lia. cbn [itoa_fuel]. now rewrite Z.mul_1_r, Z.add_0_r, Nat.add_0_r.
  - change (itoa_fuel (S f) z rest)
      with (if z <? 10 then String (digit_char (z mod 10)) rest
            else itoa_fuel f (z / 10) (String (digit_char (z mod 10)) rest)).
    assert (Hd : 0 <= z mod 10 <= 9) by (pose proof (Z.mod_pos_bound z 10); lia).
    destruct (z <? 10) eqn:Hlt.
    + apply Z.ltb_lt in Hlt. exists 1%nat. split; [|congruence].
      rewrite Z.mod_small by lia. cbn [scan_digits].
      rewrite digit_val_digit_char by lia.
      change (10 ^ Z.of_nat 1) with 10.
      f_equal; [lia|lia].
    + apply Z.ltb_ge in Hlt.
      assert (Hq : 0 <= z / 10 < 10 ^ Z.of_nat f).
      { split; [apply Z.div_pos; lia|].
        apply Z.div_lt_upper_bound; [lia|].
        rewrite Nat2Z.inj_succ, Z.pow_succ_r in Hz by lia. lia. }
      destruct (IH (z / 10) (String (digit_char (z mod 10)) rest) a c Hq) as (k & Hk & _).
      exists (S k). split; [|congruence].
      rewrite Hk. cbn [scan_digits]. rewrite digit_val_digit_char by exact Hd.
      f_equal; [|lia].
      rewrite Nat2Z.inj_succ, Z.pow_succ_r by lia.
      pose proof (Z.div_mod z 10 ltac:(lia)) as Hdm.
      set (p := 10 ^ Z.of_nat k). set (q := z / 10) in *. set (m := z mod 10) in *.
      rewrite Hdm. ring.
Qed.

(** The namer reads back what the handler wrote: [Sscanf] of the text
    [Sprintf("%d", z)] produces is [z], for every [int] that is not negative. *)
Lemma Sscanf_d_itoa z : 0 <= z < 2 ^ 63 -> Sscanf_d (itoa z) = Some z.
Proof.
  intros Hz. unfold itoa.
  replace (z <? 0) with false by (symmetry; apply Z.ltb_ge; lia).
  destruct (itoa_fuel_head 19 z EmptyString) as (d & s & Hd & Hs); [lia|].
  destruct (digit_char_plain d Hd s) as (Hskip & Hsign).
  unfold Sscanf_d. rewrite Hs, Hskip, Hsign, <- Hs.
  destruct (scan_digits_itoa_fuel 20 z EmptyString 0 O) as (k & Hk & Hpos);
    [change (10 ^ Z.of_nat 20) with 100000000000000000000;
     change (2 ^ 63) with 9223372036854775808 in Hz; lia|].
  rewrite Hk. cbn [scan_digits Nat.add].
  destruct k as [|k]; [now contradiction Hpos|].
  rewrite Z.mul_0_l, Z.add_0_l.
  replace (- 2 ^ 63 <=? z) with true by (symmetry; apply Z.leb_le; lia).
  replace (z <? 2 ^ 63) with true by (symmetry; apply Z.ltb_lt; lia).
  reflexivity.
Qed.

Lemma itoa_not_empty z : 0 <= z -> (1 <= String.length (itoa z))%nat.
Proof.
  intros Hz. unfold itoa.
  replace (z <? 0) with false by (symmetry; apply Z.ltb_ge; lia).
  destruct (itoa_fuel_head 19 z EmptyString) as (d & s & _ & ->); [lia|].
  simpl. lia.
Qed.

End NumberFacts.

(** ** The namer, continued *)

Section NamerMore.
Import Snapshot Samples.

(** The loop, given the one row [<base><K>] as the handler formats it,
    returns [K+1]. *)
Lemma nextSnapshot_loop_reads_back base K :
  0 <= K < 2 ^ 63 - 1 ->
  nextSnapshot_loop (String.length base) [base +:+ itoa K] 0 = K + 1.
Proof.
  intros HK. rewrite nextSnapshot_loop_single.
  pose proof (itoa_not_empty K ltac:(lia)) as Hlen.
  replace (String.length (base +:+ itoa K) <=? String.length base)%nat with false
    by (symmetry; apply Nat.leb_gt; rewrite str_length_app; lia).
  rewrite slice_from_app, Sscanf_d_itoa by lia.
  replace (K >=? 0) with true by (symmetry; apply Z.geb_le; lia).
  unfold wrap_int. change (2 ^ 63) with 9223372036854775808 in *.
  change (2 ^ 64) with 18446744073709551616. rewrite Z.mod_small by lia. lia.
Qed.

(** The namer returns one more than the number in the greatest matching
    name (byte order): when that name is [<parent><delimiter>snap<K>], as the
    create handler writes it, the result is [K+1]. *)
Theorem nextSnapshot_after_greatest_name delim db name K :
  0 <= K < 2 ^ 63 - 1 ->
  sql_max
    (names_of
       (List.filter
          (where_type_prefix cTypeSnapshot
             (String.length (name +:+ delim +:+ "snap")) (name +:+ delim +:+ "snap"))
          db))
    = Some ((name +:+ delim +:+ "snap") +:+ itoa K) ->
  nextSnapshot delim None db name = K + 1.
Proof.
  intros HK Hmax. unfold nextSnapshot, dbQueryScan_max_name. rewrite Hmax.
  now apply nextSnapshot_loop_reads_back.
Qed.

Lemma nextSnapshot_after_greatest_name_witness :
  nextSnapshot "/" None db_snap9_snap10 "web" = 9 + 1.
Proof.
  apply (nextSnapshot_after_greatest_name "/" db_snap9_snap10 "web" 9);
    [vm_compute; split; [discriminate|reflexivity]|reflexivity].
Defined.

Lemma filter_none {A} (f : A -> bool) (l : list A) :
  (forall x, In x l -> f x = false) -> List.filter f l = [].
Proof.
  induction l as [|x l IH]; intros H; [reflexivity|]. simpl.
  rewrite (H x) by now left. apply IH. intros y Hy. apply H. now right.
Qed.

(** The fallback: when the query fails, or when its test selects no
    record, as when no Snapshot record starts with
    [<parent><delimiter>snap], the namer returns 0. *)
Theorem nextSnapshot_zero_without_snapshot delim outcome db name :
  outcome <> None
  \/ (forall r, In r db ->
        where_type_prefix cTypeSnapshot
          (String.length (name +:+ delim +:+ "snap")) (name +:+ delim +:+ "snap") r
        = false) ->
  nextSnapshot delim outcome db name = 0.
Proof.
  intros [H|H]; unfold nextSnapshot, dbQueryScan_max_name.
  - destruct outcome; [reflexivity|contradiction].
  - rewrite (filter_none _ _ H). destruct outcome; reflexivity.
Qed.

Lemma nextSnapshot_zero_without_snapshot_witness :
  nextSnapshot "/" None (w_db web_stopped) "web" = 0.
Proof.
  apply nextSnapshot_zero_without_snapshot. right.
  intros r [<-|[]]. reflexivity.
Defined.

Lemma sql_max_in (names : list string) (n : string) :
  sql_max names = Some n -> In n names.
Proof.
  unfold sql_max.
  assert (G : forall l acc,
    fold_left
      (fun acc n =>
         match acc with
         | None => Some n
         | Some m => if String.ltb m n then Some n else Some m
         end) l acc = Some n -> acc = Some n \/ In n l).
  { induction l as [|x l IH]; intros acc H; [now left|]. simpl in H.
    apply IH in H as [H|H]; [|right; now right].
    destruct acc as [m|].
    - destruct (String.ltb m x).
      + injection H as <-. right. now left.
      + left. exact H.
    - injection H as <-. right. now left. }
  intros H. apply G in H as [H|H]; [discriminate|exact H].
Qed.

(** When [SUBSTR] hands back fewer characters than it was asked for, it
    has read the name to its end, or to a NUL byte. *)
Lemma sql_substr_short (k : nat) (b : bool) (name : string) :
  (sql_length b (sql_substr k b name) < k)%nat ->
  name = sql_substr k b name
  \/ exists rest, name = sql_substr k b name +:+ String "000" rest.
Proof.
  revert k b. induction name as [|a r IH]; intros k b H; [now left|].
  cbn [sql_substr] in *.
  destruct (nat_of_ascii a =? 0)%nat eqn:Hz.
  - right. exists r. change (String a r = String "000" r). f_equal.
    apply Nat.eqb_eq in Hz. rewrite <- (ascii_nat_embedding a), Hz. reflexivity.
  - destruct (b && (128 <=? nat_of_ascii a)%nat && (nat_of_ascii a <? 192)%nat) eqn:Hc.
    + cbn [sql_length] in H. rewrite Hz, Hc in H.
      destruct (IH k true H) as [E|(rest & E)].
      * left. exact (f_equal (String a) E).
      * right. exists rest. exact (f_equal (String a) E).
    + destruct k as [|k]; [cbn in H; lia|].
      cbn [sql_length] in H. rewrite Hz, Hc in H.
      apply PeanoNat.lt_S_n in H.
      destruct (IH k _ H) as [E|(rest & E)].
      * left. exact (f_equal (String a) E).
      * right. exists rest. exact (f_equal (String a) E).
Qed.

(** The namer is blind under a parent whose name is not ASCII: when
    [<parent><delimiter>snap] holds a multi-byte character it has more bytes
    than characters, [SUBSTR] is asked for more characters than the pattern
    has, the test can only select a record named exactly like the pattern,
    and the namer returns 0 whatever snapshots exist. *)
Theorem nextSnapshot_multibyte_parent_returns_0 delim outcome db name :
  (sql_length false (name +:+ delim +:+ "snap")
   < String.length (name +:+ delim +:+ "snap"))%nat ->
  nextSnapshot delim outcome db name = 0.
Proof.
  intros Hlen. unfold nextSnapshot, dbQueryScan_max_name.
  destruct outcome; [reflexivity|].
  set (base := name +:+ delim +:+ "snap") in *.
  destruct (sql_max _) as [n|] eqn:Hmax; [|reflexivity].
  apply sql_max_in in Hmax. unfold names_of in Hmax.
  apply in_map_iff in Hmax as (r & <- & Hr). apply filter_In in Hr as (_ & Hr).
  unfold where_type_prefix in Hr. apply andb_prop in Hr as (_ & Hr).
  apply String.eqb_eq in Hr.
  rewrite nextSnapshot_loop_single.
  destruct (sql_substr_short (String.length base) false (row_name r)) as [E|(rest & E)].
  - now rewrite Hr.
  - rewrite Hr in E. rewrite E, Nat.leb_refl. reflexivity.
  - rewrite Hr in E. rewrite E, slice_from_app.
    destruct (String.length (base +:+ String "000" rest) <=? String.length base)%nat;
      reflexivity.
Qed.

Lemma nextSnapshot_multibyte_parent_returns_0_witness :
  nextSnapshot "/" None db_accented accented = 0.
Proof.
  apply nextSnapshot_multibyte_parent_returns_0. vm_compute. lia.
Defined.

End NamerMore.

(** ** Snapshot creation, continued *)

Section CreationMore.
Import Snapshot Samples.

Local Arguments String.append !_ _ / : simpl nomatch.

(** Whatever [containerSnapshotsPost] starts is a snapshot of the
    requested parent: the parent has a record, the body carried a boolean
    [stateful], the new name is [<parent><delimiter><leaf>] with a leaf that
    is never empty, and a non-empty requested name is taken as it is. *)
Theorem containerSnapshotsPost_starts_snapshot delim lerr qerr w name body op :
  containerSnapshotsPost delim lerr qerr w name body = AsyncResponse op ->
  exists raw stateful leaf,
    str_in name (names_of (w_db w)) = true
    /\ body = Some raw
    /\ raw !! "stateful" = Some (JBool stateful)
    /\ op = OpSnapshot name (name +:+ delim +:+ leaf) stateful
    /\ leaf <> ""
    /\ (forall s, raw !! "name" = Some (JString s) -> s <> "" -> leaf = s).
Proof.
  unfold containerSnapshotsPost, newLxdContainer.
  destruct lerr; [discriminate|].
  destruct (str_in name (names_of (w_db w))) eqn:Hin; [|discriminate].
  destruct body as [raw|]; [|discriminate].
  unfold GetBool, GetString.
  destruct (raw !! "stateful") as [[s0|stateful|z0|]|] eqn:Hst; try discriminate.
  intros [= <-].
  destruct (raw !! "name") as [[s|b|z|]|] eqn:Hn.
  1: destruct (String.eqb s "") eqn:Hs.
  all: eexists raw, stateful, _; repeat (split; [first [reflexivity|exact Hst]|]).
  all: split; [|intros s' Hs'; rewrite Hn in Hs'; try discriminate].
  all: try (intros Hempty; apply (f_equal String.length) in Hempty; discriminate).
  - injection Hs' as ->. intros Hne. apply String.eqb_eq in Hs. contradiction.
  - apply String.eqb_neq in Hs. exact Hs.
  - injection Hs' as ->. reflexivity.
Qed.

Lemma containerSnapshotsPost_starts_snapshot_witness :
  exists raw stateful leaf,
    str_in "web" (names_of (w_db web_running)) = true
    /\ Some body_named = Some raw
    /\ raw !! "stateful" = Some (JBool stateful)
    /\ OpSnapshot "web" "web/before-upgrade" true
       = OpSnapshot "web" ("web" +:+ "/" +:+ leaf) stateful
    /\ leaf <> ""
    /\ (forall s, raw !! "name" = Some (JString s) -> s <> "" -> leaf = s).
Proof.
  exact (containerSnapshotsPost_starts_snapshot "/" None None web_running "web"
           (Some body_named) (OpSnapshot "web" "web/before-upgrade" true) eq_refl).
Defined.

Lemma names_of_app t1 t2 : names_of (t1 ++ t2) = names_of t1 ++ names_of t2.
Proof. unfold names_of. apply List.map_app. Qed.

(** Two requests without a name, the first one carried out in between:
    on a parent that has no [snap...] snapshot the first is named [snap0]
    and the second [snap1], when the parent's name and the delimiter are
    ASCII (the characters [SUBSTR] counts are then the bytes [len]
    counts). *)
Theorem containerSnapshotsPost_snap0_then_snap1 delim StateDirGet PathGet env w parent
    (raw : gmap string jvalue) :
  is_ascii parent = true ->
  is_ascii delim = true ->
  str_in parent (names_of (w_db w)) = true ->
  List.filter
    (where_type_prefix cTypeSnapshot
       (String.length (parent +:+ delim +:+ "snap")) (parent +:+ delim +:+ "snap"))
    (w_db w) = [] ->
  str_in (parent +:+ delim +:+ "snap0") (names_of (w_db w)) = false ->
  raw !! "name" = None ->
  raw !! "stateful" = Some (JBool false) ->
  create_err env = None ->
  storage_err env = None ->
  let first := parent +:+ delim +:+ "snap0" in
  let done := snapshot StateDirGet PathGet env parent first false w in
  containerSnapshotsPost delim None None w parent (Some raw)
    = AsyncResponse (OpSnapshot parent first false)
  /\ fst done = None
  /\ containerSnapshotsPost delim None None (snd done) parent (Some raw)
     = AsyncResponse (OpSnapshot parent (parent +:+ delim +:+ "snap1") false).
Proof.
  intros Hap Had Hparent Hnone Hfresh Hname Hst Hc Hs first done.
  assert (Hbase : is_ascii (parent +:+ delim +:+ "snap") = true).
  { rewrite !is_ascii_app, Hap, Had. reflexivity. }
  assert (Hdone : fst done = None
    /\ w_db (snd done) = w_db w ++ [mkRow (fresh_id (w_db w)) first cTypeSnapshot 0]).
  { subst done. unfold snapshot, createcontainerLXD. rewrite Hc.
    fold first in Hfresh. rewrite Hfresh. simpl.
    unfold ContainerSnapshotCreate. rewrite Hs. split; reflexivity. }
  destruct Hdone as (Hok & Hdb).
  split; [|split].
  - unfold containerSnapshotsPost, newLxdContainer. rewrite Hparent.
    unfold GetString, GetBool. rewrite Hname, Hst.
    unfold nextSnapshot, dbQueryScan_max_name. rewrite Hnone. reflexivity.
  - exact Hok.
  - unfold containerSnapshotsPost, newLxdContainer. rewrite Hdb.
    rewrite names_of_app, (str_in_app_l _ _ _ Hparent).
    unfold GetString, GetBool. rewrite Hname, Hst.
    assert (Hfirst : first = (parent +:+ delim +:+ "snap") +:+ itoa 0).
    { unfold first. rewrite !str_app_assoc. reflexivity. }
    assert (Hnext : nextSnapshot delim None
              (w_db w ++ [mkRow (fresh_id (w_db w)) first cTypeSnapshot 0]) parent = 1).
    { unfold nextSnapshot, dbQueryScan_max_name.
      rewrite List.filter_app, Hnone. simpl List.filter.
      unfold where_type_prefix at 1. simpl row_name. simpl row_type.
      rewrite Hfirst at 1.
      rewrite (sql_substr_ascii_app _ _ Hbase), String.eqb_refl. simpl.
      rewrite Hfirst. apply (nextSnapshot_loop_reads_back _ 0). lia. }
    rewrite Hnext. reflexivity.
Qed.

Lemma containerSnapshotsPost_snap0_then_snap1_witness :
  containerSnapshotsPost "/" None None web_stopped "web" (Some body_stateless)
    = AsyncResponse (OpSnapshot "web" "web/snap0" false)
  /\ containerSnapshotsPost "/" None None
       (snd (snapshot StateDirGet PathGet no_failure "web" "web/snap0" false web_stopped))
       "web" (Some body_stateless)
     = AsyncResponse (OpSnapshot "web" "web/snap1" false).
Proof.
  destruct (containerSnapshotsPost_snap0_then_snap1 "/" StateDirGet PathGet no_failure
              web_stopped "web" body_stateless
              eq_refl eq_refl eq_refl eq_refl eq_refl eq_refl eq_refl eq_refl eq_refl)
    as (A & _ & B).
  split; [exact A|exact B].
Defined.

Lemma In_filter_other_name name (t : table) r :
  In r t -> String.eqb name (row_name r) = false ->
  In r (List.filter (fun r' => negb (String.eqb name (row_name r'))) t).
Proof. intros Hin Hne. apply filter_In. split; [exact Hin|now rewrite Hne]. Qed.

(** Whatever fails, and whether or not the rollback works, the work unit
    never removes a record that was there before it ran: a name collision
    leaves the existing snapshot in place. *)
Theorem snapshot_keeps_existing_records StateDirGet PathGet env c fullName stateful w r :
  In r (w_db w) ->
  In r (w_db (snd (snapshot StateDirGet PathGet env c fullName stateful w))).
Proof.
  intros Hin. unfold snapshot, createcontainerLXD.
  destruct (create_err env) as [e|]; [exact Hin|].
  destruct (str_in fullName (names_of (w_db w))) eqn:Hfresh; [exact Hin|].
  set (w1 := set_db w _).
  assert (Hin1 : In r (w_db w1)) by (simpl; apply in_or_app; now left).
  assert (Hne : String.eqb fullName (row_name r) = false)
    by (eapply str_in_false_not_named; eauto).
  assert (Hroll : forall w', In r (w_db w') -> In r (w_db (rollback PathGet env fullName w'))).
  { intros w' Hw'. unfold rollback, Delete. destruct (delete_err env); [exact Hw'|].
    simpl. now apply In_filter_other_name. }
  assert (Hstore : forall w2, In r (w_db w2) ->
    In r (w_db (snd (match ContainerSnapshotCreate (storage_err env) fullName (PathGet fullName) w2 with
                     | (Some err, w3) => (Some err, rollback PathGet env fullName w3)
                     | (None, w3) => (None, w3)
                     end)))).
  { intros w2 Hw2. unfold ContainerSnapshotCreate.
    destruct (storage_err env); simpl; [now apply Hroll|exact Hw2]. }
  destruct stateful.
  - pose proof (snapshot_stateful_cases StateDirGet PathGet env c fullName w1) as Hs.
    simpl in Hs. destruct Hs as [(Hn & Hdb & _)|(err & w1' & Heq & Hdb)].
    + destruct (snapshot_stateful StateDirGet PathGet env c fullName w1) as [[e|] w2];
        simpl in *; [discriminate|].
      apply Hstore. now rewrite Hdb.
    + rewrite Heq. simpl. apply Hroll. now rewrite Hdb.
  - now apply Hstore.
Qed.

Lemma snapshot_keeps_existing_records_witness :
  In (mkRow 1 "web" cTypeRegular 0)
     (w_db (snd (snapshot StateDirGet PathGet no_failure "web" "web" true web_running))).
Proof.
  apply snapshot_keeps_existing_records. simpl. now left.
Defined.



Lemma str_in_snoc_last d l : str_in d (l ++ [d]) = true.
Proof.
  unfold str_in. rewrite existsb_app. simpl. rewrite String.eqb_refl.
  now rewrite orb_true_r.
Qed.



Lemma str_in_remove_str s l : str_in s (remove_str s l) = false.
Proof.
  unfold str_in, remove_str. induction l as [|x l IH]; [reflexivity|]. simpl.
  destruct (String.eqb s x) eqn:E; simpl; [exact IH|]. now rewrite E, IH.
Qed.

(** A stateful snapshot that succeeds was taken of a running parent, has
    its state directory on disk, and leaves the parent stopped (the
    checkpoint is taken with [Stop: true]). *)
Theorem snapshot_stateful_success_stops_parent StateDirGet PathGet env c fullName w :
  fst (snapshot StateDirGet PathGet env c fullName true w) = None ->
  let w' := snd (snapshot StateDirGet PathGet env c fullName true w) in
  IsRunning c w = true
  /\ IsRunning c w' = false
  /\ str_in (StateDirGet fullName) (w_dirs w') = true.
Proof.
  unfold snapshot, createcontainerLXD.
  destruct (create_err env); [discriminate|].
  destruct (str_in fullName (names_of (w_db w))); [discriminate|].
  unfold snapshot_stateful, MkdirAll.
  destruct (mkdir_err env); [discriminate|]. simpl.
  change (IsRunning c (set_dirs (set_db w _) _)) with (IsRunning c w).
  destruct (IsRunning c w) eqn:Hrun; [|discriminate]. simpl.
  destruct (lxc_get_err env); [discriminate|].
  unfold Checkpoint. destruct (checkpoint_err env); [discriminate|]. simpl.
  unfold ContainerSnapshotCreate. destruct (storage_err env); [discriminate|].
  simpl. intros _. split; [reflexivity|]. split.
  - unfold IsRunning. simpl. apply str_in_remove_str.
  - assert (Hstate : str_in (StateDirGet fullName)
                       (if str_in (StateDirGet fullName) (w_dirs w) then w_dirs w
                        else w_dirs w ++ [StateDirGet fullName]) = true).
    { destruct (str_in (StateDirGet fullName) (w_dirs w)) eqn:E; [exact E|].
      apply str_in_snoc_last. }
    destruct (str_in (PathGet fullName) _); [exact Hstate|].
    now apply str_in_app_l.
Qed.

Lemma snapshot_stateful_success_stops_parent_witness :
  IsRunning "web" web_running = true
  /\ IsRunning "web"
       (snd (snapshot StateDirGet PathGet no_failure "web" "web/snap0" true web_running)) = false
  /\ str_in (StateDirGet "web/snap0")
       (w_dirs (snd (snapshot StateDirGet PathGet no_failure "web" "web/snap0" true web_running)))
     = true.
Proof.
  exact (snapshot_stateful_success_stops_parent StateDirGet PathGet no_failure "web"
           "web/snap0" web_running eq_refl).
Defined.

End CreationMore.

(** ** Listing and the single-snapshot handler *)

Section ListingFacts.
Import Snapshot Listing Samples.

Variable delim : string.
Variable api : string.
Variable stateDir : string -> string.

Lemma select_snapshot_names_in_table t n pat name :
  In name (select_snapshot_names t n pat) ->
  exists r, In r t /\ row_name r = name /\ where_type_prefix cTypeSnapshot n pat r = true.
Proof.
  unfold select_snapshot_names, names_of. intros H.
  apply in_map_iff in H as (r & Hn & Hr). apply filter_In in Hr as (Hr & Hw).
  exists r. auto.
Qed.

Lemma str_in_names t r : In r t -> str_in (row_name r) (names_of t) = true.
Proof.
  intros H. apply existsb_exists. exists (row_name r).
  split; [unfold names_of; now apply in_map|apply String.eqb_refl].
Qed.

(** The loop keeps what it had and appends, in order, one entry for each
    name that loads. *)
Lemma containerSnapshotsGet_loop_spec env w recursion cname results :
  (forall n, In n results -> str_in n (names_of (w_db w)) = true) ->
  forall rs rm,
  containerSnapshotsGet_loop api stateDir env w recursion cname results rs rm
  = if recursion =? 0
    then (rs ++ List.map (snapshot_url api cname) (List.filter (loads env) results), rm)
    else (rs, rm ++ List.map (fun n => (n, PathExists (stateDir n) w))
                      (List.filter (loads env) results)).
Proof.
  induction results as [|n rest IH]; intros Hin rs rm.
  - simpl. rewrite !app_nil_r. now destruct (recursion =? 0).
  - cbn [containerSnapshotsGet_loop List.filter].
    destruct (ls_load_err env n) as [e|] eqn:Hl.
    + replace (loads env n) with false by (unfold loads; now rewrite Hl).
      unfold newLxdContainer at 1. apply IH. intros m Hm. apply Hin. now right.
    + replace (loads env n) with true by (unfold loads; now rewrite Hl).
      unfold newLxdContainer at 1. rewrite (Hin n) by now left.
      destruct (recursion =? 0) eqn:Hr.
      * rewrite IH by (intros m Hm; apply Hin; now right).
        cbn [List.map]. now rewrite <- app_assoc.
      * rewrite IH by (intros m Hm; apply Hin; now right).
        cbn [List.map]. now rewrite <- app_assoc.
Qed.

(** The listing of an existing parent never fails on a snapshot: it
    holds one entry for each name the query returns that loads, in the
    order the query returns them, and skips the others; references for
    recursion 0, bodies otherwise.  When the parent's name and the delimiter
    are ASCII, the names the query returns are those of the Snapshot records
    that start with [<parent><delimiter>]. *)
Theorem containerSnapshotsGet_lists_loadable env w recursionStr cname :
  ls_load_err env cname = None ->
  str_in cname (names_of (w_db w)) = true ->
  ls_query_err env = None ->
  let returned :=
    select_snapshot_names (w_db w) (String.length (cname +:+ delim)) (cname +:+ delim) in
  let listed := List.filter (loads env) returned in
  containerSnapshotsGet delim api stateDir env w recursionStr cname
  = (if match Atoi recursionStr with Some n => n | None => 0 end =? 0
     then SyncResponse true (BodyStrings (List.map (snapshot_url api cname) listed))
     else SyncResponse true
            (BodyMaps (List.map (fun n => (n, PathExists (stateDir n) w)) listed)))
  /\ (is_ascii cname = true -> is_ascii delim = true ->
      returned = names_of (List.filter (snapshot_under (cname +:+ delim)) (w_db w))).
Proof.
  intros Hl Hin Hq returned listed. split.
  - unfold containerSnapshotsGet, newLxdContainer.
    rewrite Hl, Hin, Hq. rewrite containerSnapshotsGet_loop_spec.
    + fold returned. fold listed. now destruct (_ =? 0).
    + intros n Hn. apply select_snapshot_names_in_table in Hn as (r & Hr & <- & _).
      now apply str_in_names.
  - intros Hac Had. subst returned. unfold select_snapshot_names. f_equal.
    apply List.filter_ext. intros r. apply where_type_prefix_ascii.
    now rewrite is_ascii_app, Hac, Had.
Qed.

(** Every reference in the listing belongs to a Snapshot record of this
    parent, and it is built from the full record name: the path ends in
    [/snapshots/<parent><delimiter><leaf>]. *)
Theorem containerSnapshotsGet_references env w recursionStr cname urls url :
  containerSnapshotsGet delim api stateDir env w recursionStr cname
    = SyncResponse true (BodyStrings urls) ->
  In url urls ->
  exists leaf r,
    In r (w_db w) /\ row_type r = cTypeSnapshot
    /\ row_name r = cname +:+ delim +:+ leaf
    /\ url = "/" +:+ api +:+ "/containers/" +:+ cname +:+ "/snapshots/"
             +:+ cname +:+ delim +:+ leaf.
Proof.
  unfold containerSnapshotsGet.
  destruct (newLxdContainer (ls_load_err env cname) cname w) as [e|c] eqn:Hload;
    [discriminate|].
  destruct (ls_query_err env); [discriminate|].
  rewrite containerSnapshotsGet_loop_spec.
  2:{ intros n Hn. apply select_snapshot_names_in_table in Hn as (r & Hr & <- & _).
      now apply str_in_names. }
  destruct (_ =? 0); [|discriminate].
  intros [= <-] Hin. simpl in Hin.
  apply in_map_iff in Hin as (n & <- & Hn). apply filter_In in Hn as (Hn & _).
  apply select_snapshot_names_in_table in Hn as (r & Hr & <- & Hw).
  unfold where_type_prefix in Hw. apply andb_prop in Hw as (Ht & Hp).
  apply sql_substr_eq_split in Hp.
  exists (slice_from (String.length (cname +:+ delim)) (row_name r)), r.
  split; [exact Hr|]. split; [now destruct (row_type r)|].
  rewrite <- str_app_assoc, <- Hp. split; reflexivity.
Qed.

Lemma containerSnapshotsGet_loop_recursion env w r1 r2 cname results rs rm :
  (r1 =? 0) = (r2 =? 0) ->
  containerSnapshotsGet_loop api stateDir env w r1 cname results rs rm
  = containerSnapshotsGet_loop api stateDir env w r2 cname results rs rm.
Proof.
  intros H. revert rs rm. induction results as [|n rest IH]; intros rs rm;
    [reflexivity|].
  cbn [containerSnapshotsGet_loop]. rewrite H.
  destruct (newLxdContainer (ls_load_err env n) n w); [apply IH|].
  destruct (r2 =? 0); apply IH.
Qed.

(** The [recursion] parameter only distinguishes 0 from the rest: a value
    that is not a number is read as 0, and every other number, negative
    ones included, is read as 1. *)
Theorem containerSnapshotsGet_recursion env w recursionStr cname :
  (Atoi recursionStr = None ->
     containerSnapshotsGet delim api stateDir env w recursionStr cname
     = containerSnapshotsGet delim api stateDir env w "0" cname)
  /\ (forall n, Atoi recursionStr = Some n -> n <> 0 ->
        containerSnapshotsGet delim api stateDir env w recursionStr cname
        = containerSnapshotsGet delim api stateDir env w "1" cname).
Proof.
  split.
  - intros H. unfold containerSnapshotsGet. rewrite H. reflexivity.
  - intros n H Hn. unfold containerSnapshotsGet. rewrite H.
    change (Atoi "1") with (Some 1).
    destruct (newLxdContainer (ls_load_err env cname) cname w); [reflexivity|].
    destruct (ls_query_err env); [reflexivity|].
    assert (E : (n =? 0) = (1 =? 0)) by (apply Z.eqb_neq in Hn; now rewrite Hn).
    rewrite (containerSnapshotsGet_loop_recursion env w n 1) by exact E.
    now rewrite E.
Qed.

(** The listing and the single GET agree on a snapshot's [stateful] flag
    but not on its name: the listing gives the full record name
    [<parent><delimiter><leaf>], the single GET gives the leaf. *)
Theorem containerSnapshotsGet_agrees_with_snapshotGet env w recursionStr cname
    maps n st body :
  containerSnapshotsGet delim api stateDir env w recursionStr cname
    = SyncResponse true (BodyMaps maps) ->
  In (n, st) maps ->
  exists leaf,
    n = cname +:+ delim +:+ leaf
    /\ snapshotHandler delim stateDir (ls_load_err env n) w "GET" cname leaf body
       = SyncResponse true (BodyMap leaf st).
Proof.
  unfold containerSnapshotsGet.
  destruct (newLxdContainer (ls_load_err env cname) cname w) as [e|c]; [discriminate|].
  destruct (ls_query_err env); [discriminate|].
  rewrite containerSnapshotsGet_loop_spec.
  2:{ intros m Hm. apply select_snapshot_names_in_table in Hm as (r & Hr & <- & _).
      now apply str_in_names. }
  destruct (_ =? 0); [discriminate|].
  intros [= <-] Hin. simpl in Hin.
  apply in_map_iff in Hin as (m & [= <- <-] & Hm). apply filter_In in Hm as (Hm & Hload).
  apply select_snapshot_names_in_table in Hm as (r & Hr & <- & Hw).
  unfold where_type_prefix in Hw. apply andb_prop in Hw as (_ & Hp).
  apply sql_substr_eq_split in Hp. rewrite str_app_assoc in Hp.
  exists (slice_from (String.length (cname +:+ delim)) (row_name r)).
  split; [exact Hp|].
  unfold snapshotHandler, newLxdContainer. rewrite <- Hp.
  unfold loads in Hload. destruct (ls_load_err env (row_name r)); [discriminate|].
  rewrite (str_in_names _ _ Hr). reflexivity.
Qed.

(** The single-snapshot handler answers an unknown snapshot with the load
    error whatever the method, and starts an operation only for POST and
    DELETE, always on the record [<container><delimiter><snapshot>]: a rename
    within the same parent, or the delete. *)
Theorem snapshotHandler_operations lerr w method cname sname body :
  let sc := cname +:+ delim +:+ sname in
  (forall err, newLxdContainer lerr sc w = inl err ->
     snapshotHandler delim stateDir lerr w method cname sname body
     = Other (SmartError err))
  /\ (forall op,
        snapshotHandler delim stateDir lerr w method cname sname body
        = Other (AsyncResponse op) ->
        str_in sc (names_of (w_db w)) = true
        /\ ((method = "POST" /\ exists newName, op = OpRename sc (cname +:+ delim +:+ newName))
            \/ (method = "DELETE" /\ op = OpDelete sc))).
Proof.
  intros sc. split.
  - intros err H. unfold snapshotHandler. fold sc. now rewrite H.
  - intros op. unfold snapshotHandler. fold sc. unfold newLxdContainer.
    destruct lerr; [discriminate|].
    destruct (str_in sc (names_of (w_db w))); [|discriminate].
    destruct (String.eqb method "GET"); [discriminate|].
    destruct (String.eqb method "POST") eqn:Hp.
    + apply String.eqb_eq in Hp as ->. unfold snapshotPost.
      destruct body as [raw|]; [|discriminate].
      destruct (GetString raw "name") as [e|newName]; [discriminate|].
      intros [= <-]. split; [reflexivity|]. left. split; [reflexivity|]. now exists newName.
    + destruct (String.eqb method "DELETE") eqn:Hd; [|discriminate].
      apply String.eqb_eq in Hd as ->. intros [= <-]. split; [reflexivity|]. now right.
Qed.

End ListingFacts.

Section ListingExamples.
Import Snapshot Listing Samples.

Lemma containerSnapshotsGet_lists_loadable_witness :
  containerSnapshotsGet "/" "1.0" StateDirGet snap1_broken web_and_neighbour "" "web"
  = SyncResponse true (BodyStrings ["/1.0/containers/web/snapshots/web/snap0"])
  /\ select_snapshot_names (w_db web_and_neighbour) 4 "web/" = ["web/snap0"; "web/snap1"].
Proof.
  destruct (containerSnapshotsGet_lists_loadable "/" "1.0" StateDirGet snap1_broken
              web_and_neighbour "" "web" eq_refl eq_refl eq_refl) as (A & B).
  split; [exact A|exact (B eq_refl eq_refl)].
Defined.

Lemma containerSnapshotsGet_references_witness :
  exists leaf r,
    In r (w_db web_and_neighbour) /\ row_type r = cTypeSnapshot
    /\ row_name r = "web" +:+ "/" +:+ leaf
    /\ "/1.0/containers/web/snapshots/web/snap0"
       = "/" +:+ "1.0" +:+ "/containers/" +:+ "web" +:+ "/snapshots/"
         +:+ "web" +:+ "/" +:+ leaf.
Proof.
  apply (containerSnapshotsGet_references "/" "1.0" StateDirGet snap1_broken
           web_and_neighbour "" "web"
           ["/1.0/containers/web/snapshots/web/snap0"]);
    [reflexivity|now left].
Defined.

Lemma containerSnapshotsGet_agrees_with_snapshotGet_witness :
  exists leaf,
    "web/snap0" = "web" +:+ "/" +:+ leaf
    /\ snapshotHandler "/" StateDirGet (ls_load_err snap1_broken "web/snap0")
         web_and_neighbour "GET" "web" leaf None
       = SyncResponse true (BodyMap leaf true).
Proof.
  apply (containerSnapshotsGet_agrees_with_snapshotGet "/" "1.0" StateDirGet
           snap1_broken web_and_neighbour "1" "web" [("web/snap0", true)]);
    [reflexivity|now left].
Defined.

End ListingExamples.

(** ** Restart on boot, continued *)

Section RestartMore.
Import Containers Samples.

Lemma trace_of_app w w' t : w_log w' = w_log w ++ t -> trace_of w w' = t.
Proof.
  unfold trace_of. intros ->. rewrite List.skipn_app, List.skipn_all, Nat.sub_diag.
  reflexivity.
Qed.

Lemma select_power_on_cleared t : select_power_on (clear_power_states t) = [].
Proof.
  unfold select_power_on, clear_power_states.
  induction t as [|r t IH]; [reflexivity|]. simpl.
  rewrite andb_false_r. exact IH.
Qed.

Lemma clear_power_states_twice t :
  clear_power_states (clear_power_states t) = clear_power_states t.
Proof. unfold clear_power_states. rewrite List.map_map. reflexivity. Qed.

(** Restart-on-boot consumes the flags: run again after a restart whose
    query and update succeeded, it clears the (already clear) flags, starts
    nothing and returns [nil]. *)
Theorem containersRestart_second_run_starts_nothing env1 env2 w :
  rs_query_err env1 = None -> rs_update_err env1 = None ->
  rs_query_err env2 = None -> rs_update_err env2 = None ->
  let w1 := snd (containersRestart env1 w) in
  let r2 := containersRestart env2 w1 in
  fst r2 = None
  /\ trace_of w1 (snd r2) = [EvClearPowerStates]
  /\ w_db (snd r2) = w_db w1
  /\ w_running (snd r2) = w_running w1.
Proof.
  intros Hq1 Hu1 Hq2 Hu2 w1 r2.
  assert (Hdb1 : w_db w1 = clear_power_states (w_db w)).
  { subst w1. unfold containersRestart. rewrite Hq1, Hu1.
    (* the loop leaves the table alone *)
    assert (G : forall result w0, w_db (snd (containersRestart_loop env1 result w0)) = w_db w0).
    { induction result as [|n rest IH]; intros w0; [reflexivity|]. simpl.
      destruct (newLxdContainer (rs_load_err env1 n) n w0); [reflexivity|].
      rewrite IH. unfold Start. destruct (rs_start_err env1 s); reflexivity. }
    rewrite G. reflexivity. }
  subst r2. unfold containersRestart. rewrite Hq2, Hu2, Hdb1.
  rewrite select_power_on_cleared, clear_power_states_twice. simpl.
  repeat split; auto. now apply trace_of_app.
Qed.

Lemma containersRestart_second_run_starts_nothing_witness :
  let w1 := snd (containersRestart db_start_fails flagged_pair) in
  fst (containersRestart db_start_fails w1) = None
  /\ trace_of w1 (snd (containersRestart db_start_fails w1)) = [EvClearPowerStates].
Proof.
  destruct (containersRestart_second_run_starts_nothing db_start_fails db_start_fails
              flagged_pair eq_refl eq_refl eq_refl eq_refl) as (A & B & _).
  split; [exact A|exact B].
Defined.

Lemma containersRestart_loop_starts env result :
  forall w,
  exists starts,
    w_log (snd (containersRestart_loop env result w)) = w_log w ++ starts
    /\ forall n ok, In (EvStart n ok) starts -> In n result.
Proof.
  induction result as [|n rest IH]; intros w.
  - exists []. simpl. rewrite app_nil_r. split; [reflexivity|intros ? ? []].
  - simpl. destruct (newLxdContainer (rs_load_err env n) n w) as [e|c] eqn:Hl.
    + exists []. simpl. rewrite app_nil_r. split; [reflexivity|intros ? ? []].
    + assert (c = n) as ->.
      { unfold newLxdContainer in Hl. destruct (rs_load_err env n); [discriminate|].
        destruct (str_in n (names_of (w_db w))); now inversion Hl. }
      destruct (IH (Start (rs_start_err env n) n w)) as (starts & Hlog & Hin).
      exists (EvStart n (if rs_start_err env n is Some _ then false else true) :: starts).
      split.
      * rewrite Hlog. unfold Start. destruct (rs_start_err env n); simpl;
          now rewrite <- app_assoc.
      * intros m ok [Hm|Hm]; [injection Hm as <- _; now left|right; eauto].
Qed.

(** Only containers that were flagged are started: every start is that of
    a Regular record whose [power_state] was 1 when the call began; a
    Snapshot record is never started. *)
Theorem containersRestart_starts_flagged_only env w n ok :
  In (EvStart n ok) (trace_of w (snd (containersRestart env w))) ->
  exists r, In r (w_db w) /\ row_name r = n
            /\ row_type r = cTypeRegular /\ row_power_state r = 1.
Proof.
  unfold containersRestart.
  destruct (rs_query_err env).
  { simpl. rewrite (trace_of_app w w []) by now rewrite app_nil_r. intros []. }
  destruct (rs_update_err env).
  { simpl. rewrite (trace_of_app w w []) by now rewrite app_nil_r. intros []. }
  set (w1 := emit _ _).
  destruct (containersRestart_loop_starts env (select_power_on (w_db w)) w1)
    as (starts & Hlog & Hin).
  rewrite (trace_of_app w _ (EvClearPowerStates :: starts)).
  2:{ rewrite Hlog. unfold w1. simpl. now rewrite <- app_assoc. }
  intros [H|H]; [discriminate|].
  apply Hin in H. unfold select_power_on, names_of in H.
  apply in_map_iff in H as (r & <- & Hr). apply filter_In in Hr as (Hr & Hf).
  apply andb_prop in Hf as (Ht & Hp). apply Z.eqb_eq in Hp.
  exists r. repeat split; auto. now destruct (row_type r).
Qed.

Lemma containersRestart_starts_flagged_only_witness :
  exists r, In r (w_db flagged_pair) /\ row_name r = "web"
            /\ row_type r = cTypeRegular /\ row_power_state r = 1.
Proof.
  apply (containersRestart_starts_flagged_only db_start_fails flagged_pair "web" true).
  vm_compute. right. now left.
Defined.

End RestartMore.

(** ** Bulk shutdown, continued *)

Section ShutdownMore.
Import Containers Samples.

Lemma str_in_remove_other n r l :
  n <> r -> str_in n (remove_str r l) = str_in n l.
Proof.
  intros Hne. unfold str_in, remove_str. induction l as [|x l IH]; [reflexivity|].
  simpl. destruct (String.eqb r x) eqn:E; simpl.
  - apply String.eqb_eq in E as <-.
    replace (String.eqb n r) with false by (symmetry; now apply String.eqb_neq).
    exact IH.
  - now rewrite IH.
Qed.

Lemma str_in_remove_shrinks n r l :
  str_in n l = false -> str_in n (remove_str r l) = false.
Proof.
  intros H. destruct (String.eqb n r) eqn:E.
  - apply String.eqb_eq in E as ->. apply str_in_remove_str.
  - apply String.eqb_neq in E. now rewrite str_in_remove_other.
Qed.

Lemma ListRegularContainers_set_power_state r t :
  ListRegularContainers (set_power_state r t) = ListRegularContainers t.
Proof.
  unfold ListRegularContainers, set_power_state, names_of.
  induction t as [|x t IH]; [reflexivity|]. simpl.
  destruct (String.eqb (row_name x) r); simpl;
    destruct (containerType_eqb (row_type x) cTypeRegular); simpl; now rewrite IH.
Qed.

Lemma select_power_on_set_power_state_mono r t n :
  In n (select_power_on t) -> In n (select_power_on (set_power_state r t)).
Proof.
  unfold select_power_on, set_power_state, names_of. intros H.
  apply in_map_iff in H as (x & <- & Hx). apply filter_In in Hx as (Hx & Hf).
  apply in_map_iff.
  exists (if String.eqb (row_name x) r
          then mkRow (row_id x) (row_name x) (row_type x) 1 else x).
  split; [now destruct (String.eqb (row_name x) r)|].
  apply filter_In. split.
  - apply in_map_iff. exists x. auto.
  - destruct (String.eqb (row_name x) r); [|exact Hf]. simpl.
    apply andb_prop in Hf as (-> & _). reflexivity.
Qed.

Lemma select_power_on_set_power_state_self r t :
  In r (ListRegularContainers t) -> In r (select_power_on (set_power_state r t)).
Proof.
  unfold ListRegularContainers, select_power_on, set_power_state, names_of. intros H.
  apply in_map_iff in H as (x & <- & Hx). apply filter_In in Hx as (Hx & Hf).
  apply in_map_iff. exists (mkRow (row_id x) (row_name x) (row_type x) 1).
  split; [reflexivity|]. apply filter_In. split.
  - apply in_map_iff. exists x. now rewrite String.eqb_refl.
  - simpl. now rewrite Hf.
Qed.

Lemma ListRegularContainers_named t n :
  In n (ListRegularContainers t) -> str_in n (names_of t) = true.
Proof.
  unfold ListRegularContainers, names_of. intros H.
  apply in_map_iff in H as (x & <- & Hx). apply filter_In in Hx as (Hx & _).
  apply existsb_exists. exists (row_name x). split; [now apply in_map|apply String.eqb_refl].
Qed.

Lemma shut_one_effect env r w :
  w_db (shut_one env r w) = set_power_state r (w_db w)
  /\ w_running (shut_one env r w)
     = if sd_stop_ok env r then remove_str r (w_running w) else w_running w.
Proof.
  unfold shut_one, wg_Wait, shutdown_task. simpl.
  destruct (sd_stop_ok env r); auto.
Qed.

(** The loop when no call fails. *)
Lemma containersShutdown_loop_all_fine env results :
  (forall m, sd_load_err env m = None) ->
  (forall m, sd_exec_err env m = None) ->
  forall w,
  (forall m, In m results -> In m (ListRegularContainers (w_db w))) ->
  let r := containersShutdown_loop env results [] w in
  fst (fst r) = None
  /\ ListRegularContainers (w_db (snd r)) = ListRegularContainers (w_db w)
  /\ (forall n, In n (select_power_on (w_db w)) -> In n (select_power_on (w_db (snd r))))
  /\ (forall n, IsRunning n w = false -> IsRunning n (snd r) = false)
  /\ (forall n, In n results -> IsRunning n w = true ->
        In n (select_power_on (w_db (snd r)))
        /\ (sd_stop_ok env n = true -> IsRunning n (snd r) = false)).
Proof.
  intros Hload Hexec. induction results as [|r rest IH]; intros w Hreg.
  - simpl. repeat split; auto; intros; contradiction.
  - cbn [containersShutdown_loop]. unfold newLxdContainer. rewrite Hload.
    rewrite (ListRegularContainers_named _ r (Hreg r (or_introl eq_refl))).
    destruct (IsRunning r w) eqn:Hrun.
    + rewrite Hexec. cbn [app]. fold (shut_one env r w).
      destruct (shut_one_effect env r w) as (Hdb1 & Hrun1).
      destruct (IH (shut_one env r w)) as (Hres & Hlist & Hflag & Hshrink & Hmain).
      { intros m Hm. rewrite Hdb1, ListRegularContainers_set_power_state.
        apply Hreg. now right. }
      assert (Hshrink1 : forall n, IsRunning n w = false -> IsRunning n (shut_one env r w) = false).
      { intros n Hn. unfold IsRunning in *. rewrite Hrun1.
        destruct (sd_stop_ok env r); [now apply str_in_remove_shrinks|exact Hn]. }
      split; [exact Hres|]. split; [|split; [|split]].
      * now rewrite Hlist, Hdb1, ListRegularContainers_set_power_state.
      * intros n Hn. apply Hflag. rewrite Hdb1.
        now apply select_power_on_set_power_state_mono.
      * intros n Hn. apply Hshrink. now apply Hshrink1.
      * intros n Hin Hn. destruct (String.eqb n r) eqn:E.
        -- apply String.eqb_eq in E as ->. split.
           ++ apply Hflag. rewrite Hdb1. apply select_power_on_set_power_state_self.
              apply Hreg. now left.
           ++ intros Hstop. apply Hshrink. unfold IsRunning. rewrite Hrun1, Hstop.
              apply str_in_remove_str.
        -- apply String.eqb_neq in E. destruct Hin as [->|Hin]; [contradiction|].
           apply Hmain; [exact Hin|]. unfold IsRunning in *. rewrite Hrun1.
           destruct (sd_stop_ok env r); [now rewrite str_in_remove_other|exact Hn].
    + change (wg_Wait env [] w) with (emit w EvWgWait).
      destruct (IH (emit w EvWgWait)) as (Hres & Hlist & Hflag & Hshrink & Hmain).
      { intros m Hm. apply Hreg. now right. }
      split; [exact Hres|]. split; [exact Hlist|]. split; [exact Hflag|].
      split; [exact Hshrink|].
      intros n [->|Hin] Hn; [unfold IsRunning in *; simpl in *; congruence|].
      now apply Hmain.
Qed.

(** When no call fails, shutdown returns [nil], and every Regular
    container that was running is flagged for restart-on-boot (the next
    [containersRestart] selects it) and, if it can be brought down, is
    stopped. *)
Theorem containersShutdown_flags_and_stops env w n :
  sd_list_err env = None ->
  (forall m, sd_load_err env m = None) ->
  (forall m, sd_exec_err env m = None) ->
  In n (ListRegularContainers (w_db w)) ->
  IsRunning n w = true ->
  let r := containersShutdown env w in
  fst (fst r) = None
  /\ In n (select_power_on (w_db (snd r)))
  /\ (sd_stop_ok env n = true -> IsRunning n (snd r) = false).
Proof.
  intros Hlist Hload Hexec Hn Hrun. unfold containersShutdown. rewrite Hlist.
  destruct (containersShutdown_loop_all_fine env (ListRegularContainers (w_db w))
              Hload Hexec w (fun m Hm => Hm)) as (Hres & _ & _ & _ & Hmain).
  destruct (Hmain n Hn Hrun) as (A & B). auto.
Qed.

Lemma containersShutdown_flags_and_stops_witness :
  fst (fst (containersShutdown all_fine running_pair)) = None
  /\ In "b" (select_power_on (w_db (snd (containersShutdown all_fine running_pair))))
  /\ IsRunning "b" (snd (containersShutdown all_fine running_pair)) = false.
Proof.
  destruct (containersShutdown_flags_and_stops all_fine running_pair "b" eq_refl
              (fun _ => eq_refl) (fun _ => eq_refl)) as (A & B & C);
    [vm_compute; right; now left|reflexivity|].
  split; [exact A|]. split; [exact B|now apply C].
Defined.

Lemma filter_named_set_power_state n r t :
  n <> r ->
  List.filter (fun x => String.eqb (row_name x) n) (set_power_state r t)
  = List.filter (fun x => String.eqb (row_name x) n) t.
Proof.
  intros Hne. unfold set_power_state. induction t as [|x t IH]; [reflexivity|]. simpl.
  destruct (String.eqb (row_name x) r) eqn:E; simpl; [|now rewrite IH].
  apply String.eqb_eq in E.
  replace (String.eqb (row_name x) n) with false
    by (symmetry; apply String.eqb_neq; congruence).
  exact IH.
Qed.

Lemma containersShutdown_loop_untouched env n results :
  forall w, IsRunning n w = false ->
  let r := containersShutdown_loop env results [] w in
  List.filter (fun x => String.eqb (row_name x) n) (w_db (snd r))
  = List.filter (fun x => String.eqb (row_name x) n) (w_db w)
  /\ IsRunning n (snd r) = false.
Proof.
  induction results as [|r rest IH]; intros w Hn; [simpl; auto|].
  cbn [containersShutdown_loop].
  destruct (newLxdContainer (sd_load_err env r) r w) as [e|c]; [simpl; auto|].
  destruct (IsRunning c w) eqn:Hrun.
  - destruct (sd_exec_err env c); [simpl; auto|].
    cbn [app]. fold (shut_one env c w).
    destruct (shut_one_effect env c w) as (Hdb1 & Hrun1).
    assert (Hne : n <> c) by (intros ->; congruence).
    destruct (IH (shut_one env c w)) as (A & B).
    { unfold IsRunning in *. rewrite Hrun1.
      destruct (sd_stop_ok env c); [now apply str_in_remove_shrinks|exact Hn]. }
    split; [|exact B]. rewrite A, Hdb1. now apply filter_named_set_power_state.
  - change (wg_Wait env [] w) with (emit w EvWgWait).
    destruct (IH (emit w EvWgWait) Hn) as (A & B). auto.
Qed.

(** A container that is not running is left alone by the shutdown: its
    record keeps the flag it had (no [power_state] is written for it) and it
    is not started, whatever else fails or succeeds. *)
Theorem containersShutdown_leaves_stopped_alone env w n :
  IsRunning n w = false ->
  let r := containersShutdown env w in
  List.filter (fun x => String.eqb (row_name x) n) (w_db (snd r))
  = List.filter (fun x => String.eqb (row_name x) n) (w_db w)
  /\ IsRunning n (snd r) = false.
Proof.
  intros Hn. unfold containersShutdown. destruct (sd_list_err env); [simpl; auto|].
  now apply containersShutdown_loop_untouched.
Qed.

Lemma containersShutdown_leaves_stopped_alone_witness :
  List.filter (fun x => String.eqb (row_name x) "web")
    (w_db (snd (containersShutdown all_fine flagged_pair)))
  = [mkRow 1 "web" cTypeRegular 1]
  /\ IsRunning "web" (snd (containersShutdown all_fine flagged_pair)) = false.
Proof.
  exact (containersShutdown_leaves_stopped_alone all_fine flagged_pair "web" eq_refl).
Defined.

End ShutdownMore.

(** ** Cascade delete, continued *)

Section CascadeMore.
Import Containers Samples.

Variable delim : string.
Variable varPath : string -> string -> string.

Lemma select_snapshots_ids t n pat :
  List.map snd (select_snapshots t n pat)
  = List.map row_id (List.filter (where_type_prefix cTypeSnapshot n pat) t).
Proof. unfold select_snapshots. rewrite List.map_map. reflexivity. Qed.

(** A run whose query and detection pass goes through both loops. *)
Lemma containerDeleteSnapshots_run env w cname :
  cd_query_err env = None ->
  (forall err, cd_detect_err env <> Some (err, false)) ->
  let results :=
    select_snapshots (w_db w) (String.length (cname +:+ delim)) (cname +:+ delim) in
  exists w1,
    containerDeleteSnapshots delim varPath env w cname
      = cascade_db_loop env (List.map snd results) w1
    /\ w1 = snd (cascade_fs_loop varPath env (cd_backingFs env) results [] w)
    /\ w_db w1 = w_db w.
Proof.
  intros Hq Hd results. unfold containerDeleteSnapshots. rewrite Hq. fold results.
  pose proof (cascade_fs_loop_spec varPath env (cd_backingFs env) results [] w) as Hfs.
  destruct (cascade_fs_loop varPath env (cd_backingFs env) results [] w) as [ids w1].
  simpl in Hfs. destruct Hfs as (-> & Hdb & _).
  exists w1. split; [|split; [reflexivity|exact Hdb]].
  destruct (cd_detect_err env) as [[err [|]]|]; try reflexivity.
  exfalso. exact (Hd err eq_refl).
Qed.

Lemma without_ids_no_match (P : row -> bool) t :
  List.filter P (without_ids (List.map row_id (List.filter P t)) t) = [].
Proof.
  apply filter_none. intros x Hx. unfold without_ids in Hx.
  apply filter_In in Hx as (Hx & Hid).
  destruct (P x) eqn:HP; [|reflexivity].
  assert (E : existsb (Z.eqb (row_id x)) (List.map row_id (List.filter P t)) = true).
  { apply existsb_exists. exists (row_id x). split; [|apply Z.eqb_refl].
    apply in_map. apply filter_In. auto. }
  rewrite E in Hid. discriminate.
Qed.

(** The cascade can be run again: after a run in which every [DELETE]
    succeeded the cascade's query selects nothing any more, so a second run,
    once its query and the file-system detection are through, removes
    nothing from disk, issues no [DELETE], leaves the world as it is and
    returns [nil].  When the parent's name and the delimiter are ASCII, no
    Snapshot record that starts with [<parent><delimiter>] is left. *)
Theorem containerDeleteSnapshots_rerun_is_noop env env2 w cname :
  cd_query_err env = None ->
  (forall err, cd_detect_err env <> Some (err, false)) ->
  (forall id, cd_exec_err env id = None) ->
  cd_query_err env2 = None ->
  (forall err, cd_detect_err env2 <> Some (err, false)) ->
  let w' := snd (containerDeleteSnapshots delim varPath env w cname) in
  let again := containerDeleteSnapshots delim varPath env2 w' cname in
  select_snapshots (w_db w') (String.length (cname +:+ delim)) (cname +:+ delim) = []
  /\ again = (None, w')
  /\ trace_of w' (snd again) = []
  /\ (is_ascii cname = true -> is_ascii delim = true ->
      List.filter (snapshot_under (cname +:+ delim)) (w_db w') = []).
Proof.
  intros Hq Hd Hx Hq2 Hd2 w' again.
  destruct (containerDeleteSnapshots_run env w cname Hq Hd) as (w1 & Heq & _ & Hdb1).
  assert (Hdb : w_db w'
    = without_ids
        (List.map row_id
           (List.filter
              (where_type_prefix cTypeSnapshot (String.length (cname +:+ delim))
                 (cname +:+ delim)) (w_db w)))
        (w_db w)).
  { subst w'. rewrite Heq.
    match goal with |- context [cascade_db_loop env ?ids w1] =>
      destruct (proj2 (proj2 (cascade_db_loop_spec env ids w1)) (fun id _ => Hx id))
        as (_ & B)
    end.
    now rewrite B, Hdb1, select_snapshots_ids. }
  assert (Hfilter : List.filter
            (where_type_prefix cTypeSnapshot (String.length (cname +:+ delim))
               (cname +:+ delim)) (w_db w') = []).
  { rewrite Hdb. apply without_ids_no_match. }
  assert (Hnone : select_snapshots (w_db w') (String.length (cname +:+ delim))
                    (cname +:+ delim) = []).
  { unfold select_snapshots. rewrite Hfilter. reflexivity. }
  assert (Hagain : again = (None, w')).
  { subst again. unfold containerDeleteSnapshots. rewrite Hq2, Hnone.
    destruct (cd_detect_err env2) as [[err [|]]|]; try reflexivity.
    exfalso. exact (Hd2 err eq_refl). }
  split; [exact Hnone|]. split; [exact Hagain|]. split.
  - rewrite Hagain. unfold trace_of. cbn [snd]. apply skipn_all.
  - intros Hac Had. rewrite <- Hfilter. apply List.filter_ext. intros r.
    symmetry. apply where_type_prefix_ascii. now rewrite is_ascii_app, Hac, Had.
Qed.

Lemma NoDup_map_inj {A B} (f : A -> B) (l : list A) x y :
  List.NoDup (List.map f l) -> In x l -> In y l -> f x = f y -> x = y.
Proof.
  induction l as [|a l IH]; intros Hnd Hx Hy Hf; [contradiction|].
  simpl in Hnd. inversion Hnd as [|? ? Hnotin Hnd']; subst.
  destruct Hx as [->|Hx], Hy as [->|Hy]; auto.
  - exfalso. apply Hnotin. rewrite Hf. now apply in_map.
  - exfalso. apply Hnotin. rewrite <- Hf. now apply in_map.
Qed.

Lemma without_ids_exact (P : row -> bool) t :
  List.NoDup (List.map row_id t) ->
  without_ids (List.map row_id (List.filter P t)) t
  = List.filter (fun r => negb (P r)) t.
Proof.
  intros Hnd. unfold without_ids. apply List.filter_ext_in. intros r Hr. f_equal.
  destruct (P r) eqn:HP.
  - apply existsb_exists. exists (row_id r). split; [|apply Z.eqb_refl].
    apply in_map. apply filter_In. auto.
  - destruct (existsb _ _) eqn:E; [|reflexivity].
    apply existsb_exists in E as (id & Hid & Heq). apply Z.eqb_eq in Heq.
    apply in_map_iff in Hid as (r' & <- & Hr'). apply filter_In in Hr' as (Hr' & HP').
    assert (r = r') by (eapply NoDup_map_inj; eauto). congruence.
Qed.

(** With ids that identify the rows, a cascade in which every [DELETE]
    succeeded removed exactly the records its query selects and kept the
    others, in order.  When the parent's name and the delimiter are ASCII
    these are the Snapshot records that start with [<parent><delimiter>]:
    the parent's own record, the other containers and their snapshots are
    kept. *)
Theorem containerDeleteSnapshots_deletes_exactly env w cname :
  cd_query_err env = None ->
  (forall err, cd_detect_err env <> Some (err, false)) ->
  (forall id, cd_exec_err env id = None) ->
  List.NoDup (List.map row_id (w_db w)) ->
  let w' := snd (containerDeleteSnapshots delim varPath env w cname) in
  w_db w'
  = List.filter
      (fun r =>
         negb (where_type_prefix cTypeSnapshot (String.length (cname +:+ delim))
                 (cname +:+ delim) r))
      (w_db w)
  /\ (is_ascii cname = true -> is_ascii delim = true ->
      w_db w' = List.filter (fun r => negb (snapshot_under (cname +:+ delim) r)) (w_db w)).
Proof.
  intros Hq Hd Hx Hnd w'.
  assert (Hdb : w_db w'
    = List.filter
        (fun r =>
           negb (where_type_prefix cTypeSnapshot (String.length (cname +:+ delim))
                   (cname +:+ delim) r))
        (w_db w)).
  { subst w'.
    destruct (containerDeleteSnapshots_run env w cname Hq Hd) as (w1 & Heq & _ & Hdb1).
    rewrite Heq.
    match goal with |- context [cascade_db_loop env ?ids w1] =>
      destruct (proj2 (proj2 (cascade_db_loop_spec env ids w1)) (fun id _ => Hx id))
        as (_ & B)
    end.
    rewrite B, Hdb1, select_snapshots_ids. now apply without_ids_exact. }
  split; [exact Hdb|].
  intros Hac Had. rewrite Hdb. apply List.filter_ext. intros r. f_equal.
  apply where_type_prefix_ascii. now rewrite is_ascii_app, Hac, Had.
Qed.






End CascadeMore.

Section CascadeMoreExamples.
Import Containers Samples.

Lemma containerDeleteSnapshots_rerun_is_noop_witness :
  let w' := snd (containerDeleteSnapshots "/" VarPath on_btrfs web_with_snap0 "web") in
  select_snapshots (w_db w') (String.length ("web" +:+ "/")) ("web" +:+ "/") = []
  /\ containerDeleteSnapshots "/" VarPath removals_fail w' "web" = (None, w')
  /\ List.filter (snapshot_under "web/") (w_db w') = [].
Proof.
  destruct (containerDeleteSnapshots_rerun_is_noop "/" VarPath on_btrfs removals_fail
              web_with_snap0 "web" eq_refl ltac:(discriminate) (fun _ => eq_refl)
              eq_refl ltac:(discriminate)) as (A & B & _ & D).
  split; [exact A|]. split; [exact B|exact (D eq_refl eq_refl)].
Defined.

Lemma containerDeleteSnapshots_deletes_exactly_witness :
  w_db (snd (containerDeleteSnapshots "/" VarPath
               (mkCascadeEnv None "dir" None (fun _ => true) (fun _ => true)
                  (fun _ => None))
               web_and_neighbour "web"))
  = [mkRow 1 "web" cTypeRegular 0; mkRow 4 "web2" cTypeRegular 0;
     mkRow 5 "web2/snap0" cTypeSnapshot 0].
Proof.
  refine (proj2 (containerDeleteSnapshots_deletes_exactly "/" VarPath
                   (mkCascadeEnv None "dir" None (fun _ => true) (fun _ => true)
                      (fun _ => None))
                   web_and_neighbour "web" eq_refl ltac:(discriminate)
                   (fun _ => eq_refl) _) eq_refl eq_refl).
  repeat constructor; simpl; intuition discriminate.
Defined.


End CascadeMoreExamples.

(** ** The archive as a whole *)

Section ArchiveInvariant.
Import Archive Samples.

Lemma FileInfoHeader_not_link fi link hdr :
  FileInfoHeader fi link = inr hdr -> Typeflag_of hdr <> TypeLink.
Proof.
  unfold FileInfoHeader.
  repeat match goal with
         | |- context [if ?b then _ else _] => destruct b
         end; intros [= <-]; discriminate.
Qed.

Lemma WriteHeader_cases outcome hdr tw e tw1 :
  WriteHeader outcome hdr tw = (e, tw1) ->
  (e = None /\ tw_hdrs tw1 = tw_hdrs tw ++ [hdr] /\ ~ writer_dead tw)
  \/ (e <> None /\ tw_hdrs tw1 = tw_hdrs tw /\ writer_dead tw1).
Proof.
  unfold WriteHeader, writer_dead.
  destruct (tw_err tw) eqn:He;
    [intros [= <- <-]; right; repeat split; [discriminate|left; congruence]|].
  destruct (tw_closed tw) eqn:Hc;
    [intros [= <- <-]; right; repeat split; [discriminate|now right]|].
  destruct (tw_nb tw >? 0);
    [intros [= <- <-]; right; repeat split; [discriminate|left; discriminate]|].
  destruct outcome; intros [= <- <-].
  - right. repeat split; [discriminate|left; discriminate].
  - left. repeat split. intros [H|H]; congruence.
Qed.

Lemma links_resolved_grow hdrs h :
  links_resolved hdrs ->
  (Typeflag_of h = TypeLink ->
     Size h = 0 /\ exists j h0, hdrs !! j = Some h0
                                /\ Typeflag_of h0 = TypeReg /\ Name h0 = Linkname h) ->
  links_resolved (hdrs ++ [h]).
Proof.
  intros Hold Hnew i x Hx Hlink.
  destruct (decide (i < List.length hdrs)%nat) as [Hi|Hi].
  - rewrite lookup_app_l in Hx by exact Hi.
    destruct (Hold i x Hx Hlink) as (Hs & j & h0 & Hj & Hh0 & Ht & Hn).
    split; [exact Hs|]. exists j, h0. split; [exact Hj|].
    split; [|auto]. rewrite lookup_app_l by lia. exact Hh0.
  - rewrite lookup_app_r in Hx by lia.
    destruct (i - List.length hdrs)%nat as [|k] eqn:Hk; [|now destruct k].
    simpl in Hx. injection Hx as <-.
    destruct (Hnew Hlink) as (Hs & j & h0 & Hh0 & Ht & Hn).
    split; [exact Hs|]. exists j, h0.
    pose proof (lookup_lt_Some _ _ _ Hh0).
    split; [lia|]. split; [|auto]. now rewrite lookup_app_l by lia.
Qed.

(** From [WriteHeader] on: both invariants survive, given that a hardlink
    header points into the map and that the map grew, if at all, by the name
    of the regular header being written. *)
Lemma store_tail_invariant (f : file) hdr2 (lm lm2 : gmap Z string) tw r lm'' tw' :
  match WriteHeader (f_write_err f) hdr2 tw with
  | (Some err, tw1) => (Err ("error writing header: " +:+ err +:+ nl), lm2, tw1)
  | (None, tw1) =>
      if Typeflag_eqb (Typeflag_of hdr2) TypeReg then
        match f_open_err f with
        | Some err => (Err ("tarStoreFile: error opening file: " +:+ err +:+ nl), lm2, tw1)
        | None =>
            match Copy (f_copy_err f) tw1 with
            | (Some err, tw2) => (Err ("error copying file " +:+ err +:+ nl), lm2, tw2)
            | (None, tw2) => (Nil, lm2, tw2)
            end
        end
      else (Nil, lm2, tw1)
  end = (r, lm'', tw') ->
  links_resolved (tw_hdrs tw) -> index_archived lm tw ->
  (Typeflag_of hdr2 = TypeLink ->
     Size hdr2 = 0 /\ exists ino, lm !! ino = Some (Linkname hdr2)) ->
  (lm2 = lm \/ (Typeflag_of hdr2 = TypeReg /\ exists ino, lm2 = <[ino := Name hdr2]> lm)) ->
  links_resolved (tw_hdrs tw') /\ index_archived lm'' tw'.
Proof.
  intros Hrun Hlinks Hidx Hlink Hmap.
  destruct (WriteHeader (f_write_err f) hdr2 tw) as [e tw1] eqn:Hw.
  apply WriteHeader_cases in Hw as [(-> & Hh & Halive)|(Hne & Hh & Hdead)].
  - assert (Hlm : lm'' = lm2 /\ tw_hdrs tw' = tw_hdrs tw ++ [hdr2]).
    { destruct (Typeflag_eqb (Typeflag_of hdr2) TypeReg).
      - destruct (f_open_err f); [injection Hrun as <- <- <-; auto|].
        destruct (Copy (f_copy_err f) tw1) as [[e|] tw2] eqn:Hc;
          apply Copy_headers in Hc; injection Hrun as <- <- <-; split; congruence.
      - injection Hrun as <- <- <-. auto. }
    destruct Hlm as (-> & Hh').
    destruct Hidx as [Hdead|Hidx]; [contradiction|].
    split.
    + rewrite Hh'. apply links_resolved_grow; [exact Hlinks|].
      intros Ht. destruct (Hlink Ht) as (Hs & ino & Hino).
      split; [exact Hs|]. exact (Hidx _ _ Hino).
    + right. intros ino n Hn. rewrite Hh'.
      assert (Hold : forall i m, lm !! i = Some m ->
        exists j h0, (tw_hdrs tw ++ [hdr2]) !! j = Some h0
                     /\ Typeflag_of h0 = TypeReg /\ Name h0 = m).
      { intros i m Hm. destruct (Hidx _ _ Hm) as (j & h0 & Hj & Ht & Hnm).
        exists j, h0. split; [|auto].
        rewrite lookup_app_l by (eapply lookup_lt_Some; eauto). exact Hj. }
      destruct Hmap as [->|(Ht & ino' & ->)]; [now apply (Hold ino)|].
      destruct (decide (ino' = ino)) as [->|Hne].
      * rewrite lookup_insert_eq in Hn. injection Hn as <-.
        exists (List.length (tw_hdrs tw)), hdr2. split; [|auto].
        rewrite lookup_app_r by lia. now rewrite Nat.sub_diag.
      * rewrite lookup_insert_ne in Hn by exact Hne. now apply (Hold ino).
  - destruct e as [e|]; [|contradiction].
    injection Hrun as <- <- <-. rewrite Hh. split; [exact Hlinks|now left].
Qed.

(** One call of [tarStoreFile] keeps both invariants. *)
Lemma tarStoreFile_invariant c lm offset tw path f r lm' tw' :
  tarStoreFile c lm offset tw path f = (r, lm', tw') ->
  links_resolved (tw_hdrs tw) -> index_archived lm tw ->
  links_resolved (tw_hdrs tw') /\ index_archived lm' tw'.
Proof.
  intros Hrun Hlinks Hidx. unfold tarStoreFile in Hrun.
  destruct (if is_symlink (fi_mode (f_info f)) then f_readlink f else inr "")
    as [e|link]; [injection Hrun as <- <- <-; auto|].
  destruct (FileInfoHeader (f_info f) link) as [e|hdr] eqn:Hhdr;
    [injection Hrun as <- <- <-; auto|].
  destruct (String.length path <? offset)%nat; [injection Hrun as <- <- <-; auto|].
  destruct (f_stat f) as [e|st]; [injection Hrun as <- <- <-; auto|].
  destruct (if negb (c_privileged c) && HasPrefix (slice_from offset path) "/rootfs"
            then c_ShiftFromNs c (st_uid st) (st_gid st)
            else (st_uid st, st_gid st)) as [uid gid].
  destruct (negb (c_privileged c) && HasPrefix (slice_from offset path) "/rootfs"
            && ((uid =? -1) || (gid =? -1)));
    [injection Hrun as <- <- <-; auto|].
  destruct (if negb (st_major st =? -1) then (st_major st, st_minor st)
            else (Devmajor hdr, Devminor hdr)) as [devmajor devminor].
  pose proof (FileInfoHeader_not_link _ _ _ Hhdr) as Hnolink.
  destruct (IsRegular (fi_mode (f_info f)) && (st_nlink st >? 1)) eqn:Hreg.
  - apply andb_prop in Hreg as (Hreg & _).
    rewrite (FileInfoHeader_regular _ link Hreg) in Hhdr. injection Hhdr as <-.
    destruct (lm !! st_ino st) as [firstpath|] eqn:Hl.
    + eapply store_tail_invariant; [exact Hrun|exact Hlinks|exact Hidx| |now left].
      intros _. simpl. split; [reflexivity|]. now exists (st_ino st).
    + eapply store_tail_invariant; [exact Hrun|exact Hlinks|exact Hidx| |].
      * simpl. discriminate.
      * right. simpl. split; [reflexivity|]. now exists (st_ino st).
  - eapply store_tail_invariant; [exact Hrun|exact Hlinks|exact Hidx| |now left].
    simpl. intros Ht. contradiction.
Qed.

Lemma Walk_invariant c offset items :
  forall lm tw r lm' tw',
  Walk c offset items lm tw = (r, lm', tw') ->
  links_resolved (tw_hdrs tw) -> index_archived lm tw ->
  links_resolved (tw_hdrs tw') /\ index_archived lm' tw'.
Proof.
  induction items as [|[path f] rest IH]; intros lm tw r lm' tw' Hrun Hlinks Hidx.
  - injection Hrun as <- <- <-. auto.
  - cbn [Walk] in Hrun.
    destruct (f_lstat_err f) as [e|]; [injection Hrun as <- <- <-; auto|].
    destruct (tarStoreFile c lm offset tw path f) as [[r1 lm1] tw1] eqn:Hstep.
    destruct (tarStoreFile_invariant _ _ _ _ _ _ _ _ _ Hstep Hlinks Hidx) as (A & B).
    destruct r1; [eapply IH; eauto| |]; injection Hrun as <- <- <-; auto.
Qed.

Lemma WalkRoot_invariant c offset items lm tw r lm' tw' :
  WalkRoot c offset items lm tw = (r, lm', tw') ->
  links_resolved (tw_hdrs tw) -> index_archived lm tw ->
  links_resolved (tw_hdrs tw') /\ index_archived lm' tw'.
Proof.
  unfold WalkRoot. destruct items as [|it rest].
  - intros [= <- <- <-]. auto.
  - apply Walk_invariant.
Qed.

Lemma Close_headers outcome tw : tw_hdrs (snd (Close outcome tw)) = tw_hdrs tw.
Proof.
  unfold Close. destruct (tw_err tw); [reflexivity|].
  destruct (tw_closed tw); [reflexivity|].
  destruct (tw_nb tw >? 0); [reflexivity|]. destruct outcome; reflexivity.
Qed.

(** Whatever the container holds and whatever fails on the way, in the
    archive [ExportToTar] leaves behind every hardlink entry has size 0 and
    names a regular entry that stands earlier in the archive. *)
Theorem ExportToTar_links_resolved c snap fs :
  links_resolved (tw_hdrs (snd (ExportToTar c snap fs))).
Proof.
  assert (Hnil : links_resolved []) by (intros i h Hh; now rewrite lookup_nil in Hh).
  unfold ExportToTar.
  destruct (negb (String.eqb snap "") && c_running c); [exact Hnil|].
  assert (Hidx0 : index_archived ∅ NewWriter).
  { right. intros ino n Hn. now rewrite lookup_empty in Hn. }
  cbv zeta. set (offset := S (String.length (c_path c))).
  set (meta :=
    match fs_metadata fs with
    | None => (Nil, (∅ : gmap Z string), NewWriter)
    | Some (inl err) => (Err err, ∅, snd (Close (fs_close_err fs) NewWriter))
    | Some (inr f) =>
        match tarStoreFile c ∅ offset NewWriter (Join (c_path c) "metadata.yaml") f with
        | (Nil, linkmap', tw') => (Nil, linkmap', tw')
        | (Err err, linkmap', tw') =>
            (Err err, linkmap', snd (Close (fs_close_err fs) tw'))
        | (Panic m, linkmap', tw') => (Panic m, linkmap', tw')
        end
    end).
  assert (Hmeta : links_resolved (tw_hdrs (snd meta))
                  /\ (fst (fst meta) = Nil -> index_archived (snd (fst meta)) (snd meta))).
  { subst meta. destruct (fs_metadata fs) as [[err|f]|].
    - cbn [fst snd]. rewrite Close_headers. split; [exact Hnil|discriminate].
    - destruct (tarStoreFile c ∅ offset NewWriter (Join (c_path c) "metadata.yaml") f)
        as [[r1 lm1] tw1] eqn:Hstep.
      destruct (tarStoreFile_invariant _ _ _ _ _ _ _ _ _ Hstep Hnil Hidx0) as (A & B).
      destruct r1; cbn [fst snd]; [auto| |split; [exact A|discriminate]].
      rewrite Close_headers. split; [exact A|discriminate].
    - cbn [fst snd]. auto. }
  destruct Hmeta as (A & B). clearbody meta. destruct meta as [[r1 lm1] tw1].
  simpl in A, B.
  destruct r1; [|exact A|exact A].
  specialize (B eq_refl).
  destruct (WalkRoot c offset (fs_rootfs fs) lm1 tw1) as [[r2 lm2] tw2] eqn:Hw2.
  destruct (WalkRoot_invariant _ _ _ _ _ _ _ _ Hw2 A B) as (A2 & B2).
  assert (Htail : forall tw3,
    links_resolved (tw_hdrs tw3) ->
    links_resolved
      (tw_hdrs (snd (match Close (fs_close_err fs) tw3 with
                     | (Some err, tw4) => (Err err, tw4)
                     | (None, tw4) => (Nil, tw4)
                     end)))).
  { intros tw3 H3. pose proof (Close_headers (fs_close_err fs) tw3) as Hc.
    destruct (Close (fs_close_err fs) tw3) as [[e|] tw4]; simpl in *; now rewrite Hc. }
  assert (Hrest : forall lm tw, links_resolved (tw_hdrs tw) -> index_archived lm tw ->
    links_resolved
      (tw_hdrs
         (snd (match
                 (match fs_templates fs with
                  | Some items => WalkRoot c offset items lm tw
                  | None => (Nil, lm, tw)
                  end)
               with
               | (Panic m, _, tw3) => (Panic m, tw3)
               | (_, _, tw3) =>
                   match Close (fs_close_err fs) tw3 with
                   | (Some err, tw4) => (Err err, tw4)
                   | (None, tw4) => (Nil, tw4)
                   end
               end)))).
  { intros lm tw Hl Hi. destruct (fs_templates fs) as [items|].
    - destruct (WalkRoot c offset items lm tw) as [[r3 lm3] tw3] eqn:Hw3.
      destruct (WalkRoot_invariant _ _ _ _ _ _ _ _ Hw3 Hl Hi) as (A3 & _).
      destruct r3; [now apply Htail|now apply Htail|exact A3].
    - now apply Htail. }
  destruct r2; [now apply Hrest|now apply Hrest|exact A2].
Qed.

End ArchiveInvariant.

(** ** Names and order of the archive *)

Section ArchiveOrder.
Import Archive Samples.

(** A call of [tarStoreFile] adds no header or one, named by the path past
    the offset. *)
Lemma tarStoreFile_growth c lm offset tw path f r lm' tw' :
  tarStoreFile c lm offset tw path f = (r, lm', tw') ->
  tw_hdrs tw' = tw_hdrs tw
  \/ exists h, tw_hdrs tw' = tw_hdrs tw ++ [h] /\ Name h = slice_from offset path.
Proof.
  intros Hrun. pose proof Hrun as Hkeep. unfold tarStoreFile in Hrun.
  destruct (if is_symlink (fi_mode (f_info f)) then f_readlink f else inr "")
    as [e|link]; [injection Hrun as <- <- <-; now left|].
  destruct (FileInfoHeader (f_info f) link) as [e|hdr];
    [injection Hrun as <- <- <-; now left|].
  destruct (String.length path <? offset)%nat; [injection Hrun as <- <- <-; now left|].
  destruct (f_stat f) as [e|st] eqn:Hst; [injection Hrun as <- <- <-; now left|].
  destruct (if negb (c_privileged c) && HasPrefix (slice_from offset path) "/rootfs"
            then c_ShiftFromNs c (st_uid st) (st_gid st)
            else (st_uid st, st_gid st)) as [uid gid].
  destruct (negb (c_privileged c) && HasPrefix (slice_from offset path) "/rootfs"
            && ((uid =? -1) || (gid =? -1)));
    [injection Hrun as <- <- <-; now left|].
  destruct (if negb (st_major st =? -1) then (st_major st, st_minor st)
            else (Devmajor hdr, Devminor hdr)) as [devmajor devminor].
  assert (G : forall hdr2 (lm2 : gmap Z string),
    match WriteHeader (f_write_err f) hdr2 tw with
    | (Some err, tw1) => (Err ("error writing header: " +:+ err +:+ nl), lm2, tw1)
    | (None, tw1) =>
        if Typeflag_eqb (Typeflag_of hdr2) TypeReg then
          match f_open_err f with
          | Some err =>
              (Err ("tarStoreFile: error opening file: " +:+ err +:+ nl), lm2, tw1)
          | None =>
              match Copy (f_copy_err f) tw1 with
              | (Some err, tw2) => (Err ("error copying file " +:+ err +:+ nl), lm2, tw2)
              | (None, tw2) => (Nil, lm2, tw2)
              end
          end
        else (Nil, lm2, tw1)
    end = (r, lm', tw') ->
    tw_hdrs tw' = tw_hdrs tw \/ tw_hdrs tw' = tw_hdrs tw ++ [hdr2]).
  { intros hdr2 lm2 H.
    destruct (WriteHeader (f_write_err f) hdr2 tw) as [e tw1] eqn:Hw.
    apply WriteHeader_headers in Hw as [(-> & Hh)|(Hne & Hh)].
    - right. destruct (Typeflag_eqb (Typeflag_of hdr2) TypeReg).
      + destruct (f_open_err f); [injection H as <- <- <-; exact Hh|].
        destruct (Copy (f_copy_err f) tw1) as [[e|] tw2] eqn:Hc;
          apply Copy_headers in Hc; injection H as <- <- <-; congruence.
      + injection H as <- <- <-. exact Hh.
    - left. destruct e as [e|]; [|contradiction]. injection H as <- <- <-. exact Hh. }
  assert (Hgrow : tw_hdrs tw' = tw_hdrs tw \/ exists h, tw_hdrs tw' = tw_hdrs tw ++ [h]).
  { destruct (IsRegular (fi_mode (f_info f)) && (st_nlink st >? 1)).
    - destruct (lm !! st_ino st); apply G in Hrun as [H|H]; eauto.
    - apply G in Hrun as [H|H]; eauto. }
  destruct Hgrow as [H|(h & H)]; [now left|]. right. exists h. split; [exact H|].
  exact (proj1 (tarStoreFile_header _ _ _ _ _ _ _ _ _ _ _ Hkeep H Hst)).
Qed.

Lemma Walk_names c offset items :
  forall lm tw r lm' tw',
  Walk c offset items lm tw = (r, lm', tw') ->
  exists added,
    tw_hdrs tw' = tw_hdrs tw ++ added
    /\ List.map Name added `sublist_of` List.map (archived_name offset) items.
Proof.
  induction items as [|[path f] rest IH]; intros lm tw r lm' tw' Hrun.
  - injection Hrun as <- <- <-. exists []. rewrite app_nil_r. split; [reflexivity|constructor].
  - cbn [Walk] in Hrun.
    destruct (f_lstat_err f) as [e|].
    { injection Hrun as <- <- <-. exists []. rewrite app_nil_r.
      split; [reflexivity|apply sublist_nil_l]. }
    destruct (tarStoreFile c lm offset tw path f) as [[r1 lm1] tw1] eqn:Hstep.
    apply tarStoreFile_growth in Hstep as Hg.
    assert (Hone : exists one,
      tw_hdrs tw1 = tw_hdrs tw ++ one
      /\ List.map Name one `sublist_of` [archived_name offset (path, f)]).
    { destruct Hg as [H|(h & H & Hn)].
      - exists []. rewrite app_nil_r. split; [exact H|apply sublist_nil_l].
      - exists [h]. split; [exact H|]. simpl. unfold archived_name. simpl.
        rewrite Hn. reflexivity. }
    destruct Hone as (one & H1 & S1).
    destruct r1.
    + destruct (IH _ _ _ _ _ Hrun) as (added & H2 & S2).
      exists (one ++ added). split; [now rewrite H2, H1, <- app_assoc|].
      rewrite List.map_app. cbn [List.map].
      change (archived_name offset (path, f) :: List.map (archived_name offset) rest)
        with ([archived_name offset (path, f)] ++ List.map (archived_name offset) rest).
      now apply sublist_app.
    + injection Hrun as <- <- <-. exists one. split; [exact H1|].
      cbn [List.map]. etransitivity; [exact S1|]. apply sublist_skip, sublist_nil_l.
    + injection Hrun as <- <- <-. exists one. split; [exact H1|].
      cbn [List.map]. etransitivity; [exact S1|]. apply sublist_skip, sublist_nil_l.
Qed.

Lemma WalkRoot_names c offset items lm tw r lm' tw' :
  WalkRoot c offset items lm tw = (r, lm', tw') ->
  exists added,
    tw_hdrs tw' = tw_hdrs tw ++ added
    /\ List.map Name added `sublist_of` List.map (archived_name offset) items.
Proof.
  unfold WalkRoot. destruct items as [|it rest].
  - intros [= <- <- <-]. exists []. rewrite app_nil_r.
    split; [reflexivity|apply sublist_nil_l].
  - apply Walk_names.
Qed.

(** A container without a [rootfs] directory cannot be exported: Walk
    hands the callback a nil FileInfo for the root it cannot inspect, and
    [tarStoreFile] panics on it before anything is written; the archive is
    not closed. *)
Theorem ExportToTar_missing_rootfs_panics c snap fs :
  negb (String.eqb snap EmptyString) && c_running c = false ->
  fs_metadata fs = None ->
  (fs_rootfs fs = []
   \/ exists p f e rest, fs_rootfs fs = (p, f) :: rest /\ f_lstat_err f = Some e) ->
  exists m, ExportToTar c snap fs = (Panic m, NewWriter).
Proof.
  intros Hguard Hmeta Hroot. unfold ExportToTar. rewrite Hguard, Hmeta. cbv zeta.
  destruct Hroot as [->|(p & f & e & rest & -> & He)].
  - eexists. reflexivity.
  - cbn [WalkRoot Walk]. rewrite He. eexists. reflexivity.
Qed.

Lemma ExportToTar_missing_rootfs_panics_witness :
  exists m, ExportToTar web EmptyString fs_no_rootfs = (Panic m, NewWriter).
Proof.
  apply ExportToTar_missing_rootfs_panics; [reflexivity|reflexivity|].
  right. exists (in_web "rootfs"), missing, "no such file or directory", [].
  split; reflexivity.
Defined.

(** The archive holds at most one entry per visited path, in visiting
    order, each named by the path with the container directory and the
    following separator cut off. *)
Theorem ExportToTar_names_in_order c snap fs :
  List.map Name (tw_hdrs (snd (ExportToTar c snap fs)))
  `sublist_of`
  List.map (archived_name (S (String.length (c_path c)))) (visited c fs).
Proof.
  unfold ExportToTar.
  destruct (negb (String.eqb snap "") && c_running c); [apply sublist_nil_l|].
  cbv zeta. set (offset := S (String.length (c_path c))).
  unfold visited. rewrite !List.map_app.
  set (meta :=
    match fs_metadata fs with
    | None => (Nil, (∅ : gmap Z string), NewWriter)
    | Some (inl err) => (Err err, ∅, snd (Close (fs_close_err fs) NewWriter))
    | Some (inr f) =>
        match tarStoreFile c ∅ offset NewWriter (Join (c_path c) "metadata.yaml") f with
        | (Nil, linkmap', tw') => (Nil, linkmap', tw')
        | (Err err, linkmap', tw') =>
            (Err err, linkmap', snd (Close (fs_close_err fs) tw'))
        | (Panic m, linkmap', tw') => (Panic m, linkmap', tw')
        end
    end).
  set (mnames :=
    List.map (archived_name offset)
      match fs_metadata fs with
      | Some (inr f) => [(Join (c_path c) "metadata.yaml", f)]
      | _ => []
      end).
  assert (Hmeta : List.map Name (tw_hdrs (snd meta)) `sublist_of` mnames).
  { subst meta mnames. destruct (fs_metadata fs) as [[err|f]|].
    - cbn [fst snd]. rewrite Close_headers. apply sublist_nil_l.
    - destruct (tarStoreFile c ∅ offset NewWriter (Join (c_path c) "metadata.yaml") f)
        as [[r1 lm1] tw1] eqn:Hstep.
      apply tarStoreFile_growth in Hstep.
      assert (S1 : List.map Name (tw_hdrs tw1)
                   `sublist_of` [archived_name offset (Join (c_path c) "metadata.yaml", f)]).
      { destruct Hstep as [->|(h & -> & Hn)]; [apply sublist_nil_l|].
        simpl. unfold archived_name. simpl. now rewrite Hn. }
      destruct r1; cbn [fst snd]; try exact S1. now rewrite Close_headers.
    - apply sublist_nil_l. }
  clearbody meta mnames. destruct meta as [[r1 lm1] tw1]. cbn [snd] in Hmeta.
  assert (Hpad : forall l, List.map Name (tw_hdrs tw1) `sublist_of` mnames ++ l).
  { intros l. rewrite <- (app_nil_r (List.map Name (tw_hdrs tw1))).
    apply sublist_app; [exact Hmeta|apply sublist_nil_l]. }
  destruct r1; [|apply Hpad|apply Hpad].
  destruct (WalkRoot c offset (fs_rootfs fs) lm1 tw1) as [[r2 lm2] tw2] eqn:Hw2.
  destruct (WalkRoot_names _ _ _ _ _ _ _ _ Hw2) as (k2 & H2 & S2).
  assert (Hclose : forall tw3,
    tw_hdrs (snd (match Close (fs_close_err fs) tw3 with
                  | (Some err, tw4) => (Err err, tw4)
                  | (None, tw4) => (Nil, tw4)
                  end)) = tw_hdrs tw3).
  { intros tw3. pose proof (Close_headers (fs_close_err fs) tw3) as Hc.
    destruct (Close (fs_close_err fs) tw3) as [[e|] tw4]; exact Hc. }
  assert (Hrest : forall lm r,
    r = match
          (match fs_templates fs with
           | Some items => WalkRoot c offset items lm tw2
           | None => (Nil, lm, tw2)
           end)
        with
        | (Panic m, _, tw3) => (Panic m, tw3)
        | (_, _, tw3) =>
            match Close (fs_close_err fs) tw3 with
            | (Some err, tw4) => (Err err, tw4)
            | (None, tw4) => (Nil, tw4)
            end
        end ->
    exists k3, tw_hdrs (snd r) = tw_hdrs tw2 ++ k3
      /\ List.map Name k3
         `sublist_of` List.map (archived_name offset)
                        match fs_templates fs with
                        | Some items => items
                        | None => []
                        end).
  { intros lm r ->. destruct (fs_templates fs) as [items|].
    - destruct (WalkRoot c offset items lm tw2) as [[r3 lm3] tw3] eqn:Hw3.
      destruct (WalkRoot_names _ _ _ _ _ _ _ _ Hw3) as (k3 & H3 & S3).
      exists k3. split; [|exact S3].
      destruct r3; cbn [snd]; rewrite ?Hclose; exact H3.
    - exists []. rewrite app_nil_r. split; [apply Hclose|apply sublist_nil_l]. }
  assert (Hall : forall k3,
    List.map Name k3
      `sublist_of` List.map (archived_name offset)
                     match fs_templates fs with
                     | Some items => items
                     | None => []
                     end ->
    List.map Name ((tw_hdrs tw1 ++ k2) ++ k3)
      `sublist_of` mnames ++ List.map (archived_name offset) (fs_rootfs fs)
                   ++ List.map (archived_name offset)
                        match fs_templates fs with
                        | Some items => items
                        | None => []
                        end).
  { intros k3 S3. rewrite !List.map_app, <- app_assoc.
    apply sublist_app; [exact Hmeta|]. now apply sublist_app. }
  destruct r2.
  - edestruct (Hrest lm2) as (k3 & H3 & S3); [reflexivity|].
    rewrite H3, H2. now apply Hall.
  - edestruct (Hrest lm2) as (k3 & H3 & S3); [reflexivity|].
    rewrite H3, H2. now apply Hall.
  - cbn [snd]. rewrite H2, <- (app_nil_r (tw_hdrs tw1 ++ k2)).
    apply Hall. apply sublist_nil_l.
Qed.

End ArchiveOrder.

(** ** The shared mount point *)

Section MountFacts.
Import Mounts.

Lemma dir_exists_app path h d :
  dir_exists path (mkHost (h_dirs h ++ [(path, d)]) (h_config h)) = true.
Proof.
  unfold dir_exists. simpl. rewrite existsb_app. simpl.
  rewrite String.eqb_refl. now rewrite orb_true_r.
Qed.

(** A directory that [mkdirAllContainerRoot] creates is never owned by the
    "no such id" value -1: an id the map cannot shift falls back to 0, and a
    privileged container gets 0:0. *)
Theorem mkdirAllContainerRoot_owner env path h :
  dir_exists path h = false ->
  mt_mkdir_err env = None ->
  exists uid gid,
    mkdirAllContainerRoot env path h
      = (None, mkHost (h_dirs h ++ [(path, (uid, gid))]) (h_config h))
    /\ uid <> -1 /\ gid <> -1
    /\ (mt_privileged env = true -> uid = 0 /\ gid = 0)
    /\ (mt_privileged env = false ->
        uid = (if fst (mt_ShiftIntoNs env 0 0) =? -1 then 0 else fst (mt_ShiftIntoNs env 0 0))
        /\ gid = (if snd (mt_ShiftIntoNs env 0 0) =? -1 then 0
                  else snd (mt_ShiftIntoNs env 0 0))).
Proof.
  intros Hnew Hok. unfold mkdirAllContainerRoot, container_root, MkdirAllOwner.
  rewrite Hok, Hnew.
  destruct (mt_privileged env); simpl.
  - exists 0, 0. repeat split; try discriminate; auto.
  - destruct (mt_ShiftIntoNs env 0 0) as [u g]. simpl.
    exists (if u =? -1 then 0 else u), (if g =? -1 then 0 else g).
    repeat split; try discriminate.
    + destruct (u =? -1) eqn:E; [discriminate|now apply Z.eqb_neq].
    + destruct (g =? -1) eqn:E; [discriminate|now apply Z.eqb_neq].
Qed.

Lemma mkdirAllContainerRoot_owner_witness :
  exists uid gid,
    mkdirAllContainerRoot
      (mkMountEnv false (fun _ _ => (100000, -1)) None None) "/var/lib/lxd/shmounts/web"
      (mkHost [] [])
      = (None, mkHost ([] ++ [("/var/lib/lxd/shmounts/web", (uid, gid))]) [])
    /\ uid <> -1 /\ gid <> -1.
Proof.
  destruct (mkdirAllContainerRoot_owner
              (mkMountEnv false (fun _ _ => (100000, -1)) None None)
              "/var/lib/lxd/shmounts/web" (mkHost [] []) eq_refl eq_refl)
    as (uid & gid & A & B & C & _).
  exists uid, gid. auto.
Defined.

(** [mountShared] sets the mount entry only over an existing directory:
    when it returns [nil] the source directory exists and the entry is the
    last configuration item; when it fails the configuration is untouched;
    and a directory that was already there is neither re-created nor given a
    new owner. *)
Theorem mountShared_effect env source h :
  let r := mountShared env source h in
  (fst r = None ->
     dir_exists source (snd r) = true
     /\ h_config (snd r)
        = h_config h ++ [("lxc.mount.entry", source +:+ " .lxdmounts none bind,create=dir 0 0")])
  /\ (fst r <> None -> h_config (snd r) = h_config h)
  /\ (dir_exists source h = true -> h_dirs (snd r) = h_dirs h).
Proof.
  unfold mountShared, mkdirAllContainerRoot, MkdirAllOwner, SetConfigItem.
  destruct (container_root env) as [uid gid].
  destruct (dir_exists source h) eqn:Hex; simpl.
  - destruct (mt_config_err env); simpl; repeat split; auto; try discriminate;
      try contradiction.
  - destruct (mt_mkdir_err env); simpl.
    + repeat split; auto; try discriminate.
    + destruct (mt_config_err env); simpl; repeat split; auto;
        try discriminate; try contradiction.
      apply dir_exists_app.
Qed.

End MountFacts.

Section RenameExamples.
Import Snapshot Samples.

(** A rename request whose body has no [name] is refused. *)
Lemma snapshotPost_bad_request_witness :
  exists err, snapshotPost "/" (Some body_stateless) "web/snap0" "web" = BadRequest err.
Proof.
  apply snapshotPost_bad_request. right. exists body_stateless.
  split; [reflexivity|]. intros s. vm_compute. discriminate.
Defined.

End RenameExamples.
